(** * VibeFlagger: scoring engine and persistence layer

    A shallow embedding of [src/database/db.ts] and of the log lookup
    and scoring helpers of [src/screens/ProfileDetailScreen.tsx],
    followed by the handlers of the screens that call them and by the
    subscription limits of [src/services/RevenueCatService.ts].

    JavaScript numbers are IEEE-754 binary64 values; they are modelled
    with the Standard Library's executable specification of binary
    floating point ([SpecFloat], precision 53, emax 1024).  The SQLite
    database is modelled by its two tables, its AUTOINCREMENT counters
    and the per-connection [foreign_keys] pragma; every statement the
    code issues is a function on that state. *)

From Stdlib Require Import ZArith List Bool Lia String Ascii.
From Stdlib Require Import QArith Qround Qminmax.
From Stdlib Require Import Floats.SpecFloat.
From Stdlib Require Import Sorting.Sorted Sorting.Permutation.
Import ListNotations.

Local Open Scope Z_scope.

(** ** JavaScript numbers *)

Module JS.

Definition prec : Z := 53.
Definition emax : Z := 1024.

Definition number : Type := spec_float.

Definition NaN : number := S754_nan.

(** The number denoted by the dyadic rational [m * 2^e]. *)
Definition dyadic (m e : Z) : number := binary_normalize prec emax m e false.

(** An integer literal, or an integer read from an INTEGER column. *)
Definition of_Z (z : Z) : number := dyadic z 0.

Definition add : number -> number -> number := SFadd prec emax.
Definition sub : number -> number -> number := SFsub prec emax.
Definition mul : number -> number -> number := SFmul prec emax.
Definition div : number -> number -> number := SFdiv prec emax.

(** [a > b] and [a >= b]; both are false when an operand is NaN. *)
Definition gt (a b : number) : bool := SFltb b a.
Definition ge (a b : number) : bool := SFleb b a.

Definition is_neg_zero (x : number) : bool :=
  match x with S754_zero true => true | _ => false end.

(** [Math.min] and [Math.max]: NaN if an operand is NaN, and -0 is
    smaller than +0. *)
Definition Math_min (a b : number) : number :=
  match SFcompare a b with
  | None => NaN
  | Some Lt => a
  | Some Gt => b
  | Some Eq => if is_neg_zero a then a else b
  end.

Definition Math_max (a b : number) : number :=
  match SFcompare a b with
  | None => NaN
  | Some Lt => b
  | Some Gt => a
  | Some Eq => if is_neg_zero a then b else a
  end.

(** [floor (v * 2^e + 1/2)] for an exponent [e < 0]. *)
Definition round_half_up_dyadic (v e : Z) : Z :=
  (2 * v + 2 ^ (- e)) / 2 ^ (1 - e).

(** [Math.round]: the integer nearest to [x], ties towards +infinity;
    NaN, the infinities and the zeros are returned unchanged, and a
    negative [x] that rounds to zero gives -0. *)
Definition Math_round (x : number) : number :=
  match x with
  | S754_finite s m e =>
      if 0 <=? e then x
      else binary_normalize prec emax
             (round_half_up_dyadic (cond_Zopp s (Zpos m)) e) 0 s
  | _ => x
  end.

(** [x || null] on an optional integer and on an optional string:
    [undefined], [0] and the empty string are falsy. *)
Definition or_null_Z (x : option Z) : option Z :=
  match x with
  | Some 0 => None
  | _ => x
  end.

Definition or_null_string (x : option string) : option string :=
  match x with
  | Some EmptyString => None
  | _ => x
  end.

(** *** Canonical encodings, used to state exactness results *)

(** The 53-bit mantissa of the nonzero integer [z]. *)
Definition mant (z : positive) : positive :=
  Z.to_pos (Zpos z * 2 ^ (prec - Zpos (digits2_pos z))).

(** The canonical binary64 encoding of [z * 2^e] for [|z| < 2^53]. *)
Definition canon (z e : Z) : number :=
  match z with
  | Z0 => S754_zero false
  | Zpos p => S754_finite false (mant p) (e + Zpos (digits2_pos p) - prec)
  | Zneg p => S754_finite true (mant p) (e + Zpos (digits2_pos p) - prec)
  end.

(** Exponents for which every [z * 2^e] with [|z| < 2^53] is a normal number. *)
Definition exp_ok (e : Z) : Prop := -1022 <= e <= 971.

(** A finite number with a full 53-bit mantissa, between the
    subnormal range and the overflow threshold. *)
Definition normal (x : number) : Prop :=
  match x with
  | S754_finite _ m e =>
      Zpos (digits2_pos m) = prec /\ emin prec emax <= e <= emax - prec
  | _ => False
  end.

Definition sign_of (x : number) : bool :=
  match x with
  | S754_finite s _ _ | S754_infinity s | S754_zero s => s
  | S754_nan => false
  end.

Definition normal_or_inf (s : bool) (x : number) : Prop :=
  (normal x /\ sign_of x = s) \/ x = S754_infinity s.

(** [x] is the finite number [c * 2^u] with sign [s], brought to a
    53-bit mantissa, or the infinity of that sign when [c * 2^u]
    is beyond the largest finite number. *)
Definition rounds_to (s : bool) (c u : Z) (x : number) : Prop :=
  (x = S754_infinity s /\ emax - prec <= u)
  \/ exists m e,
       x = S754_finite s m e /\ normal x
       /\ ((e = u /\ Zpos m = c) \/ (e = u + 1 /\ 2 * Zpos m = c)).

(** The rational value of a finite number. *)
Definition value (s : bool) (m : positive) (e : Z) : Q :=
  match e with
  | Zneg k => (cond_Zopp s (Zpos m) # 2 ^ k)%Q
  | _ => inject_Z (cond_Zopp s (Zpos m) * 2 ^ e)
  end.

End JS.

(** ** Data model ([db.ts], lines 89-125 and 337-341) *)

Inductive LogType : Set := GREEN | YELLOW | RED.

Inductive LogCategory : Set := Communication | Money | Intimacy | Trust | Other.

Module Profile.
Record t : Set := mk
  { id : Z;
    name : string;
    relationship : string;
    created_at : string }.
End Profile.

Module LogEntry.
Record t : Set := mk
  { id : Z;
    timestamp : string;
    person : string;
    profile_id : option Z;
    type : LogType;
    severity : Z;
    category : LogCategory;
    notes : option string }.
End LogEntry.

(** The flag type of a new entry is kept as the raw string handed to
    SQLite: the TypeScript union is not checked at run time, the CHECK
    constraint of the [logs] table is. *)
Module NewLogEntry.
Record t : Set := mk
  { person : string;
    profile_id : option Z;
    type : string;
    severity : Z;
    category : LogCategory;
    notes : option string }.
End NewLogEntry.

Module NewProfile.
Record t : Set := mk
  { name : string;
    relationship : string }.
End NewProfile.

Module TopProfile.
Record t : Set := mk
  { id : Z;
    name : string;
    flagCount : Z }.
End TopProfile.

(** [Partial<NewProfile>]: a field that is [undefined] is [None]. *)
Module PartialNewProfile.
Record t : Set := mk
  { name : option string;
    relationship : option string }.
End PartialNewProfile.

Module ProfileStats.
Record t : Type := mk
  { profile : Profile.t;
    vibeScore : JS.number;
    healthStatus : string;
    totalLogs : nat;
    redCount : nat;
    yellowCount : nat;
    greenCount : nat;
    lastFlagDate : option string }.
End ProfileStats.

(** ** The SQLite database *)

Module Sqlite.

Inductive Error : Set :=
| CONSTRAINT_UNIQUE
| CONSTRAINT_CHECK
| CONSTRAINT_FOREIGNKEY.

(** The file [vibeflagger.db]: both tables in rowid order and the
    [sqlite_sequence] counters kept for the AUTOINCREMENT keys.  The
    column [logs.profile_id] added by ALTER TABLE is NULL ([None]) in
    every row written before it existed. *)
Record Tables : Set := mkTables
  { profiles : list Profile.t;
    logs : list LogEntry.t;
    profiles_seq : Z;
    logs_seq : Z }.

(** An open connection.  SQLite enforces foreign keys, and so runs
    ON DELETE SET NULL, only on a connection on which
    [PRAGMA foreign_keys = ON] was executed. *)
Record SQLiteDatabase : Set := mkConn
  { foreign_keys : bool }.

(** [openDatabaseAsync]: a fresh connection has the pragma off. *)
Definition openDatabase : SQLiteDatabase := {| foreign_keys := false |}.

Inductive Result (A : Type) : Type :=
| Ok (a : A)
| Err (e : Error).
Arguments Ok {A} a.
Arguments Err {A} e.

(** AUTOINCREMENT: one more than the largest rowid the table ever held. *)
Definition next_rowid (seq : Z) (ids : list Z) : Z :=
  Z.max seq (fold_right Z.max 0 ids) + 1.

Definition parse_type (s : string) : option LogType :=
  if (s =? "GREEN")%string then Some GREEN
  else if (s =? "YELLOW")%string then Some YELLOW
  else if (s =? "RED")%string then Some RED
  else None.

Definition id_eqb (a : option Z) (b : Z) : bool :=
  match a with
  | Some k => k =? b
  | None => false
  end.

Definition is_null {A : Type} (a : option A) : bool :=
  match a with
  | Some _ => false
  | None => true
  end.

(** [INSERT INTO profiles (name, relationship, created_at) VALUES (?, ?, ?)]
    under [name TEXT NOT NULL UNIQUE]. *)
Definition insert_profile (name relationship created_at : string) (t : Tables)
  : Result (Z * Tables) :=
  if existsb (fun p => (Profile.name p =? name)%string) (profiles t)
  then Err CONSTRAINT_UNIQUE
  else
    let rowid := next_rowid (profiles_seq t) (map Profile.id (profiles t)) in
    Ok (rowid,
        {| profiles := profiles t ++ [Profile.mk rowid name relationship created_at];
           logs := logs t;
           profiles_seq := rowid;
           logs_seq := logs_seq t |}).

(** [INSERT INTO logs (...) VALUES (?, ?, ?, ?, ?, ?, ?)] under the two
    CHECK constraints and, when enforced, the foreign key. *)
Definition insert_log (c : SQLiteDatabase) (timestamp person : string)
    (profile_id : option Z) (type : string) (severity : Z)
    (category : LogCategory) (notes : option string) (t : Tables)
  : Result (Z * Tables) :=
  match parse_type type with
  | None => Err CONSTRAINT_CHECK
  | Some ty =>
      if negb ((1 <=? severity) && (severity <=? 10)) then Err CONSTRAINT_CHECK
      else if foreign_keys c
              && negb (is_null profile_id)
              && negb (existsb (fun p => id_eqb profile_id (Profile.id p)) (profiles t))
      then Err CONSTRAINT_FOREIGNKEY
      else
        let rowid := next_rowid (logs_seq t) (map LogEntry.id (logs t)) in
        Ok (rowid,
            {| profiles := profiles t;
               logs := logs t ++ [LogEntry.mk rowid timestamp person profile_id
                                               ty severity category notes];
               profiles_seq := profiles_seq t;
               logs_seq := rowid |})
  end.

Definition set_profile_id (v : option Z) (l : LogEntry.t) : LogEntry.t :=
  LogEntry.mk (LogEntry.id l) (LogEntry.timestamp l) (LogEntry.person l) v
              (LogEntry.type l) (LogEntry.severity l) (LogEntry.category l)
              (LogEntry.notes l).

(** [DELETE FROM profiles WHERE id = ?]; the action ON DELETE SET NULL
    declared on [logs.profile_id] runs in the same statement when the
    connection enforces foreign keys. *)
Definition delete_profile (c : SQLiteDatabase) (id : Z) (t : Tables) : Tables :=
  {| profiles := filter (fun p => negb (Profile.id p =? id)) (profiles t);
     logs :=
       if foreign_keys c
       then map (fun l => if id_eqb (LogEntry.profile_id l) id
                          then set_profile_id None l else l) (logs t)
       else logs t;
     profiles_seq := profiles_seq t;
     logs_seq := logs_seq t |}.

(** [UPDATE logs SET profile_id = ? WHERE person = ? AND profile_id IS NULL] *)
Definition link_logs (profileId : Z) (person : string) (t : Tables) : Tables :=
  {| profiles := profiles t;
     logs := map (fun l => if (LogEntry.person l =? person)%string
                              && is_null (LogEntry.profile_id l)
                           then set_profile_id (Some profileId) l else l) (logs t);
     profiles_seq := profiles_seq t;
     logs_seq := logs_seq t |}.

(** [SELECT DISTINCT]: the first occurrence of each value, in scan order. *)
Fixpoint distinct (l : list string) : list string :=
  match l with
  | [] => []
  | x :: xs => x :: filter (fun y => negb (y =? x)%string) (distinct xs)
  end.

(** A stable sort: [ORDER BY] with the key order [before]; rows with
    equal keys stay in scan order. *)
Section OrderBy.
Context {A : Type} (before : A -> A -> bool).

Fixpoint insert_sorted (x : A) (l : list A) : list A :=
  match l with
  | [] => [x]
  | y :: ys => if before y x then y :: insert_sorted x ys else x :: y :: ys
  end.

Definition order_by (l : list A) : list A :=
  fold_right insert_sorted [] (rev l).
End OrderBy.

(** [ORDER BY timestamp DESC] on a TEXT column: bytewise comparison. *)
Definition newer_or_same (a b : LogEntry.t) : bool :=
  String.leb (LogEntry.timestamp b) (LogEntry.timestamp a).

(** [SELECT * FROM logs WHERE profile_id = ? ORDER BY timestamp DESC] *)
Definition select_logs_by_profile_id (profileId : Z) (t : Tables) : list LogEntry.t :=
  order_by newer_or_same
    (filter (fun l => id_eqb (LogEntry.profile_id l) profileId) (logs t)).

(** [SELECT * FROM logs WHERE person = ? ORDER BY timestamp DESC] *)
Definition select_logs_by_person (person : string) (t : Tables) : list LogEntry.t :=
  order_by newer_or_same
    (filter (fun l => (LogEntry.person l =? person)%string) (logs t)).

(** [SELECT * FROM profiles WHERE id = ?] *)
Definition select_profiles_by_id (id : Z) (t : Tables) : list Profile.t :=
  filter (fun p => Profile.id p =? id) (profiles t).

(** [SELECT id FROM profiles WHERE name = ?] *)
Definition select_profile_ids_by_name (name : string) (t : Tables) : list Z :=
  map Profile.id (filter (fun p => (Profile.name p =? name)%string) (profiles t)).

(** [SELECT DISTINCT person FROM logs WHERE profile_id IS NULL] *)
Definition select_unlinked_people (t : Tables) : list string :=
  distinct (map LogEntry.person
                (filter (fun l => is_null (LogEntry.profile_id l)) (logs t))).

(** [SELECT p.id, p.name, COUNT(l.id) as flagCount FROM profiles p
     LEFT JOIN logs l ON <on> GROUP BY p.id HAVING flagCount > 0
     ORDER BY flagCount DESC LIMIT ?].  The primary key makes every
    group a single profile. *)
Definition flag_count (on : Profile.t -> LogEntry.t -> bool) (t : Tables)
    (p : Profile.t) : Z :=
  Z.of_nat (List.length (filter (on p) (logs t))).

Definition more_or_same_flags (a b : TopProfile.t) : bool :=
  TopProfile.flagCount b <=? TopProfile.flagCount a.

Definition select_top_profiles (on : Profile.t -> LogEntry.t -> bool)
    (limit : nat) (t : Tables) : list TopProfile.t :=
  firstn limit
    (order_by more_or_same_flags
       (filter (fun r => 0 <? TopProfile.flagCount r)
          (map (fun p => TopProfile.mk (Profile.id p) (Profile.name p)
                                       (flag_count on t p))
               (profiles t)))).

Definition on_profile_id (p : Profile.t) (l : LogEntry.t) : bool :=
  id_eqb (LogEntry.profile_id l) (Profile.id p).

Definition on_person (p : Profile.t) (l : LogEntry.t) : bool :=
  (Profile.name p =? LogEntry.person l)%string.

(** [ORDER BY name ASC] on a TEXT column: bytewise comparison. *)
Definition name_before_or_same (a b : Profile.t) : bool :=
  String.leb (Profile.name a) (Profile.name b).

(** [SELECT * FROM profiles ORDER BY name ASC] *)
Definition select_all_profiles (t : Tables) : list Profile.t :=
  order_by name_before_or_same (profiles t).

(** [UPDATE profiles SET <fields> WHERE id = ?], each field being
    [name = ?] or [relationship = ?] with its value.  The primary key
    selects at most one row; UNIQUE rejects a new name that another
    row holds. *)
Inductive ProfileColumn : Set := name_column | relationship_column.

Definition assign (p : Profile.t) (field : ProfileColumn * string) : Profile.t :=
  match fst field with
  | name_column =>
      Profile.mk (Profile.id p) (snd field) (Profile.relationship p)
                 (Profile.created_at p)
  | relationship_column =>
      Profile.mk (Profile.id p) (Profile.name p) (snd field)
                 (Profile.created_at p)
  end.

Definition sets_name (field : ProfileColumn * string) : bool :=
  match fst field with
  | name_column => true
  | relationship_column => false
  end.

Definition update_profiles (fields : list (ProfileColumn * string)) (id : Z)
    (t : Tables) : Result Tables :=
  if existsb sets_name fields
     && existsb
          (fun p =>
             (Profile.id p =? id)
             && existsb
                  (fun q =>
                     negb (Profile.id q =? id)
                     && (Profile.name q =? Profile.name (fold_left assign fields p))%string)
                  (profiles t))
          (profiles t)
  then Err CONSTRAINT_UNIQUE
  else
    Ok {| profiles := map (fun p => if Profile.id p =? id
                                    then fold_left assign fields p else p)
                          (profiles t);
          logs := logs t;
          profiles_seq := profiles_seq t;
          logs_seq := logs_seq t |}.

(** [DELETE FROM logs WHERE id = ?] *)
Definition delete_log (id : Z) (t : Tables) : Tables :=
  {| profiles := profiles t;
     logs := filter (fun l => negb (LogEntry.id l =? id)) (logs t);
     profiles_seq := profiles_seq t;
     logs_seq := logs_seq t |}.

Definition set_notes (v : option string) (l : LogEntry.t) : LogEntry.t :=
  LogEntry.mk (LogEntry.id l) (LogEntry.timestamp l) (LogEntry.person l)
              (LogEntry.profile_id l) (LogEntry.type l) (LogEntry.severity l)
              (LogEntry.category l) v.

(** [UPDATE logs SET notes = ? WHERE id = ?] *)
Definition update_log_notes (notes : option string) (id : Z) (t : Tables) : Tables :=
  {| profiles := profiles t;
     logs := map (fun l => if LogEntry.id l =? id then set_notes notes l else l)
                 (logs t);
     profiles_seq := profiles_seq t;
     logs_seq := logs_seq t |}.

(** [SELECT * FROM logs ORDER BY timestamp DESC] *)
Definition select_all_logs (t : Tables) : list LogEntry.t :=
  order_by newer_or_same (logs t).

(** [LIMIT ?]: a negative bound is no bound. *)
Definition limit_rows {A : Type} (limit : Z) (rows : list A) : list A :=
  if limit <? 0 then rows else firstn (Z.to_nat limit) rows.

(** [SELECT * FROM logs ORDER BY timestamp DESC LIMIT ?] *)
Definition select_recent_logs (limit : Z) (t : Tables) : list LogEntry.t :=
  limit_rows limit (order_by newer_or_same (logs t)).

(** [SELECT DISTINCT person FROM logs ORDER BY person ASC]: rows of
    one column. *)
Record PersonRow : Set := mkPersonRow { person : string }.

Definition select_unique_people (t : Tables) : list PersonRow :=
  map mkPersonRow
      (order_by String.leb (distinct (map LogEntry.person (logs t)))).

End Sqlite.

Import Sqlite.

(** ** The application state and its monad

    The module-level handle [db], the database file, and the clock read
    by [new Date().toISOString()] ([clock n] is the [n]-th reading). *)

Record World : Type := mkWorld
  { db : option SQLiteDatabase;
    file : Tables;
    clock : nat -> string;
    reads : nat }.

Definition App (A : Type) : Type := World -> Result A * World.

Definition ret {A : Type} (a : A) : App A := fun w => (Ok a, w).

Definition bind {A B : Type} (m : App A) (k : A -> App B) : App B :=
  fun w =>
    match m w with
    | (Ok a, w') => k a w'
    | (Err e, w') => (Err e, w')
    end.

Notation "x <- m ;; k" := (bind m (fun x => k))
  (at level 61, m at next level, right associativity).
Notation "m ;;; k" := (bind m (fun _ => k))
  (at level 61, right associativity).

Definition set_file (t : Tables) (w : World) : World :=
  {| db := db w; file := t; clock := clock w; reads := reads w |}.

(** [new Date().toISOString()] *)
Definition Date_toISOString : App string :=
  fun w => (Ok (clock w (reads w)),
            {| db := db w; file := file w; clock := clock w; reads := S (reads w) |}).

(** [database.getAllAsync] with a query [q] *)
Definition getAllAsync {A : Type} (q : Tables -> A) : App A :=
  fun w => (Ok (q (file w)), w).

(** [database.runAsync] with a statement that may be rejected *)
Definition runAsync_insert (stmt : Tables -> Result (Z * Tables)) : App Z :=
  fun w =>
    match stmt (file w) with
    | Ok (lastInsertRowId, t) => (Ok lastInsertRowId, set_file t w)
    | Err e => (Err e, w)
    end.

(** [database.runAsync] with a statement that always succeeds *)
Definition runAsync (stmt : Tables -> Tables) : App unit :=
  fun w => (Ok tt, set_file (stmt (file w)) w).

(** [database.runAsync] with an UPDATE that a constraint may reject *)
Definition runAsync_update (stmt : Tables -> Result Tables) : App unit :=
  fun w =>
    match stmt (file w) with
    | Ok t => (Ok tt, set_file t w)
    | Err e => (Err e, w)
    end.

(** [try { m } catch (error) { handler }] *)
Definition try_catch {A : Type} (m : App A) (handler : Error -> App A) : App A :=
  fun w =>
    match m w with
    | (Ok a, w') => (Ok a, w')
    | (Err e, w') => handler e w'
    end.

(** ** [src/database/db.ts] *)

Module Db.

Import JS.

(** Lines 48-87.  The body of the [for] loop, then the procedure. *)
Fixpoint migrate_people (database : SQLiteDatabase) (uniquePeople : list string)
  : App unit :=
  match uniquePeople with
  | [] => ret tt
  | person :: rest =>
      existing <- getAllAsync (select_profile_ids_by_name person) ;;
      profileId <-
        match existing with
        | id :: _ => ret id
        | [] =>
            now <- Date_toISOString ;;
            runAsync_insert (insert_profile person "Unknown" now)
        end ;;
      runAsync (link_logs profileId person) ;;;
      migrate_people database rest
  end.

Definition migrateExistingData (database : SQLiteDatabase) : App unit :=
  existingLogs <- getAllAsync (fun t => firstn 1 (select_unlinked_people t)) ;;
  if (List.length existingLogs =? 0)%nat then ret tt
  else
    uniquePeople <- getAllAsync select_unlinked_people ;;
    migrate_people database uniquePeople.

(** Lines 13-46.  Both CREATE TABLE IF NOT EXISTS statements and the
    ALTER TABLE leave the modelled tables as they are (the error of
    adding an existing column is caught and dropped). *)
Definition initializeDatabase (database : SQLiteDatabase) : App unit :=
  migrateExistingData database.

(** Lines 5-11. *)
Definition getDatabase : App SQLiteDatabase :=
  fun w =>
    match db w with
    | Some database => (Ok database, w)
    | None =>
        let database := openDatabase in
        let w' := {| db := Some database; file := file w;
                     clock := clock w; reads := reads w |} in
        (initializeDatabase database ;;; ret database) w'
    end.

(** Lines 128-138. *)
Definition createProfile (profile : NewProfile.t) : App Z :=
  database <- getDatabase ;;
  timestamp <- Date_toISOString ;;
  runAsync_insert
    (insert_profile (NewProfile.name profile) (NewProfile.relationship profile)
                    timestamp).

(** Lines 140-147. *)
Definition getAllProfiles : App (list Profile.t) :=
  database <- getDatabase ;;
  getAllAsync select_all_profiles.

(** Lines 149-156. *)
Definition getProfileById (id : Z) : App (option Profile.t) :=
  database <- getDatabase ;;
  results <- getAllAsync (select_profiles_by_id id) ;;
  ret (match results with
       | p :: _ => Some p
       | [] => None
       end).

(** Lines 158-179.  [fields] pairs each pushed assignment with the
    value pushed for it. *)
Definition updateProfile (id : Z) (updates : PartialNewProfile.t) : App unit :=
  database <- getDatabase ;;
  let fields := [] in
  let fields :=
    match PartialNewProfile.name updates with
    | Some name => fields ++ [(name_column, name)]
    | None => fields
    end in
  let fields :=
    match PartialNewProfile.relationship updates with
    | Some relationship => fields ++ [(relationship_column, relationship)]
    | None => fields
    end in
  if (List.length fields =? 0)%nat then ret tt
  else runAsync_update (update_profiles fields id).

(** Lines 181-185. *)
Definition deleteProfile (id : Z) : App unit :=
  database <- getDatabase ;;
  runAsync (delete_profile database id).

(** Lines 188-199. *)
Definition insertLog (entry : NewLogEntry.t) : App Z :=
  database <- getDatabase ;;
  timestamp <- Date_toISOString ;;
  runAsync_insert
    (insert_log database timestamp (NewLogEntry.person entry)
                (or_null_Z (NewLogEntry.profile_id entry))
                (NewLogEntry.type entry) (NewLogEntry.severity entry)
                (NewLogEntry.category entry)
                (or_null_string (NewLogEntry.notes entry))).

(** Lines 201-207. *)
Definition getAllLogs : App (list LogEntry.t) :=
  database <- getDatabase ;;
  getAllAsync select_all_logs.

(** Lines 209-216.  The default of 10 is what the one caller passes. *)
Definition getRecentLogs (limit : Z) : App (list LogEntry.t) :=
  database <- getDatabase ;;
  getAllAsync (select_recent_logs limit).

(** Lines 218-225. *)
Definition getLogsByProfileId (profileId : Z) : App (list LogEntry.t) :=
  database <- getDatabase ;;
  getAllAsync (select_logs_by_profile_id profileId).

(** Lines 227-230. *)
Definition deleteLog (id : Z) : App unit :=
  database <- getDatabase ;;
  runAsync (delete_log id).

(** Lines 232-238. *)
Definition getUniquePeople : App (list string) :=
  database <- getDatabase ;;
  results <- getAllAsync select_unique_people ;;
  ret (map (fun r => person r) results).

(** Lines 240-251.  The [default] case cannot be reached with a
    [LogType]. *)
Definition getScoreForType (type : LogType) : number :=
  match type with
  | GREEN => of_Z 5
  | YELLOW => of_Z 3
  | RED => of_Z 1
  end.

(** Lines 253-276. *)
Definition calculateVibeScore (logs : list LogEntry.t) : number :=
  if (List.length logs =? 0)%nat then of_Z 0
  else
    let toxicitySum :=
      fold_left
        (fun toxicitySum log =>
           match LogEntry.type log with
           | RED => add toxicitySum (of_Z (LogEntry.severity log))
           | YELLOW => add toxicitySum (div (of_Z (LogEntry.severity log)) (of_Z 2))
           | GREEN => sub toxicitySum (of_Z (LogEntry.severity log))
           end)
        logs (of_Z 0) in
    let maxPossibleToxicity := mul (of_Z (Z.of_nat (List.length logs))) (of_Z 10) in
    let toxicityPercentage := mul (div toxicitySum maxPossibleToxicity) (of_Z 100) in
    Math_max (of_Z 0) (Math_min (of_Z 100) (Math_round toxicityPercentage)).

(** Lines 278-284. *)
Definition getHealthStatus (score : number) : string :=
  if gt score (of_Z 75) then "Critical"
  else if ge score (of_Z 50) then "Toxic"
  else if ge score (of_Z 25) then "Concerning"
  else if gt score (of_Z 0) then "Stable"
  else "Thriving".

Definition is_type (type : LogType) (l : LogEntry.t) : bool :=
  match LogEntry.type l, type with
  | GREEN, GREEN | YELLOW, YELLOW | RED, RED => true
  | _, _ => false
  end.

(** Lines 297-321. *)
Definition getProfileStats (profileId : Z) : App (option ProfileStats.t) :=
  profile <- getProfileById profileId ;;
  match profile with
  | None => ret None
  | Some profile =>
      logs <- getLogsByProfileId profileId ;;
      let vibeScore := calculateVibeScore logs in
      let healthStatus := getHealthStatus vibeScore in
      let redCount := List.length (filter (is_type RED) logs) in
      let yellowCount := List.length (filter (is_type YELLOW) logs) in
      let greenCount := List.length (filter (is_type GREEN) logs) in
      let lastFlagDate :=
        match logs with
        | l :: _ => Some (LogEntry.timestamp l)
        | [] => None
        end in
      ret (Some (ProfileStats.mk profile vibeScore healthStatus (List.length logs)
                                 redCount yellowCount greenCount lastFlagDate))
  end.

(** Lines 323-335.  The body of the [for] loop with the array
    [stats] it pushes to, then the function. *)
Fixpoint collect_stats (profiles : list Profile.t) (stats : list ProfileStats.t)
  : App (list ProfileStats.t) :=
  match profiles with
  | [] => ret stats
  | profile :: rest =>
      profileStats <- getProfileStats (Profile.id profile) ;;
      collect_stats rest
        (match profileStats with
         | Some profileStats => stats ++ [profileStats]
         | None => stats
         end)
  end.

Definition getAllProfilesWithStats : App (list ProfileStats.t) :=
  profiles <- getAllProfiles ;;
  collect_stats profiles [].

(** Lines 343-378.  Neither query can throw in the model, so the
    [try] block is the first query. *)
Definition getTopProfilesByLogCount (limit : nat) : App (list TopProfile.t) :=
  database <- getDatabase ;;
  results <- getAllAsync (select_top_profiles on_profile_id limit) ;;
  if (List.length results =? 0)%nat
  then getAllAsync (select_top_profiles on_person limit)
  else ret results.

End Db.

(** ** [src/services/RevenueCatService.ts] *)

Module RevenueCatService.

Import JS.

Inductive SubscriptionTier : Set := free | pro | premium.

Record SubscriptionLimits : Type := mkLimits
  { maxProfiles : number;
    maxLogs : number;
    canExportPDF : bool;
    hasAIFeatures : bool }.

Definition Infinity : number := S754_infinity false.

(** Lines 36-57. *)
Definition FREE_LIMITS : SubscriptionLimits := mkLimits (of_Z 2) (of_Z 25) false false.
Definition PRO_LIMITS : SubscriptionLimits := mkLimits Infinity Infinity true false.
Definition PREMIUM_LIMITS : SubscriptionLimits := mkLimits Infinity Infinity true true.

(** The answer of [Purchases.getCustomerInfo()]: the identifiers
    under [entitlements.active], or [None] when the promise is
    rejected. *)
Definition CustomerInfo : Set := list string.

(** Lines 102-124. *)
Definition getCurrentTier (customerInfo : option CustomerInfo) : SubscriptionTier :=
  match customerInfo with
  | Some active =>
      if existsb (String.eqb "premium") active then premium
      else if existsb (String.eqb "pro") active then pro
      else free
  | None => free
  end.

(** Lines 129-140. *)
Definition getLimits (customerInfo : option CustomerInfo) : SubscriptionLimits :=
  match getCurrentTier customerInfo with
  | premium => PREMIUM_LIMITS
  | pro => PRO_LIMITS
  | free => FREE_LIMITS
  end.

(** The [reason] of a refusal: a fixed text, or the template
    [Free tier limited to ${limit} ${rows}. Upgrade to Pro for unlimited.]
    with the number and the noun it is filled with. *)
Inductive Reason : Type :=
| Message (text : string)
| Limited (limit : number) (rows : string).

Record LimitCheck : Type := mkCheck
  { allowed : bool;
    reason : option Reason }.

(** Lines 197-249.  [currentCount] is [None] when the argument is
    left out. *)
Definition canPerformAction (customerInfo : option CustomerInfo) (action : string)
    (currentCount : option Z) : LimitCheck :=
  let limits := getLimits customerInfo in
  if (action =? "addProfile")%string then
    match currentCount with
    | None => mkCheck false (Some (Message "Current profile count required"))
    | Some currentCount =>
        if ge (of_Z currentCount) (maxProfiles limits)
        then mkCheck false (Some (Limited (maxProfiles limits) "profiles"))
        else mkCheck true None
    end
  else if (action =? "addLog")%string then
    match currentCount with
    | None => mkCheck false (Some (Message "Current log count required"))
    | Some currentCount =>
        if ge (of_Z currentCount) (maxLogs limits)
        then mkCheck false (Some (Limited (maxLogs limits) "logs"))
        else mkCheck true None
    end
  else if (action =? "exportPDF")%string then
    if negb (canExportPDF limits)
    then mkCheck false (Some (Message "PDF export requires Pro subscription"))
    else mkCheck true None
  else if (action =? "useAI")%string then
    if negb (hasAIFeatures limits)
    then mkCheck false (Some (Message "AI features require Premium subscription"))
    else mkCheck true None
  else mkCheck false (Some (Message "Unknown action")).

(** Lines 254-263. *)
Definition getTierName (tier : SubscriptionTier) : string :=
  match tier with
  | premium => "Premium"
  | pro => "Pro"
  | free => "Free"
  end.

End RevenueCatService.

(** ** [src/state/subscriptionStore.ts] *)

Module SubscriptionStore.

(** Lines 98-103: the store asks the service, not its cached tier. *)
Definition checkLimit := RevenueCatService.canPerformAction.

End SubscriptionStore.

(** ** [src/services/AIInsightsService.ts] *)

Module AIInsightsService.

Import JS.

Definition MIN_LOGS_FOR_AI : Z := 5.

(** Lines 292-294. *)
Definition canUseAIAnalysis (logCount : Z) : bool :=
  ge (of_Z logCount) (of_Z MIN_LOGS_FOR_AI).

End AIInsightsService.

(** ** [src/screens/ProfileDetailScreen.tsx] *)

Module ProfileDetailScreen.

Import JS.

(** Lines 190-238: the profile and the logs handed to [setProfile] and
    [setLogs]; [(None, [])] when the profile is not found. *)
Definition fetchProfileData (profileId : Z)
  : App (option Profile.t * list LogEntry.t) :=
  db <- Db.getDatabase ;;
  profileResults <- getAllAsync (select_profiles_by_id profileId) ;;
  match profileResults with
  | [] => ret (None, [])
  | loadedProfile :: _ =>
      logResults <- getAllAsync (select_logs_by_profile_id profileId) ;;
      logResults <-
        (if (List.length logResults =? 0)%nat
         then getAllAsync (select_logs_by_person (Profile.name loadedProfile))
         else ret logResults) ;;
      ret (Some loadedProfile, logResults)
  end.

(** Lines 433-454. *)
Definition calculateVibeScore (logsList : list LogEntry.t) : number :=
  if (List.length logsList =? 0)%nat then of_Z 0
  else
    let toxicitySum :=
      fold_left
        (fun toxicitySum log =>
           match LogEntry.type log with
           | RED => add toxicitySum (of_Z (LogEntry.severity log))
           | YELLOW => add toxicitySum (div (of_Z (LogEntry.severity log)) (of_Z 2))
           | GREEN => sub toxicitySum (of_Z (LogEntry.severity log))
           end)
        logsList (of_Z 0) in
    let maxPossibleToxicity := mul (of_Z (Z.of_nat (List.length logsList))) (of_Z 10) in
    let toxicityPercentage := mul (div toxicitySum maxPossibleToxicity) (of_Z 100) in
    Math_max (of_Z 0) (Math_min (of_Z 100) (Math_round toxicityPercentage)).

(** Lines 456-462. *)
Definition getHealthStatus (score : number) : string :=
  if gt score (of_Z 75) then "Critical"
  else if ge score (of_Z 50) then "Toxic"
  else if ge score (of_Z 25) then "Concerning"
  else if gt score (of_Z 0) then "Stable"
  else "Thriving".

(** Lines 248-257: the new value of the [logs] state. *)
Definition handleDelete (id : Z) (logs : list LogEntry.t) : App (list LogEntry.t) :=
  try_catch
    (db <- Db.getDatabase ;;
     runAsync (delete_log id) ;;;
     ret (filter (fun log => negb (LogEntry.id log =? id)) logs))
    (fun error => ret logs).

(** Lines 330-354: the new value of the [logs] state. *)
Definition handleSaveLogEdit (editingLog : option LogEntry.t) (editLogNotes : string)
    (logs : list LogEntry.t) : App (list LogEntry.t) :=
  match editingLog with
  | None => ret logs
  | Some editingLog =>
      try_catch
        (db <- Db.getDatabase ;;
         runAsync (update_log_notes (or_null_string (Some editLogNotes))
                                    (LogEntry.id editingLog)) ;;;
         ret (map (fun log =>
                     if LogEntry.id log =? LogEntry.id editingLog
                     then set_notes (or_null_string (Some editLogNotes)) log
                     else log)
                  logs))
        (fun error => ret logs)
  end.

(** Lines 411-420: the [stats] object handed to the PDF generator. *)
Definition reportStats (profile : Profile.t) (logs : list LogEntry.t) : ProfileStats.t :=
  ProfileStats.mk profile (calculateVibeScore logs)
                  (getHealthStatus (calculateVibeScore logs))
                  (List.length logs)
                  (List.length (filter (Db.is_type RED) logs))
                  (List.length (filter (Db.is_type YELLOW) logs))
                  (List.length (filter (Db.is_type GREEN) logs))
                  (match logs with
                   | l :: _ => Some (LogEntry.timestamp l)
                   | [] => None
                   end).

(** Line 466. *)
Definition trustScore (logs : list LogEntry.t) : number :=
  sub (of_Z 100) (calculateVibeScore logs).

(** Lines 468-481. *)
Definition getHealthColor (healthStatus : string) : string :=
  if (healthStatus =? "Thriving")%string || (healthStatus =? "Stable")%string
  then "#00FF9C"
  else if (healthStatus =? "Concerning")%string then "#FFD600"
  else if (healthStatus =? "Toxic")%string || (healthStatus =? "Critical")%string
  then "#FF0055"
  else "#888".

(** Lines 483-487. *)
Definition getTrustScoreColor (trustScore : number) : string :=
  if ge trustScore (of_Z 75) then "#00FF9C"
  else if ge trustScore (of_Z 50) then "#FFD600"
  else "#FF0055".

(** Lines 666-690: what pressing "Insights" leads to, the two alerts
    being named by their titles. *)
Inductive InsightsOutcome : Set :=
| Upgrade_to_Premium
| Need_More_Data
| navigate_AIInsights.

Definition onPressInsights (customerInfo : option RevenueCatService.CustomerInfo)
    (logs : list LogEntry.t) : InsightsOutcome :=
  let limitCheck := SubscriptionStore.checkLimit customerInfo "useAI" None in
  if negb (RevenueCatService.allowed limitCheck) then Upgrade_to_Premium
  else if negb (AIInsightsService.canUseAIAnalysis (Z.of_nat (List.length logs)))
  then Need_More_Data
  else navigate_AIInsights.

End ProfileDetailScreen.

(** ** [src/screens/VaultScreen.tsx] *)

Module VaultScreen.

(** Lines 139-142: the value given to the [logs] state. *)
Definition loadLogs : App (list LogEntry.t) := Db.getAllLogs.

(** Lines 150-153: the new value of the [logs] state. *)
Definition handleDelete (id : Z) (logs : list LogEntry.t) : App (list LogEntry.t) :=
  Db.deleteLog id ;;;
  ret (filter (fun log => negb (LogEntry.id log =? id)) logs).

End VaultScreen.

(** ** [src/screens/DashboardScreen.tsx] *)

Module DashboardScreen.

Import JS.

Record State : Type := mkState
  { recentLogs : list LogEntry.t;
    vibeScore : number;
    topProfiles : list TopProfile.t;
    climate : string }.

(** Lines 143-166. *)
Definition loadData : App State :=
  logs <- Db.getRecentLogs 10 ;;
  let score := Db.calculateVibeScore logs in
  top <- Db.getTopProfilesByLogCount 3 ;;
  ret (mkState logs score top
         (if (List.length logs =? 0)%nat then "Angelic"
          else if gt score (of_Z 75) then "CRITICAL: TOXIC"
          else if ge score (of_Z 50) then "Toxic"
          else if ge score (of_Z 25) then "Concerning"
          else if gt score (of_Z 0) then "Healthy"
          else "Angelic")).

(** Lines 174-197: [true] when the press opens the logger, [false]
    when it shows the upgrade alert. *)
Definition handleFlagPress (customerInfo : option RevenueCatService.CustomerInfo)
    (type : LogType) : App bool :=
  allLogs <- Db.getAllLogs ;;
  let limitCheck :=
    SubscriptionStore.checkLimit customerInfo "addLog"
                                 (Some (Z.of_nat (List.length allLogs))) in
  if negb (RevenueCatService.allowed limitCheck) then ret false
  else ret true.

End DashboardScreen.

(** ** [src/screens/ProfilesScreen.tsx] *)

Module ProfilesScreen.

(** Lines 74-90: the value given to the [profiles] state; on an error
    the state keeps its value. *)
Definition fetchProfiles (profiles : list Profile.t) : App (list Profile.t) :=
  try_catch
    (db <- Db.getDatabase ;;
     getAllAsync select_all_profiles)
    (fun error => ret profiles).

(** Lines 136-156: [true] when the press opens the modal, [false]
    when it shows the upgrade alert. *)
Definition handleAddProfilePress (customerInfo : option RevenueCatService.CustomerInfo)
    (profiles : list Profile.t) : bool :=
  let limitCheck :=
    SubscriptionStore.checkLimit customerInfo "addProfile"
                                 (Some (Z.of_nat (List.length profiles))) in
  if negb (RevenueCatService.allowed limitCheck) then false else true.

End ProfilesScreen.

(** ** The scoring engine as the specification words it *)

Module Spec.

Import JS.

(** The contribution of one entry to the running signed sum. *)
Definition contribution (log : LogEntry.t) : Q :=
  match LogEntry.type log with
  | RED => inject_Z (LogEntry.severity log)
  | YELLOW => (inject_Z (LogEntry.severity log) / 2)%Q
  | GREEN => (- inject_Z (LogEntry.severity log))%Q
  end.

Definition signed_sum (logs : list LogEntry.t) : Q :=
  fold_right (fun log acc => (contribution log + acc)%Q) 0%Q logs.

(** Twice the signed sum, an integer. *)
Definition twice_contribution (log : LogEntry.t) : Z :=
  match LogEntry.type log with
  | RED => 2 * LogEntry.severity log
  | YELLOW => LogEntry.severity log
  | GREEN => - (2 * LogEntry.severity log)
  end.

Definition twice_sum (logs : list LogEntry.t) : Z :=
  fold_right (fun log acc => twice_contribution log + acc) 0 logs.

(** The percentage clamped into [0, 100]; an infinite percentage
    clamps to the bound on its side. *)
Definition clamp_0_100 (x : number) : Q :=
  match x with
  | S754_finite s m e => Qmax 0 (Qmin 100 (value s m e))
  | S754_infinity false => 100%Q
  | _ => 0%Q
  end.

(** The nearest integer, ties upwards. *)
Definition round_half_up (q : Q) : Z := Qfloor (q + (1 # 2))%Q.

(** The percentage of a nonempty sequence: the signed sum over
    [count * 10], times 100, the quotient and the product being
    binary64 operations. *)
Definition percentage (logs : list LogEntry.t) : number :=
  mul (div (dyadic (twice_sum logs) (-1))
           (of_Z (Z.of_nat (List.length logs) * 10)))
      (of_Z 100).

Definition computeToxicityScore (logs : list LogEntry.t) : Z :=
  match logs with
  | [] => 0
  | _ => round_half_up (clamp_0_100 (percentage logs))
  end.

(** The same score with the quotient and the product taken in the
    rationals. *)
Definition exact_percentage (logs : list LogEntry.t) : Q :=
  (signed_sum logs / inject_Z (Z.of_nat (List.length logs) * 10) * 100)%Q.

Definition exactToxicityScore (logs : list LogEntry.t) : Z :=
  match logs with
  | [] => 0
  | _ => round_half_up (Qmax 0 (Qmin 100 (exact_percentage logs)))
  end.

(** A rational exactly halfway between two integers. *)
Definition halfway (q : Q) : Prop :=
  (inject_Z (Qfloor (q + (1 # 2))) == q + (1 # 2))%Q.

(** A severity as the CHECK constraint of the [logs] table admits it. *)
Definition stored_severity (log : LogEntry.t) : Prop :=
  1 <= LogEntry.severity log <= 10.

(** Entries as the application stores them: an integer severity of
    moderate size, in an array of fewer than [2^32] elements. *)
Definition bounded_severity (log : LogEntry.t) : Prop :=
  Z.abs (LogEntry.severity log) <= 2 ^ 20.

Definition array (logs : list LogEntry.t) : Prop :=
  Z.of_nat (List.length logs) < 2 ^ 32.

(** A percentage is a zero, a normal number or an infinity. *)
Definition percentage_like (p : number) : Prop :=
  match p with
  | S754_nan => False
  | S754_finite _ _ _ => normal p
  | _ => True
  end.

(** Health labels by the threshold table of the specification. *)
Definition classifyHealth (score : Z) : string :=
  if 75 <? score then "Critical"
  else if 50 <=? score then "Toxic"
  else if 25 <=? score then "Concerning"
  else if 0 <? score then "Stable"
  else "Thriving".

End Spec.

(** ** Derived notions used to state the persistence results *)

Module Model.

(** The world after one iteration of the migration loop for [person]. *)
Definition link_person (person : string) (w : World) : World :=
  match select_profile_ids_by_name person (file w) with
  | profileId :: _ => set_file (link_logs profileId person (file w)) w
  | [] =>
      let rowid := next_rowid (profiles_seq (file w))
                              (map Profile.id (profiles (file w))) in
      {| db := db w;
         file :=
           link_logs rowid person
             {| profiles := profiles (file w)
                            ++ [Profile.mk rowid person "Unknown" (clock w (reads w))];
                logs := logs (file w);
                profiles_seq := rowid;
                logs_seq := logs_seq (file w) |};
         clock := clock w;
         reads := S (reads w) |}
  end.

Definition unlinked (l : LogEntry.t) : bool := is_null (LogEntry.profile_id l).

(** A row after migration: untouched if it was linked, and otherwise
    equal to the old row in every column but [profile_id]. *)
Definition keeps_linked (l l' : LogEntry.t) : Prop :=
  (LogEntry.profile_id l <> None -> l' = l)
  /\ set_profile_id None l' = set_profile_id None l.

(** The dual-path lookup of the specification: by reference, and by
    the profile's current name if and only if that finds nothing. *)
Definition listLogsForProfile (p : Profile.t) (t : Tables) : list LogEntry.t :=
  match select_logs_by_profile_id (Profile.id p) t with
  | [] => select_logs_by_person (Profile.name p) t
  | rows => rows
  end.

Definition newest_first (rows : list LogEntry.t) : Prop :=
  Sorted (fun a b => String.leb (LogEntry.timestamp b) (LogEntry.timestamp a) = true) rows.

Definition descending_by_count (rows : list TopProfile.t) : Prop :=
  Sorted (fun a b => TopProfile.flagCount b <= TopProfile.flagCount a) rows.

(** The world once the connection is open: as it is if the handle is
    already cached, and after [initializeDatabase] otherwise. *)
Definition opened (w : World) : World := snd (Db.getDatabase w).

(** The world after one reading of the clock. *)
Definition tick (w : World) : World := snd (Date_toISOString w).

(** The assignments [updateProfile] builds from its argument. *)
Definition fields_of (updates : PartialNewProfile.t) : list (ProfileColumn * string) :=
  match PartialNewProfile.name updates with
  | Some name => [(name_column, name)]
  | None => []
  end
  ++ match PartialNewProfile.relationship updates with
     | Some relationship => [(relationship_column, relationship)]
     | None => []
     end.

(** A profile with the given fields replaced. *)
Definition updated (updates : PartialNewProfile.t) (p : Profile.t) : Profile.t :=
  Profile.mk (Profile.id p)
             (match PartialNewProfile.name updates with
              | Some name => name
              | None => Profile.name p
              end)
             (match PartialNewProfile.relationship updates with
              | Some relationship => relationship
              | None => Profile.relationship p
              end)
             (Profile.created_at p).

(** The rows a DELETE by id keeps, and the row an UPDATE of the notes
    by id writes. *)
Definition other_than (id : Z) (l : LogEntry.t) : bool :=
  negb (LogEntry.id l =? id).

Definition with_notes (notes : option string) (id : Z) (l : LogEntry.t) : LogEntry.t :=
  if LogEntry.id l =? id then set_notes notes l else l.

(** A row during the migration, [people] being the names handled so
    far: nothing but its reference differs from the old row [l]; a
    row that had a reference is untouched; a row that had none refers
    to a profile carrying its person's name once that name has been
    handled, and to nothing before. *)
Definition migrated (people : list string) (t : Tables) (l l' : LogEntry.t) : Prop :=
  set_profile_id None l' = set_profile_id None l
  /\ (LogEntry.profile_id l <> None -> l' = l)
  /\ (LogEntry.profile_id l = None -> In (LogEntry.person l) people ->
      exists p, In p (profiles t) /\ Profile.name p = LogEntry.person l
                /\ LogEntry.profile_id l' = Some (Profile.id p))
  /\ (LogEntry.profile_id l = None -> ~ In (LogEntry.person l) people ->
      LogEntry.profile_id l' = None).

(** A profile during the migration: one that was stored before, or
    one created with relationship "Unknown" for a handled name. *)
Definition kept_or_created (people : list string) (t : Tables) (p : Profile.t) : Prop :=
  In p (profiles t)
  \/ (Profile.relationship p = "Unknown"%string /\ In (Profile.name p) people).

(** The state the schema maintains: primary keys and profile names
    are unique, every key is positive and at most its table's
    AUTOINCREMENT counter, and every severity passed the CHECK. *)
Record well_formed (t : Tables) : Prop := mk_well_formed
  { profile_ids_unique : NoDup (map Profile.id (profiles t));
    profile_names_unique : NoDup (map Profile.name (profiles t));
    log_ids_unique : NoDup (map LogEntry.id (logs t));
    profile_ids_counted :
      Forall (fun p => 0 < Profile.id p <= profiles_seq t) (profiles t);
    log_ids_counted :
      Forall (fun l => 0 < LogEntry.id l <= logs_seq t) (logs t);
    severities_checked : Forall Spec.stored_severity (logs t) }.

(** The AUTOINCREMENT counters of [t'] are not below those of [t]. *)
Definition counters_le (t t' : Tables) : Prop :=
  profiles_seq t <= profiles_seq t' /\ logs_seq t <= logs_seq t'.

(** The write operations the application performs on the database. *)
Inductive Operation : Set :=
| CreateProfile (profile : NewProfile.t)
| UpdateProfile (id : Z) (updates : PartialNewProfile.t)
| DeleteProfile (id : Z)
| InsertLog (entry : NewLogEntry.t)
| DeleteLog (id : Z)
| SaveLogEdit (editingLog : LogEntry.t) (editLogNotes : string).

(** The world an operation leaves, whether it succeeds or throws. *)
Definition perform (w : World) (op : Operation) : World :=
  match op with
  | CreateProfile profile => snd (Db.createProfile profile w)
  | UpdateProfile id updates => snd (Db.updateProfile id updates w)
  | DeleteProfile id => snd (Db.deleteProfile id w)
  | InsertLog entry => snd (Db.insertLog entry w)
  | DeleteLog id => snd (Db.deleteLog id w)
  | SaveLogEdit editingLog editLogNotes =>
      snd (ProfileDetailScreen.handleSaveLogEdit (Some editingLog) editLogNotes [] w)
  end.

Definition perform_all (ops : list Operation) (w : World) : World :=
  fold_left perform ops w.

(** Oldest-to-newest and alphabetical orders of result rows. *)
Definition ascending_by_name (rows : list Profile.t) : Prop :=
  Sorted (fun a b => String.leb (Profile.name a) (Profile.name b) = true) rows.

Definition ascending (rows : list string) : Prop :=
  Sorted (fun a b => String.leb a b = true) rows.

(** The logs of a profile, read three ways: the rows that reference
    it, the rows filed under its name, and the dual-path lookup of
    the specification (by reference, and by name when that finds
    nothing). *)
Definition referencing (t : Tables) (p : Profile.t) : list LogEntry.t :=
  filter (fun l => match LogEntry.profile_id l with
                   | Some k => k =? Profile.id p
                   | None => false
                   end)
         (logs t).

Definition filed_under (t : Tables) (p : Profile.t) : list LogEntry.t :=
  filter (fun l => (Profile.name p =? LogEntry.person l)%string) (logs t).

Definition either_way (t : Tables) (p : Profile.t) : list LogEntry.t :=
  match referencing t p with
  | [] => filed_under t p
  | rows => rows
  end.

(** [rows] lists the profiles of [t] by the number of their logs,
    [logs_of] saying which logs are a profile's: highest count
    first, at most [limit] rows, each row a stored profile with its
    count, no profile without logs, and a profile with logs left out
    only when [limit] rows with counts at least as large are there. *)
Definition top_rows (limit : nat) (t : Tables)
    (logs_of : Profile.t -> list LogEntry.t) (rows : list TopProfile.t) : Prop :=
  descending_by_count rows
  /\ (List.length rows <= limit)%nat
  /\ List.length rows
     = Nat.min limit
         (List.length (filter (fun p => 0 <? Z.of_nat (List.length (logs_of p)))
                              (profiles t)))
  /\ Forall (fun r =>
               exists p,
                 In p (profiles t) /\ logs_of p <> []
                 /\ r = TopProfile.mk (Profile.id p) (Profile.name p)
                                      (Z.of_nat (List.length (logs_of p))))
            rows
  /\ (forall p,
         In p (profiles t) -> logs_of p <> [] ->
         In (TopProfile.mk (Profile.id p) (Profile.name p)
                           (Z.of_nat (List.length (logs_of p))))
            rows
         \/ (List.length rows = limit
             /\ Forall (fun r => Z.of_nat (List.length (logs_of p))
                                 <= TopProfile.flagCount r)
                       rows)).

(** The claim about [topProfilesByLogCount] as the specification
    words it, for one reading of "the logs of a profile". *)
Definition lists_profiles_by_log_count
    (logs_of : Tables -> Profile.t -> list LogEntry.t) : Prop :=
  forall (w : World) (database : SQLiteDatabase) (limit : nat),
    db w = Some database ->
    exists rows,
      Db.getTopProfilesByLogCount limit w = (Ok rows, w)
      /\ top_rows limit (file w) (logs_of (file w)) rows.

End Model.

(** ** Sample data *)

Module Example.

Definition calendar (n : nat) : string :=
  match n with
  | 0%nat => "2025-03-01T09:00:00.000Z"
  | 1%nat => "2025-03-02T09:00:00.000Z"
  | 2%nat => "2025-03-03T09:00:00.000Z"
  | 3%nat => "2025-03-04T09:00:00.000Z"
  | _ => "2025-03-05T09:00:00.000Z"
  end.

(** A fresh install: no connection yet, empty tables. *)
Definition fresh : World :=
  {| db := None; file := mkTables [] [] 0 0; clock := calendar; reads := 0 |}.

Definition run {A : Type} (m : App A) (w : World) : World := snd (m w).

Definition alex : NewProfile.t := NewProfile.mk "Alex" "Friend".

Definition flag (profile_id : option Z) (type : string) (severity : Z)
  : NewLogEntry.t :=
  NewLogEntry.mk "Alex" profile_id type severity Trust None.

(** After [createProfile] for Alex. *)
Definition with_alex : World := run (Db.createProfile alex) fresh.

(** Then three flags filed against Alex's profile. *)
Definition with_three_logs : World :=
  run (Db.insertLog (flag (Some 1) "RED" 7) ;;;
       Db.insertLog (flag (Some 1) "YELLOW" 4) ;;;
       Db.insertLog (flag (Some 1) "GREEN" 2))
      with_alex.

(** Or a flag filed under Alex's name without a profile reference. *)
Definition with_unlinked_log : World :=
  run (Db.insertLog (flag None "RED" 5)) with_alex.

(** A database written before profiles existed: three unlinked rows
    for two people, one of whom already has a profile. *)
Definition legacy_row (id : Z) (person : string) : LogEntry.t :=
  LogEntry.mk id "2024-12-24T18:00:00.000Z" person None RED 6 Trust None.

Definition legacy : World :=
  {| db := None;
     file := mkTables [Profile.mk 1 "Alex" "Friend" "2025-01-01T00:00:00.000Z"]
                      [legacy_row 1 "Sam"; legacy_row 2 "Alex"; legacy_row 3 "Sam"]
                      1 3;
     clock := calendar; reads := 0 |}.

(** Five profiles with 0, 2, 5, 1 and 3 logs. *)
Definition person_row (id : Z) (name : string) : Profile.t :=
  Profile.mk id name "Friend" "2025-01-01T00:00:00.000Z".

Definition rows_for (profile_id : Z) (name : string) (n : nat) : list LogEntry.t :=
  repeat (LogEntry.mk 0 "2025-02-01T00:00:00.000Z" name (Some profile_id)
                      YELLOW 3 Other None) n.

Definition five_profiles : World :=
  {| db := Some openDatabase;
     file := mkTables
               [person_row 1 "Ann"; person_row 2 "Bob"; person_row 3 "Cy";
                person_row 4 "Di"; person_row 5 "Ed"]
               (rows_for 2 "Bob" 2 ++ rows_for 3 "Cy" 5
                ++ rows_for 4 "Di" 1 ++ rows_for 5 "Ed" 3)
               5 11;
     clock := calendar; reads := 0 |}.

Definition log (type : LogType) (severity : Z) : LogEntry.t :=
  LogEntry.mk 0 "2025-02-01T00:00:00.000Z" "Alex" (Some 1) type severity Trust None.

(** Alex's profile deleted and created again after the three flags:
    the flags keep the old reference and the name. *)
Definition recreated : World :=
  run (Db.deleteProfile 1 ;;; Db.createProfile alex) with_three_logs.

(** Then a profile for Sam with one flag. *)
Definition sam : NewProfile.t := NewProfile.mk "Sam" "Coworker".

Definition with_sam : World :=
  run (Db.createProfile sam ;;;
       Db.insertLog (NewLogEntry.mk "Sam" (Some 3) "RED" 4 Money None))
      recreated.

End Example.

(** ** Facts about binary64 arithmetic *)

Section Digits.

Lemma digits2_pos_bounds (p : positive) :
  2 ^ (Zpos (digits2_pos p) - 1) <= Zpos p < 2 ^ Zpos (digits2_pos p).
Proof.
  induction p as [p IH | p IH |]; cbn [digits2_pos].
  - rewrite Pos2Z.inj_succ.
    replace (Z.succ (Zpos (digits2_pos p)) - 1) with (Zpos (digits2_pos p) - 1 + 1) by lia.
    rewrite Z.pow_succ_r, Z.pow_add_r by lia. lia.
  - rewrite Pos2Z.inj_succ.
    replace (Z.succ (Zpos (digits2_pos p)) - 1) with (Zpos (digits2_pos p) - 1 + 1) by lia.
    rewrite Z.pow_succ_r, Z.pow_add_r by lia. lia.
  - cbn. lia.
Qed.

Lemma digits2_pos_unique (p : positive) (d : Z) :
  2 ^ (d - 1) <= Zpos p < 2 ^ d -> Zpos (digits2_pos p) = d.
Proof.
  intros [Hlo Hhi].
  destruct (digits2_pos_bounds p) as [Glo Ghi].
  assert (Hd : 0 < d).
  { destruct (Z.ltb_spec 0 d) as [|Hle]; [assumption|].
    destruct (Z.eq_dec d 0) as [-> | Hne]; [cbn in Hhi; lia|].
    rewrite (Z.pow_neg_r 2 d) in Hhi by lia. lia. }
  destruct (Z.lt_trichotomy (Zpos (digits2_pos p)) d) as [L | [E | G]]; [|assumption|].
  - assert (2 ^ Zpos (digits2_pos p) <= 2 ^ (d - 1)) by (apply Z.pow_le_mono_r; lia). lia.
  - assert (2 ^ d <= 2 ^ (Zpos (digits2_pos p) - 1)) by (apply Z.pow_le_mono_r; lia). lia.
Qed.

End Digits.

Section ShiftRight.

Lemma iter_pos_nat {A : Type} (f : A -> A) (p : positive) (x : A) :
  iter_pos f p x = Nat.iter (Pos.to_nat p) f x.
Proof.
  revert x; induction p as [p IH | p IH |]; intro x; cbn [iter_pos].
  - rewrite !IH, Pos2Nat.inj_xI.
    replace (S (2 * Pos.to_nat p))%nat with (Pos.to_nat p + (Pos.to_nat p + 1))%nat by lia.
    rewrite !Nat.iter_add. reflexivity.
  - rewrite !IH, Pos2Nat.inj_xO.
    replace (2 * Pos.to_nat p)%nat with (Pos.to_nat p + Pos.to_nat p)%nat by lia.
    rewrite Nat.iter_add. reflexivity.
  - reflexivity.
Qed.

Lemma shr_1_m (r : shr_record) :
  0 <= shr_m r -> shr_m (shr_1 r) = shr_m r / 2.
Proof.
  destruct r as [m r s]; cbn [shr_m]; intros Hm.
  destruct m as [|[p|p|]|p]; cbn [shr_1 shr_m]; try lia; try reflexivity.
  - rewrite Pos2Z.inj_xI. apply Z.div_unique with (r := 1); lia.
  - rewrite Pos2Z.inj_xO. apply Z.div_unique with (r := 0); lia.
Qed.

Lemma shr_1_m_nonneg (r : shr_record) : 0 <= shr_m r -> 0 <= shr_m (shr_1 r).
Proof. intros H. rewrite shr_1_m by assumption. apply Z.div_pos; lia. Qed.

Lemma iter_shr_1_m (n : nat) (r : shr_record) :
  0 <= shr_m r ->
  shr_m (Nat.iter n shr_1 r) = shr_m r / 2 ^ Z.of_nat n.
Proof.
  intros Hm. induction n as [|n IH].
  - cbn. now rewrite Z.div_1_r.
  - rewrite Nat.iter_succ, shr_1_m, IH.
    + rewrite Nat2Z.inj_succ, Z.pow_succ_r by lia.
      rewrite Z.div_div by lia. f_equal. lia.
    + rewrite IH. apply Z.div_pos; lia.
Qed.

Lemma shr_1_exact (y : Z) :
  0 <= y ->
  shr_1 (Build_shr_record (2 * y) false false) = Build_shr_record y false false.
Proof.
  intros Hy. destruct y as [|p|p]; try lia; reflexivity.
Qed.

Lemma iter_shr_1_exact (n : nat) (z : Z) :
  0 <= z ->
  Nat.iter n shr_1 (Build_shr_record (z * 2 ^ Z.of_nat n) false false)
  = Build_shr_record z false false.
Proof.
  intros Hz. induction n as [|n IH].
  - cbn. f_equal. lia.
  - rewrite Nat.iter_succ_r.
    rewrite Nat2Z.inj_succ, Z.pow_succ_r by lia.
    replace (z * (2 * 2 ^ Z.of_nat n)) with (2 * (z * 2 ^ Z.of_nat n)) by lia.
    rewrite shr_1_exact by lia. exact IH.
Qed.

(** Shifting an exact multiple of [2^n] right by [n]. *)
Lemma shr_exact (z e n : Z) :
  0 <= z -> 0 <= n ->
  shr (Build_shr_record (z * 2 ^ n) false false) e n
  = (Build_shr_record z false false, e + n).
Proof.
  intros Hz Hn. destruct n as [|p|p]; try lia.
  - cbn [shr]. rewrite Z.mul_1_r, Z.add_0_r. reflexivity.
  - cbn [shr]. rewrite iter_pos_nat.
    rewrite <- (positive_nat_Z p) at 1.
    now rewrite iter_shr_1_exact.
Qed.

End ShiftRight.

Section ExactRounding.

Import JS.

Lemma Zdigits2_mul_pow2 (p : positive) (n : Z) :
  0 <= n ->
  Zdigits2 (Zpos p * 2 ^ n) = Zpos (digits2_pos p) + n.
Proof.
  intros Hn.
  destruct (digits2_pos_bounds p) as [Hlo Hhi].
  assert (Hpow : 0 < 2 ^ n) by (apply Z.pow_pos_nonneg; lia).
  destruct (Zpos p * 2 ^ n) as [|q|q] eqn:Eq; try lia.
  cbn [Zdigits2]. apply digits2_pos_unique. rewrite <- Eq.
  replace (Zpos (digits2_pos p) + n - 1) with (Zpos (digits2_pos p) - 1 + n) by lia.
  rewrite !Z.pow_add_r by lia. nia.
Qed.

Lemma fexp_normal (x : Z) :
  emin prec emax <= x - prec -> fexp prec emax x = x - prec.
Proof. unfold fexp. lia. Qed.

(** Rounding a value that already fits in 53 bits returns it. *)
Lemma binary_round_aux_exact (s : bool) (m0 : positive) (n e : Z) :
  Zpos (digits2_pos m0) = prec ->
  0 <= n ->
  emin prec emax <= e + n <= emax - prec ->
  binary_round_aux prec emax s (Zpos m0 * 2 ^ n) e loc_Exact
  = S754_finite s m0 (e + n).
Proof.
  intros Hd Hn [Hlo Hhi].
  unfold binary_round_aux, shr_fexp.
  rewrite Zdigits2_mul_pow2, Hd by assumption.
  rewrite fexp_normal by lia.
  replace (prec + n + e - prec - e) with n by lia.
  cbn [shr_record_of_loc].
  rewrite shr_exact by lia.
  cbn [shr_m loc_of_shr_record round_nearest_even Zdigits2].
  rewrite Hd, fexp_normal by lia.
  replace (prec + (e + n) - prec - (e + n)) with 0 by lia.
  cbn [shr shr_m].
  destruct (Z.leb_spec (e + n) (emax - prec)); [reflexivity | lia].
Qed.

End ExactRounding.

Section Canonical.

Import JS.

Lemma Pos_iter_xO (m d : positive) :
  Zpos (Pos.iter xO m d) = Zpos m * 2 ^ Zpos d.
Proof.
  induction d as [|d IH] using Pos.peano_ind.
  - cbn [Pos.iter]. lia.
  - rewrite Pos.iter_succ, Pos2Z.inj_xO, IH, Pos2Z.inj_succ, Z.pow_succ_r by lia. lia.
Qed.

Lemma mant_spec (z : positive) :
  Zpos (digits2_pos z) <= prec ->
  Zpos (mant z) = Zpos z * 2 ^ (prec - Zpos (digits2_pos z)).
Proof.
  intros Hd. unfold mant. rewrite Z2Pos.id; [reflexivity|].
  apply Z.mul_pos_pos; [lia | apply Z.pow_pos_nonneg; lia].
Qed.

Lemma mant_digits (z : positive) :
  Zpos (digits2_pos z) <= prec -> Zpos (digits2_pos (mant z)) = prec.
Proof.
  intros Hd.
  change (Zpos (digits2_pos (mant z))) with (Zdigits2 (Zpos (mant z))).
  rewrite mant_spec, Zdigits2_mul_pow2 by lia. lia.
Qed.

Lemma binary_round_value (s : bool) (M : positive) (e : Z) (z : positive) (k : Z) :
  Zpos M = Zpos z * 2 ^ k ->
  0 <= k ->
  Zpos (digits2_pos z) <= prec ->
  emin prec emax <= e + k + Zpos (digits2_pos z) - prec <= emax - prec ->
  binary_round prec emax s M e
  = S754_finite s (mant z) (e + k + Zpos (digits2_pos z) - prec).
Proof.
  intros HM Hk Hd Hrange.
  pose proof (mant_spec z Hd) as Hm0.
  pose proof (mant_digits z Hd) as Hd0.
  set (d := Zpos (digits2_pos z)) in *.
  assert (HdM : Zpos (digits2_pos M) = d + k).
  { change (Zpos (digits2_pos M)) with (Zdigits2 (Zpos M)).
    rewrite HM. now apply Zdigits2_mul_pow2. }
  unfold binary_round. rewrite HdM, fexp_normal by lia.
  unfold shl_align.
  destruct (d + k + e - prec - e) as [|q|q] eqn:Eq.
  - replace (Zpos M) with (Zpos (mant z) * 2 ^ 0).
    + rewrite binary_round_aux_exact by lia. f_equal. lia.
    + rewrite Hm0, HM. replace (prec - d) with k by lia. lia.
  - replace (Zpos M) with (Zpos (mant z) * 2 ^ Zpos q).
    + rewrite binary_round_aux_exact by lia. f_equal. lia.
    + rewrite Hm0, HM, <- Z.mul_assoc, <- Z.pow_add_r by lia.
      f_equal. f_equal. lia.
  - assert (Hit : Pos.iter xO M q = mant z).
    { apply Pos2Z.inj. rewrite Pos_iter_xO, Hm0, HM.
      rewrite <- Z.mul_assoc, <- Z.pow_add_r by lia.
      f_equal. f_equal. lia. }
    rewrite Hit.
    replace (Zpos (mant z)) with (Zpos (mant z) * 2 ^ 0) by lia.
    rewrite binary_round_aux_exact by lia. f_equal. lia.
Qed.

Lemma digits_le_prec (p : positive) :
  Zpos p < 2 ^ prec -> Zpos (digits2_pos p) <= prec.
Proof.
  intros Hp. destruct (digits2_pos_bounds p) as [Hlo _].
  destruct (Z.leb_spec (Zpos (digits2_pos p)) prec) as [|Hgt]; [assumption|].
  assert (2 ^ prec <= 2 ^ (Zpos (digits2_pos p) - 1)) by (apply Z.pow_le_mono_r; lia).
  lia.
Qed.

Lemma dyadic_shift (z k e : Z) :
  Z.abs z < 2 ^ prec -> 0 <= k -> exp_ok (e + k) ->
  dyadic (z * 2 ^ k) e = canon z (e + k).
Proof.
  intros Hz Hk [Hlo Hhi].
  assert (Hpow : 0 < 2 ^ k) by (apply Z.pow_pos_nonneg; lia).
  unfold dyadic, binary_normalize.
  destruct z as [|p|p].
  - reflexivity.
  - pose proof (digits_le_prec p ltac:(lia)) as Hd.
    pose proof (Pos2Z.is_pos (digits2_pos p)).
    destruct (Zpos p * 2 ^ k) as [|M|M] eqn:EM; try lia.
    rewrite (binary_round_value false M e p k) by
      (unfold emin, prec, emax in *; try lia; auto).
    cbn [canon]. f_equal; lia.
  - pose proof (digits_le_prec p ltac:(lia)) as Hd.
    pose proof (Pos2Z.is_pos (digits2_pos p)).
    destruct (Zneg p * 2 ^ k) as [|M|M] eqn:EM; try lia.
    rewrite (binary_round_value true M e p k) by
      (unfold emin, prec, emax in *; try lia; auto).
    cbn [canon]. f_equal; lia.
Qed.

Lemma dyadic_canon (z e : Z) :
  Z.abs z < 2 ^ prec -> exp_ok e -> dyadic z e = canon z e.
Proof.
  intros Hz He.
  rewrite <- (Z.mul_1_r z) at 1. change 1 with (2 ^ 0).
  rewrite dyadic_shift; rewrite ?Z.add_0_r; try assumption; try lia.
  reflexivity.
Qed.

End Canonical.

Section ExactSums.

Import JS.

Lemma shl_align_fst (m : positive) (e e' : Z) :
  e' <= e -> Zpos (fst (shl_align m e e')) = Zpos m * 2 ^ (e - e').
Proof.
  intros Hle. unfold shl_align.
  destruct (e' - e) as [|d|d] eqn:Ed; cbn [fst]; try lia.
  - replace (e - e') with 0 by lia. lia.
  - rewrite Pos_iter_xO. f_equal. f_equal. lia.
Qed.

Lemma SFadd_finite (sa : bool) (ma : positive) (ea : Z) (sb : bool) (mb : positive) (eb : Z) :
  add (S754_finite sa ma ea) (S754_finite sb mb eb)
  = dyadic (cond_Zopp sa (Zpos ma * 2 ^ (ea - Z.min ea eb))
            + cond_Zopp sb (Zpos mb * 2 ^ (eb - Z.min ea eb))) (Z.min ea eb).
Proof.
  unfold add, SFadd, dyadic.
  rewrite !shl_align_fst by lia. reflexivity.
Qed.

Lemma SFsub_finite (sa : bool) (ma : positive) (ea : Z) (sb : bool) (mb : positive) (eb : Z) :
  sub (S754_finite sa ma ea) (S754_finite sb mb eb)
  = dyadic (cond_Zopp sa (Zpos ma * 2 ^ (ea - Z.min ea eb))
            - cond_Zopp sb (Zpos mb * 2 ^ (eb - Z.min ea eb))) (Z.min ea eb).
Proof.
  unfold sub, SFsub, dyadic.
  rewrite !shl_align_fst by lia. reflexivity.
Qed.

(** A mantissa aligned to a lower exponent [c] is the integer scaled by [2^(e - c)]. *)
Lemma mant_aligned (p : positive) (e c : Z) :
  Zpos p < 2 ^ prec ->
  c <= e + Zpos (digits2_pos p) - prec ->
  Zpos (mant p) * 2 ^ (e + Zpos (digits2_pos p) - prec - c) = Zpos p * 2 ^ (e - c).
Proof.
  intros Hp Hc.
  pose proof (digits_le_prec p Hp) as Hd.
  rewrite mant_spec by assumption.
  rewrite <- Z.mul_assoc, <- Z.pow_add_r by lia.
  f_equal. f_equal. lia.
Qed.

Lemma add_canon (a b e : Z) :
  Z.abs a < 2 ^ prec -> Z.abs b < 2 ^ prec -> Z.abs (a + b) < 2 ^ prec ->
  exp_ok e ->
  add (canon a e) (canon b e) = canon (a + b) e.
Proof.
  intros Ha Hb Hab He.
  destruct a as [|p|p], b as [|q|q]; try reflexivity.
  all: cbn [canon]; rewrite SFadd_finite.
  all: pose proof (digits_le_prec p ltac:(lia)) as Hdp;
       pose proof (digits_le_prec q ltac:(lia)) as Hdq.
  all: set (c := Z.min _ _).
  all: rewrite (mant_aligned p e c), (mant_aligned q e c) by (subst c; lia).
  all: cbn [cond_Zopp].
  all: rewrite <- ?Z.mul_opp_l, <- Z.mul_add_distr_r.
  all: rewrite dyadic_shift by
         (try assumption; try (subst c; unfold prec in *; lia);
          replace (c + (e - c)) with e by lia; assumption).
  all: f_equal; lia.
Qed.

Lemma sub_canon (a b e : Z) :
  Z.abs a < 2 ^ prec -> Z.abs b < 2 ^ prec -> Z.abs (a - b) < 2 ^ prec ->
  exp_ok e ->
  sub (canon a e) (canon b e) = canon (a - b) e.
Proof.
  intros Ha Hb Hab He.
  destruct a as [|p|p], b as [|q|q]; try reflexivity.
  all: cbn [canon]; rewrite SFsub_finite.
  all: pose proof (digits_le_prec p ltac:(lia)) as Hdp;
       pose proof (digits_le_prec q ltac:(lia)) as Hdq.
  all: set (c := Z.min _ _).
  all: rewrite (mant_aligned p e c), (mant_aligned q e c) by (subst c; lia).
  all: cbn [cond_Zopp].
  all: rewrite <- ?Z.mul_opp_l, <- Z.mul_sub_distr_r.
  all: rewrite dyadic_shift by
         (try assumption; try (subst c; unfold prec in *; lia);
          replace (c + (e - c)) with e by lia; assumption).
  all: f_equal; lia.
Qed.

End ExactSums.

Section ExactProducts.

Import JS.

Lemma digits_mul_lower (p q : positive) :
  Zpos (digits2_pos p) + Zpos (digits2_pos q) - 1 <= Zpos (digits2_pos (p * q)).
Proof.
  destruct (digits2_pos_bounds p) as [Hp _], (digits2_pos_bounds q) as [Hq _],
           (digits2_pos_bounds (p * q)) as [_ Hpq].
  pose proof (Pos2Z.is_pos (digits2_pos p)). pose proof (Pos2Z.is_pos (digits2_pos q)).
  assert (H2 : 2 ^ (Zpos (digits2_pos p) - 1 + (Zpos (digits2_pos q) - 1)) <= Zpos (p * q)).
  { rewrite Z.pow_add_r, Pos2Z.inj_mul by lia. apply Z.mul_le_mono_nonneg; try lia.
    all: apply Z.pow_nonneg; lia. }
  destruct (Z.leb_spec (Zpos (digits2_pos p) + Zpos (digits2_pos q) - 1)
              (Zpos (digits2_pos (p * q)))) as [|Hlt]; [assumption|].
  assert (2 ^ Zpos (digits2_pos (p * q))
          <= 2 ^ (Zpos (digits2_pos p) - 1 + (Zpos (digits2_pos q) - 1)))
    by (apply Z.pow_le_mono_r; lia).
  lia.
Qed.

Lemma mul_canon (a b e1 e2 : Z) :
  0 <= a < 2 ^ prec -> 0 <= b < 2 ^ prec -> a * b < 2 ^ prec ->
  exp_ok e1 -> exp_ok e2 -> exp_ok (e1 + e2) ->
  mul (canon a e1) (canon b e2) = canon (a * b) (e1 + e2).
Proof.
  intros Ha Hb Hab He1 He2 He.
  destruct a as [|p|p], b as [|q|q]; try reflexivity; try lia.
  cbn [canon Z.mul]; unfold mul, SFmul.
  pose proof (digits_le_prec p ltac:(lia)) as Hdp.
  pose proof (digits_le_prec q ltac:(lia)) as Hdq.
  pose proof (digits_le_prec (p * q) ltac:(cbn [Z.mul] in Hab; lia)) as Hdpq.
  pose proof (digits_mul_lower p q) as Hlow.
  replace (Zpos (mant p * mant q))
    with (Zpos (mant (p * q))
          * 2 ^ (prec + Zpos (digits2_pos (p * q))
                 - Zpos (digits2_pos p) - Zpos (digits2_pos q))).
  - rewrite binary_round_aux_exact
      by (try apply mant_digits; unfold exp_ok, emin, prec, emax in *; try lia; assumption).
    cbn [xorb]; f_equal; lia.
  - rewrite Pos2Z.inj_mul, !mant_spec by assumption.
    rewrite Pos2Z.inj_mul.
    replace (Zpos p * 2 ^ (prec - Zpos (digits2_pos p))
             * (Zpos q * 2 ^ (prec - Zpos (digits2_pos q))))
      with (Zpos p * Zpos q * (2 ^ (prec - Zpos (digits2_pos p))
                               * 2 ^ (prec - Zpos (digits2_pos q)))) by ring.
    rewrite <- !Z.mul_assoc, <- !Z.pow_add_r by (unfold prec in *; lia).
    do 3 f_equal. lia.
Qed.

Lemma SFdiv_core_normal (m1 : positive) (e1 : Z) (m2 : positive) (e2 : Z) :
  Zpos (digits2_pos m1) = prec -> Zpos (digits2_pos m2) = prec ->
  emin prec emax <= e1 - e2 - prec ->
  SFdiv_core_binary prec emax (Zpos m1) e1 (Zpos m2) e2
  = (Zpos m1 * 2 ^ prec / Zpos m2, e1 - e2 - prec,
     new_location (Zpos m2) ((Zpos m1 * 2 ^ prec) mod Zpos m2)).
Proof.
  intros H1 H2 Hr. unfold SFdiv_core_binary. cbn [Zdigits2].
  rewrite H1, H2.
  replace (prec + e1 - (prec + e2)) with (e1 - e2) by lia.
  rewrite fexp_normal by assumption.
  rewrite Z.min_l by (unfold prec; lia).
  replace (e1 - e2 - (e1 - e2 - prec)) with prec by lia.
  change (match prec with Z0 => Zpos m1 | Zpos _ => Z.shiftl (Zpos m1) prec | Zneg _ => 0 end)
    with (Z.shiftl (Zpos m1) prec).
  rewrite Z.shiftl_mul_pow2 by (unfold prec; lia).
  unfold Z.div, Z.modulo.
  destruct (Z.div_eucl (Zpos m1 * 2 ^ prec) (Zpos m2)) as [q r]. reflexivity.
Qed.

(** Halving is exact. *)
Lemma div_canon_two (a e : Z) :
  Z.abs a < 2 ^ prec -> exp_ok e -> -1000 <= e ->
  div (canon a e) (of_Z 2) = canon a (e - 1).
Proof.
  intros Ha He He'.
  change (of_Z 2) with (S754_finite false 4503599627370496 (-51)).
  assert (Hhalf : forall (s : bool) (p : positive),
             Zpos p < 2 ^ prec ->
             div (S754_finite s (mant p) (e + Zpos (digits2_pos p) - prec))
                 (S754_finite false 4503599627370496 (-51))
             = S754_finite s (mant p) (e - 1 + Zpos (digits2_pos p) - prec)).
  { intros s p Hp.
    pose proof (digits_le_prec p Hp) as Hdp.
    pose proof (Pos2Z.is_pos (digits2_pos p)) as Hpos.
    unfold div, SFdiv.
    rewrite SFdiv_core_normal.
    - replace (Zpos (mant p) * 2 ^ prec) with ((Zpos (mant p) * 2) * 4503599627370496)
        by (change (2 ^ prec) with 9007199254740992; lia).
      rewrite Z.div_mul, Z.mod_mul by lia.
      change (new_location 4503599627370496 0) with loc_Exact.
      change (Zpos (mant p) * 2) with (Zpos (mant p) * 2 ^ 1).
      rewrite binary_round_aux_exact.
      + rewrite xorb_false_r. f_equal. unfold prec. lia.
      + now apply mant_digits.
      + lia.
      + unfold exp_ok, emin, prec, emax in *. lia.
    - now apply mant_digits.
    - reflexivity.
    - unfold exp_ok, emin, prec, emax in *. lia. }
  destruct a as [|p|p]; [reflexivity | |]; cbn [canon]; apply Hhalf; lia.
Qed.

End ExactProducts.

Section NormalResults.

Import JS.

Lemma shr_m_div (r : shr_record) (e n : Z) :
  0 <= shr_m r -> 0 <= n ->
  shr_m (fst (shr r e n)) = shr_m r / 2 ^ n /\ snd (shr r e n) = e + n.
Proof.
  intros Hm Hn. destruct n as [|p|p]; try lia; cbn [shr fst snd].
  - rewrite Z.div_1_r. lia.
  - rewrite iter_pos_nat, iter_shr_1_m, positive_nat_Z by assumption. lia.
Qed.

Lemma Zdigits2_div_pow2 (M n : Z) :
  0 < M -> 0 <= n < Zdigits2 M ->
  Zdigits2 (M / 2 ^ n) = Zdigits2 M - n.
Proof.
  intros HM Hn. destruct M as [|p|p]; try lia. cbn [Zdigits2] in *.
  destruct (digits2_pos_bounds p) as [Hlo Hhi].
  set (d := Zpos (digits2_pos p)) in *.
  assert (Hpn : 0 < 2 ^ n) by (apply Z.pow_pos_nonneg; lia).
  assert (L : 2 ^ (d - n - 1) <= Zpos p / 2 ^ n).
  { apply Z.div_le_lower_bound; [assumption|].
    rewrite <- Z.pow_add_r by lia. replace (n + (d - n - 1)) with (d - 1) by lia. exact Hlo. }
  assert (U : Zpos p / 2 ^ n < 2 ^ (d - n)).
  { apply Z.div_lt_upper_bound; [assumption|].
    rewrite <- Z.pow_add_r by lia. replace (n + (d - n)) with d by lia. exact Hhi. }
  assert (P : 0 < 2 ^ (d - n - 1)) by (apply Z.pow_pos_nonneg; lia).
  destruct (Zpos p / 2 ^ n) as [|q|q] eqn:Eq; try lia.
  cbn [Zdigits2]. apply digits2_pos_unique. lia.
Qed.

Lemma round_nearest_even_cases (m : Z) (l : location) :
  round_nearest_even m l = m \/ round_nearest_even m l = m + 1.
Proof.
  destruct l as [|[| |]]; cbn [round_nearest_even]; auto.
  destruct (Z.even m); auto.
Qed.

(** Rounding keeps the 53 leading bits of the mantissa or adds one
    unit in the last place to them. *)
Lemma binary_round_aux_faithful (s : bool) (mx ex : Z) (lx : location) :
  0 < mx -> prec <= Zdigits2 mx ->
  emin prec emax <= ex + Zdigits2 mx - prec ->
  exists c,
    (c = mx / 2 ^ (Zdigits2 mx - prec) \/ c = mx / 2 ^ (Zdigits2 mx - prec) + 1)
    /\ 2 ^ (prec - 1) <= c <= 2 ^ prec
    /\ rounds_to s c (ex + Zdigits2 mx - prec) (binary_round_aux prec emax s mx ex lx).
Proof.
  intros Hmx Hd He.
  unfold binary_round_aux, shr_fexp.
  rewrite fexp_normal by lia.
  replace (Zdigits2 mx + ex - prec - ex) with (Zdigits2 mx - prec) by lia.
  set (n := Zdigits2 mx - prec).
  assert (Hn : 0 <= n < Zdigits2 mx) by (unfold n, prec in *; lia).
  assert (Hrec : shr_m (shr_record_of_loc mx lx) = mx)
    by (destruct lx as [|[| |]]; reflexivity).
  destruct (shr_m_div (shr_record_of_loc mx lx) ex n) as [Hm1 He1];
    [rewrite Hrec; lia | lia |].
  destruct (shr (shr_record_of_loc mx lx) ex n) as [mrs' e'].
  cbn [fst snd] in Hm1, He1. rewrite Hrec in Hm1. subst e'.
  assert (Hd1 : Zdigits2 (shr_m mrs') = prec).
  { rewrite Hm1, Zdigits2_div_pow2 by lia. unfold n. lia. }
  assert (Hpos1 : 0 < shr_m mrs').
  { assert (0 <= shr_m mrs').
    { rewrite Hm1. apply Z.div_pos; [lia | apply Z.pow_pos_nonneg; lia]. }
    destruct (shr_m mrs'); cbn in Hd1; unfold prec in Hd1; lia. }
  assert (Hb1 : 2 ^ (prec - 1) <= shr_m mrs' < 2 ^ prec).
  { destruct (shr_m mrs') as [|q|q]; try lia.
    cbn [Zdigits2] in Hd1. rewrite <- Hd1. apply digits2_pos_bounds. }
  set (m2 := round_nearest_even (shr_m mrs') (loc_of_shr_record mrs')).
  assert (Hc : m2 = mx / 2 ^ n \/ m2 = mx / 2 ^ n + 1).
  { rewrite <- Hm1. apply round_nearest_even_cases. }
  assert (Hm2 : (2 ^ (prec - 1) <= m2 < 2 ^ prec) \/ m2 = 2 ^ prec).
  { destruct Hc as [E | E]; rewrite E, <- Hm1; lia. }
  exists m2. split; [exact Hc|].
  split; [destruct Hm2 as [Hm2 | Hm2]; rewrite ?Hm2; lia|].
  replace (ex + Zdigits2 mx - prec) with (ex + n) by (unfold n; lia).
  cbn [shr_record_of_loc].
  destruct Hm2 as [Hm2 | Hm2].
  - assert (Hd2 : Zdigits2 m2 = prec).
    { destruct m2 as [|q|q]; try (unfold prec in Hm2; cbn in Hm2; lia).
      cbn [Zdigits2]. apply digits2_pos_unique. exact Hm2. }
    rewrite Hd2, fexp_normal by (unfold n, prec in *; lia).
    replace (prec + (ex + n) - prec - (ex + n)) with 0 by lia.
    cbn [shr shr_m].
    destruct m2 as [|q|q]; try (unfold prec in Hm2; cbn in Hm2; lia).
    destruct (Z.leb_spec (ex + n) (emax - prec)).
    + right. exists q, (ex + n). cbn [normal Zdigits2] in *.
      split; [reflexivity|].
      split; [split; [assumption | unfold n; lia] | left; split; reflexivity].
    + left. split; [reflexivity | lia].
  - rewrite Hm2.
    change (Zdigits2 (2 ^ prec)) with (prec + 1).
    rewrite fexp_normal by (unfold n, prec in *; lia).
    replace (prec + 1 + (ex + n) - prec - (ex + n)) with 1 by lia.
    cbn [shr iter_pos].
    change (shr_1 {| shr_m := 2 ^ prec; shr_r := false; shr_s := false |})
      with {| shr_m := 4503599627370496; shr_r := false; shr_s := false |}.
    cbn [shr_m].
    destruct (Z.leb_spec (ex + n + 1) (emax - prec)).
    + right. exists 4503599627370496%positive, (ex + n + 1). cbn [normal].
      split; [reflexivity|].
      split; [split; [reflexivity | unfold n; lia] | right; split; reflexivity].
    + left. split; [reflexivity | lia].
Qed.

Lemma rounds_to_normal_or_inf (s : bool) (c u : Z) (x : number) :
  rounds_to s c u x -> normal_or_inf s x.
Proof.
  intros [[-> _] | [m [e [-> [Hn _]]]]]; [now right | left].
  split; [exact Hn | reflexivity].
Qed.

Lemma binary_round_aux_normal (s : bool) (mx ex : Z) (lx : location) :
  0 < mx -> prec <= Zdigits2 mx ->
  emin prec emax <= ex + Zdigits2 mx - prec ->
  normal_or_inf s (binary_round_aux prec emax s mx ex lx).
Proof.
  intros Hmx Hd He.
  destruct (binary_round_aux_faithful s mx ex lx Hmx Hd He) as [c [_ [_ H]]].
  eapply rounds_to_normal_or_inf, H.
Qed.

End NormalResults.


Section Quotients.

Import JS.

Lemma Zdigits2_lower (M k : Z) :
  0 < M -> 2 ^ (k - 1) <= M -> k <= Zdigits2 M.
Proof.
  intros HM Hk. destruct M as [|p|p]; try lia. cbn [Zdigits2].
  destruct (digits2_pos_bounds p) as [_ Hhi].
  destruct (Z.leb_spec k (Zpos (digits2_pos p))) as [|Hlt]; [assumption|].
  assert (2 ^ Zpos (digits2_pos p) <= 2 ^ (k - 1)) by (apply Z.pow_le_mono_r; lia).
  lia.
Qed.

Lemma normal_bounds (s : bool) (m : positive) (e : Z) :
  normal (S754_finite s m e) -> 2 ^ (prec - 1) <= Zpos m < 2 ^ prec.
Proof.
  intros [Hd _]. rewrite <- Hd. apply digits2_pos_bounds.
Qed.

Lemma canon_normal (z e : Z) :
  z <> 0 -> Z.abs z < 2 ^ prec -> exp_ok e -> normal (canon z e).
Proof.
  intros Hz Hb [Hlo Hhi].
  destruct z as [|p|p]; try contradiction.
  all: pose proof (digits_le_prec p ltac:(lia)) as Hd.
  all: pose proof (Pos2Z.is_pos (digits2_pos p)).
  all: cbn [canon normal]; split; [now apply mant_digits|].
  all: unfold emin, prec, emax in *; lia.
Qed.

Lemma canon_sign (z e : Z) : sign_of (canon z e) = (z <? 0).
Proof. destruct z; reflexivity. Qed.

Lemma div_normal (s1 : bool) (m1 : positive) (e1 : Z)
                 (s2 : bool) (m2 : positive) (e2 : Z) :
  normal (S754_finite s1 m1 e1) -> normal (S754_finite s2 m2 e2) ->
  emin prec emax <= e1 - e2 - prec ->
  normal_or_inf (xorb s1 s2) (div (S754_finite s1 m1 e1) (S754_finite s2 m2 e2)).
Proof.
  intros N1 N2 He.
  pose proof (normal_bounds _ _ _ N1) as B1.
  pose proof (normal_bounds _ _ _ N2) as B2.
  destruct N1 as [D1 _], N2 as [D2 _].
  unfold div, SFdiv. rewrite SFdiv_core_normal by assumption.
  assert (Hq : 2 ^ (prec - 1) <= Zpos m1 * 2 ^ prec / Zpos m2).
  { apply Z.div_le_lower_bound; [lia|].
    change (2 ^ prec) with (2 * 2 ^ (prec - 1)) in *.
    assert (0 < 2 ^ (prec - 1)) by reflexivity. nia. }
  assert (Hq0 : 0 < Zpos m1 * 2 ^ prec / Zpos m2).
  { assert (0 < 2 ^ (prec - 1)) by reflexivity. lia. }
  pose proof (Zdigits2_lower _ prec Hq0 Hq) as Hdq.
  apply binary_round_aux_normal; try assumption. lia.
Qed.

Lemma mul_normal (s1 : bool) (m1 : positive) (e1 : Z)
                 (s2 : bool) (m2 : positive) (e2 : Z) :
  normal (S754_finite s1 m1 e1) -> normal (S754_finite s2 m2 e2) ->
  emin prec emax <= e1 + e2 + prec - 1 ->
  normal_or_inf (xorb s1 s2) (mul (S754_finite s1 m1 e1) (S754_finite s2 m2 e2)).
Proof.
  intros [D1 _] [D2 _] He.
  unfold mul, SFmul.
  pose proof (digits_mul_lower m1 m2) as Hlow. rewrite D1, D2 in Hlow.
  apply binary_round_aux_normal; cbn [Zdigits2]; unfold prec in *; lia.
Qed.

End Quotients.

Section Comparison.

Import JS.

Lemma digits_lt_value (p q : positive) :
  Zpos (digits2_pos p) < Zpos (digits2_pos q) -> Zpos p < Zpos q.
Proof.
  intros H.
  destruct (digits2_pos_bounds p) as [_ Hp], (digits2_pos_bounds q) as [Hq _].
  assert (2 ^ Zpos (digits2_pos p) <= 2 ^ (Zpos (digits2_pos q) - 1))
    by (apply Z.pow_le_mono_r; lia).
  lia.
Qed.

Lemma compare_mant (p q : positive) (e : Z) :
  Zpos p < 2 ^ prec -> Zpos q < 2 ^ prec ->
  match e + Zpos (digits2_pos p) - prec ?= e + Zpos (digits2_pos q) - prec with
  | Lt => Lt
  | Gt => Gt
  | Eq => Pos.compare_cont Eq (mant p) (mant q)
  end = (Zpos p ?= Zpos q).
Proof.
  intros Hp Hq.
  pose proof (digits_le_prec p Hp) as Dp. pose proof (digits_le_prec q Hq) as Dq.
  destruct (Z.compare_spec (e + Zpos (digits2_pos p) - prec)
                           (e + Zpos (digits2_pos q) - prec)) as [E | L | G].
  - change (Pos.compare_cont Eq (mant p) (mant q)) with (Zpos (mant p) ?= Zpos (mant q)).
    rewrite !mant_spec by assumption.
    replace (Zpos (digits2_pos q)) with (Zpos (digits2_pos p)) by lia.
    symmetry. apply Zmult_compare_compat_r. apply Z.lt_gt, Z.pow_pos_nonneg; lia.
  - symmetry. apply Z.compare_lt_iff. apply digits_lt_value. lia.
  - symmetry. apply Z.compare_gt_iff. apply digits_lt_value. lia.
Qed.

(** Comparison of two encoded integers is comparison of the integers. *)
Lemma compare_canon (a b e : Z) :
  Z.abs a < 2 ^ prec -> Z.abs b < 2 ^ prec ->
  SFcompare (canon a e) (canon b e) = Some (a ?= b).
Proof.
  intros Ha Hb.
  destruct a as [|p|p], b as [|q|q]; try reflexivity; cbn [canon SFcompare].
  - rewrite compare_mant by lia. reflexivity.
  - pose proof (compare_mant p q e ltac:(lia) ltac:(lia)) as H.
    cbn [Z.compare]. change (Zpos p ?= Zpos q) with (p ?= q)%positive in H.
    rewrite <- H.
    destruct (e + Zpos (digits2_pos p) - prec ?= e + Zpos (digits2_pos q) - prec);
      reflexivity.
Qed.

End Comparison.


Section Rounding.

Import JS Spec.

Lemma of_Z_canon (z : Z) : Z.abs z < 2 ^ prec -> of_Z z = canon z 0.
Proof. intros Hz. apply dyadic_canon; [assumption | unfold exp_ok; lia]. Qed.

Lemma round_half_up_mono (p q : Q) :
  (p <= q)%Q -> round_half_up p <= round_half_up q.
Proof.
  intros H. unfold round_half_up. apply Qfloor_resp_le.
  apply Qplus_le_compat; [assumption | apply Qle_refl].
Qed.

Lemma round_half_up_Z (n : Z) : round_half_up (inject_Z n) = n.
Proof.
  unfold round_half_up, Qfloor, Qplus, inject_Z. cbn [Qnum Qden].
  symmetry. apply Z.div_unique with (r := 1); lia.
Qed.

Lemma round_half_up_comp (p q : Q) : (p == q)%Q -> round_half_up p = round_half_up q.
Proof. intros H. unfold round_half_up. now rewrite H. Qed.

(** Clamping commutes with rounding: the bounds are integers. *)
Lemma round_half_up_clamp (q : Q) :
  round_half_up (Qmax 0 (Qmin 100 q)) = Z.max 0 (Z.min 100 (round_half_up q)).
Proof.
  pose proof (round_half_up_Z 0) as R0. pose proof (round_half_up_Z 100) as R100.
  change (inject_Z 0) with 0%Q in R0. change (inject_Z 100) with 100%Q in R100.
  destruct (Qlt_le_dec q 0) as [Hneg | Hpos].
  - assert (Hle : (q <= 0)%Q) by now apply Qlt_le_weak.
    assert (H100 : (q <= 100)%Q) by (eapply Qle_trans; [exact Hle | discriminate]).
    rewrite (round_half_up_comp (Qmax 0 (Qmin 100 q)) 0%Q).
    + pose proof (round_half_up_mono q 0 Hle). lia.
    + rewrite (Q.min_r 100 q H100). now apply Q.max_l.
  - destruct (Qlt_le_dec 100 q) as [Hbig | Hsmall].
    + assert (Hle : (100 <= q)%Q) by now apply Qlt_le_weak.
      rewrite (round_half_up_comp (Qmax 0 (Qmin 100 q)) 100%Q).
      * pose proof (round_half_up_mono 100 q Hle). lia.
      * rewrite (Q.min_l 100 q Hle). apply Q.max_r. discriminate.
    + rewrite (round_half_up_comp (Qmax 0 (Qmin 100 q)) q).
      * pose proof (round_half_up_mono 0 q Hpos).
        pose proof (round_half_up_mono q 100 Hsmall). lia.
      * rewrite (Q.min_r 100 q Hsmall). now apply Q.max_r.
Qed.

Lemma round_half_up_value (s : bool) (m k : positive) :
  round_half_up (value s m (Zneg k))
  = round_half_up_dyadic (cond_Zopp s (Zpos m)) (Zneg k).
Proof.
  unfold round_half_up, value, round_half_up_dyadic, Qfloor, Qplus.
  cbn [Qnum Qden].
  rewrite Pos2Z.inj_mul, Pos2Z.inj_pow.
  change (- Zneg k) with (Zpos k). change (1 - Zneg k) with (1 + Zpos k).
  rewrite Z.pow_add_r by lia. f_equal; lia.
Qed.

Lemma binary_normalize_nonzero (r e : Z) (s : bool) :
  r <> 0 -> binary_normalize prec emax r e s = dyadic r e.
Proof. destruct r; [contradiction | reflexivity | reflexivity]. Qed.

(** [Math.max(0, Math.min(100, r))] on an encoded integer [r]. *)
Lemma clamp_of_Z (r : Z) (s : bool) :
  Z.abs r < 2 ^ prec ->
  Math_max (of_Z 0) (Math_min (of_Z 100) (binary_normalize prec emax r 0 s))
  = of_Z (Z.max 0 (Z.min 100 r)).
Proof.
  intros Hr.
  destruct (Z.eq_dec r 0) as [-> | Hnz]; [destruct s; reflexivity|].
  rewrite binary_normalize_nonzero by assumption.
  change (dyadic r 0) with (of_Z r).
  assert (H0 : Z.abs 0 < 2 ^ prec) by reflexivity.
  assert (H100 : Z.abs 100 < 2 ^ prec) by reflexivity.
  rewrite (of_Z_canon r Hr), (of_Z_canon 0 H0), (of_Z_canon 100 H100).
  rewrite of_Z_canon by (change (2 ^ prec) with 9007199254740992 in *; lia).
  unfold Math_min. rewrite compare_canon by assumption.
  destruct (Z.compare_spec 100 r) as [E | L | G].
  - subst r. reflexivity.
  - replace (Z.max 0 (Z.min 100 r)) with 100 by lia. reflexivity.
  - unfold Math_max. rewrite compare_canon by assumption.
    destruct (Z.compare_spec 0 r) as [E' | L' | G'].
    + congruence.
    + replace (Z.max 0 (Z.min 100 r)) with r by lia. reflexivity.
    + replace (Z.max 0 (Z.min 100 r)) with 0 by lia. reflexivity.
Qed.

Lemma round_half_up_dyadic_bound (v e : Z) :
  Z.abs v < 2 ^ prec -> e < 0 -> Z.abs (round_half_up_dyadic v e) < 2 ^ prec.
Proof.
  intros Hv He. unfold round_half_up_dyadic.
  replace (1 - e) with (Z.succ (- e)) by lia.
  rewrite Z.pow_succ_r by lia.
  assert (HP : 2 <= 2 ^ (- e)).
  { change 2 with (2 ^ 1) at 1. apply Z.pow_le_mono_r; lia. }
  set (P := 2 ^ (- e)) in *.
  change (2 ^ prec) with 9007199254740992 in *.
  assert (U : (2 * v + P) / (2 * P) < 9007199254740992)
    by (apply Z.div_lt_upper_bound; lia).
  assert (L : - 9007199254740992 + 1 <= (2 * v + P) / (2 * P))
    by (apply Z.div_le_lower_bound; lia).
  lia.
Qed.

(** Rounding with [Math.round] and then clamping with [Math.min] and
    [Math.max] is clamping the value and rounding it half up. *)
Lemma round_then_clamp (p : number) :
  percentage_like p ->
  Math_max (of_Z 0) (Math_min (of_Z 100) (Math_round p))
  = of_Z (round_half_up (clamp_0_100 p)).
Proof.
  intros Hp. destruct p as [s | s | | s m e]; try contradiction.
  - destruct s; reflexivity.
  - destruct s; reflexivity.
  - pose proof (normal_bounds s m e Hp) as Hm.
    cbn [Math_round clamp_0_100]. rewrite round_half_up_clamp.
    destruct (Z.leb_spec 0 e) as [He | He].
    + assert (Hpow : 1 <= 2 ^ e) by (apply Z.lt_pred_le, Z.pow_pos_nonneg; lia).
      assert (Hv : value s m e = inject_Z (cond_Zopp s (Zpos m) * 2 ^ e))
        by (unfold value; destruct e; try reflexivity; lia).
      rewrite Hv, round_half_up_Z.
      change (2 ^ (prec - 1)) with 4503599627370496 in Hm.
      destruct s; cbn [cond_Zopp].
      * replace (Z.max 0 (Z.min 100 (- Zpos m * 2 ^ e))) with 0 by nia.
        reflexivity.
      * replace (Z.max 0 (Z.min 100 (Zpos m * 2 ^ e))) with 100 by nia.
        change (of_Z 100) with (S754_finite false 7036874417766400 (-46)).
        unfold Math_min. cbn [SFcompare].
        destruct (Z.compare_spec (-46) e); try lia. reflexivity.
    + destruct e as [|k|k]; try lia.
      rewrite round_half_up_value.
      apply clamp_of_Z. apply round_half_up_dyadic_bound; [|lia].
      destruct s; cbn [cond_Zopp]; lia.
Qed.

End Rounding.


(** ** The scoring engine *)

Section Scoring.

Import JS Spec.

Lemma canon_double (s : Z) :
  Z.abs (s * 2) < 2 ^ prec -> canon (s * 2) (-1) = canon s 0.
Proof.
  intros Hs.
  rewrite <- (dyadic_canon (s * 2) (-1)) by (try assumption; unfold exp_ok; lia).
  change (s * 2) with (s * 2 ^ 1).
  apply (dyadic_shift s 1 (-1)); unfold exp_ok; try lia.
Qed.

Lemma canon_finite (z e : Z) :
  z <> 0 ->
  canon z e
  = S754_finite (z <? 0) (mant (Z.to_pos (Z.abs z))) (e + Zdigits2 z - prec).
Proof. destruct z; [contradiction | reflexivity | reflexivity]. Qed.

Lemma Zdigits2_range (z : Z) :
  z <> 0 -> Z.abs z < 2 ^ prec -> 1 <= Zdigits2 z <= prec.
Proof.
  intros Hz Hb. destruct z as [|p|p]; try contradiction; cbn [Zdigits2].
  all: pose proof (Pos2Z.is_pos (digits2_pos p)).
  all: pose proof (digits_le_prec p ltac:(lia)); lia.
Qed.

Lemma twice_sum_cons (l : LogEntry.t) (logs : list LogEntry.t) :
  twice_sum (l :: logs) = twice_contribution l + twice_sum logs.
Proof. reflexivity. Qed.

Lemma twice_sum_signed_sum (logs : list LogEntry.t) :
  (inject_Z (twice_sum logs) == 2 * signed_sum logs)%Q.
Proof.
  induction logs as [|l logs IH].
  - reflexivity.
  - rewrite twice_sum_cons, inject_Z_plus, IH. cbn [signed_sum fold_right].
    fold (signed_sum logs).
    assert (Hl : (inject_Z (twice_contribution l) == 2 * contribution l)%Q).
    { unfold twice_contribution, contribution.
      destruct (LogEntry.type l);
        cbv [Qeq Qmult Qdiv Qinv Qopp inject_Z Qnum Qden]; lia. }
    rewrite Hl. ring.
Qed.

Lemma twice_contribution_bound (l : LogEntry.t) :
  bounded_severity l -> Z.abs (twice_contribution l) <= 2 ^ 21.
Proof.
  unfold bounded_severity, twice_contribution.
  change (2 ^ 20) with 1048576. change (2 ^ 21) with 2097152.
  destruct (LogEntry.type l); lia.
Qed.

(** The running sum of the loop is exact: it is the number [T / 2]
    for the integer [T] that is twice the signed sum. *)
Lemma toxicitySum_exact (logs : list LogEntry.t) (acc : Z) :
  Forall bounded_severity logs ->
  Z.abs acc + 2 ^ 21 * Z.of_nat (List.length logs) < 2 ^ prec ->
  fold_left
    (fun toxicitySum log =>
       match LogEntry.type log with
       | RED => add toxicitySum (of_Z (LogEntry.severity log))
       | YELLOW => add toxicitySum (div (of_Z (LogEntry.severity log)) (of_Z 2))
       | GREEN => sub toxicitySum (of_Z (LogEntry.severity log))
       end)
    logs (canon acc (-1))
  = canon (acc + twice_sum logs) (-1).
Proof.
  revert acc. induction logs as [|l logs IH]; intros acc Hall Hacc.
  - cbn. now rewrite Z.add_0_r.
  - inversion Hall as [|? ? Hl Hrest]; subst.
    pose proof (twice_contribution_bound l Hl) as Hc.
    cbn [fold_left]. rewrite twice_sum_cons, Z.add_assoc.
    change (List.length (l :: logs)) with (S (List.length logs)) in Hacc.
    rewrite Nat2Z.inj_succ in Hacc.
    assert (Hs : Z.abs (LogEntry.severity l) < 2 ^ prec).
    { unfold bounded_severity in Hl.
      change (2 ^ 20) with 1048576 in Hl. change (2 ^ prec) with 9007199254740992. lia. }
    assert (Hok : exp_ok (-1)) by (unfold exp_ok; lia).
    assert (Hok0 : exp_ok 0) by (unfold exp_ok; lia).
    change (2 ^ 21) with 2097152 in *. change (2 ^ prec) with 9007199254740992 in *.
    rewrite <- IH by (try assumption; lia).
    f_equal.
    unfold twice_contribution in *.
    destruct (LogEntry.type l).
    + rewrite of_Z_canon by assumption.
      rewrite <- (canon_double (LogEntry.severity l))
        by (change (2 ^ prec) with 9007199254740992; lia).
      rewrite sub_canon by (try assumption; change (2 ^ prec) with 9007199254740992; lia).
      f_equal. lia.
    + rewrite of_Z_canon by assumption.
      rewrite div_canon_two by (try assumption; lia).
      change (0 - 1) with (-1).
      rewrite add_canon by (try assumption; change (2 ^ prec) with 9007199254740992; lia).
      reflexivity.
    + rewrite of_Z_canon by assumption.
      rewrite <- (canon_double (LogEntry.severity l))
        by (change (2 ^ prec) with 9007199254740992; lia).
      rewrite add_canon by (try assumption; change (2 ^ prec) with 9007199254740992; lia).
      f_equal. lia.
Qed.

Lemma twice_sum_bound (logs : list LogEntry.t) :
  Forall bounded_severity logs ->
  Z.abs (twice_sum logs) <= 2 ^ 21 * Z.of_nat (List.length logs).
Proof.
  induction 1 as [|l logs Hl _ IH].
  - cbn. lia.
  - rewrite twice_sum_cons.
    change (List.length (l :: logs)) with (S (List.length logs)).
    rewrite Nat2Z.inj_succ.
    pose proof (twice_contribution_bound l Hl). lia.
Qed.

Lemma percentage_shape (logs : list LogEntry.t) :
  logs <> [] -> Forall bounded_severity logs -> array logs ->
  percentage_like (percentage logs)
  /\ sign_of (percentage logs) = (twice_sum logs <? 0)
  /\ (twice_sum logs = 0 -> percentage logs = S754_zero false).
Proof.
  intros Hne Hall Harr. unfold array in Harr.
  pose proof (twice_sum_bound logs Hall) as HT.
  assert (Hn : 0 < Z.of_nat (List.length logs)) by (destruct logs; [contradiction | cbn; lia]).
  change (2 ^ 21) with 2097152 in HT. change (2 ^ 32) with 4294967296 in Harr.
  unfold percentage.
  set (T := twice_sum logs) in *. set (N := Z.of_nat (List.length logs) * 10).
  assert (HTb : Z.abs T < 2 ^ prec) by (change (2 ^ prec) with 9007199254740992; lia).
  assert (HNb : Z.abs N < 2 ^ prec) by (change (2 ^ prec) with 9007199254740992; lia).
  assert (HNpos : 0 < N) by (unfold N; lia).
  clearbody T N.
  rewrite dyadic_canon by (try assumption; unfold exp_ok; lia).
  rewrite (of_Z_canon N HNb).
  change (of_Z 100) with (S754_finite false 7036874417766400 (-46)).
  assert (N100 : normal (S754_finite false 7036874417766400 (-46)))
    by (split; [reflexivity | unfold emin, prec, emax; lia]).
  assert (NN : normal (canon N 0)) by (apply canon_normal; unfold exp_ok; lia).
  destruct (Z.eq_dec T 0) as [E | HTnz].
  - rewrite E. rewrite (canon_finite N) by lia.
    replace (N <? 0) with false by (symmetry; apply Z.ltb_ge; lia).
    split; [exact I | split; reflexivity].
  - assert (NT : normal (canon T (-1))) by (apply canon_normal; unfold exp_ok; lia).
    pose proof (Zdigits2_range T HTnz HTb) as DT.
    pose proof (Zdigits2_range N ltac:(lia) HNb) as DN.
    rewrite (canon_finite T) in * by assumption.
    rewrite (canon_finite N) in * by lia.
    replace (N <? 0) with false in * by (symmetry; apply Z.ltb_ge; lia).
    assert (He : emin prec emax
                 <= (-1 + Zdigits2 T - prec) - (0 + Zdigits2 N - prec) - prec)
      by (unfold emin, prec, emax in *; lia).
    destruct (div_normal _ _ _ _ _ _ NT NN He) as [[Nd Sd] | ->].
    + destruct (div _ _) as [| | |s3 m3 e3]; try contradiction.
      cbn [sign_of] in Sd. rewrite xorb_false_r in Sd. subst s3.
      assert (He3 : emin prec emax <= e3 + -46 + prec - 1)
        by (destruct Nd as [_ [Hlo _]]; unfold emin, prec, emax in *; lia).
      destruct (mul_normal (T <? 0) m3 e3 false _ _ Nd N100 He3) as [[Nm Sm] | ->].
      * rewrite xorb_false_r in Sm.
        destruct (mul _ _); try contradiction.
        split; [exact Nm | split; [exact Sm | intros; contradiction]].
      * rewrite xorb_false_r. split; [exact I | split; [reflexivity | intros; contradiction]].
    + unfold mul. cbn [SFmul sign_of percentage_like]. rewrite !xorb_false_r.
      split; [exact I | split; [reflexivity | intros; contradiction]].
Qed.

Lemma percentage_is_percentage_like (logs : list LogEntry.t) :
  logs <> [] -> Forall bounded_severity logs -> array logs ->
  percentage_like (percentage logs).
Proof. intros. now apply percentage_shape. Qed.

Lemma calculateVibeScore_computeToxicityScore (logs : list LogEntry.t) :
  Forall bounded_severity logs -> array logs ->
  Db.calculateVibeScore logs = of_Z (computeToxicityScore logs).
Proof.
  intros Hall Harr.
  destruct logs as [|l logs']; [reflexivity|].
  set (logs := l :: logs') in *.
  assert (Hne : logs <> []) by discriminate.
  change (computeToxicityScore logs)
    with (round_half_up (clamp_0_100 (percentage logs))).
  unfold Db.calculateVibeScore.
  change (List.length logs =? 0)%nat with false. cbv iota.
  clearbody logs.
  rewrite <- round_then_clamp by now apply percentage_is_percentage_like.
  unfold array in Harr. change (2 ^ 32) with 4294967296 in Harr.
  pose proof (twice_sum_bound logs Hall) as HT. change (2 ^ 21) with 2097152 in HT.
  assert (Hsum := toxicitySum_exact logs 0 Hall).
  change (canon 0 (-1)) with (of_Z 0) in Hsum.
  rewrite Hsum, Z.add_0_l
    by (change (2 ^ 21) with 2097152; change (2 ^ prec) with 9007199254740992; lia).
  rewrite (of_Z_canon (Z.of_nat (List.length logs)))
    by (change (2 ^ prec) with 9007199254740992; lia).
  rewrite (of_Z_canon 10) by reflexivity.
  rewrite mul_canon
    by (unfold exp_ok; change (2 ^ prec) with 9007199254740992; lia).
  unfold percentage.
  rewrite dyadic_canon
    by (unfold exp_ok; change (2 ^ prec) with 9007199254740992; lia).
  rewrite (of_Z_canon (Z.of_nat (List.length logs) * 10))
    by (change (2 ^ prec) with 9007199254740992; lia).
  reflexivity.
Qed.

Lemma clamp_round_range (p : number) : 0 <= round_half_up (clamp_0_100 p) <= 100.
Proof.
  destruct p as [s | [|] | | s m e]; try (cbn; lia).
  cbn [clamp_0_100]. rewrite round_half_up_clamp. lia.
Qed.

Lemma computeToxicityScore_range (logs : list LogEntry.t) :
  0 <= computeToxicityScore logs <= 100.
Proof.
  destruct logs; [cbn; lia | apply clamp_round_range].
Qed.

Lemma value_negative (m : positive) (e : Z) : (value true m e < 0)%Q.
Proof.
  unfold value. destruct e as [|k|k]; cbn [cond_Zopp].
  - unfold Qlt, inject_Z. cbn. lia.
  - unfold Qlt, inject_Z. cbn [Qnum Qden].
    assert (0 < 2 ^ Zpos k) by (apply Z.pow_pos_nonneg; lia). nia.
  - unfold Qlt. cbn. lia.
Qed.

Lemma clamp_round_negative (p : number) :
  sign_of p = true -> round_half_up (clamp_0_100 p) = 0.
Proof.
  intros Hs. destruct p as [s | s | | s m e]; cbn [sign_of] in Hs;
    try subst s; try reflexivity.
  cbn [clamp_0_100]. rewrite round_half_up_clamp.
  pose proof (round_half_up_mono _ _ (Qlt_le_weak _ _ (value_negative m e))) as H.
  change (round_half_up 0) with 0 in H. lia.
Qed.

Lemma clamp_round_above (s : bool) (m : positive) (e : Z) :
  (100 < value s m e)%Q -> round_half_up (clamp_0_100 (S754_finite s m e)) = 100.
Proof.
  intros H. cbn [clamp_0_100]. rewrite round_half_up_clamp.
  pose proof (round_half_up_mono _ _ (Qlt_le_weak _ _ H)) as H'.
  change (round_half_up 100) with 100 in H'. lia.
Qed.

End Scoring.


(** ** The rounding error of the percentage *)

Section Faithful.

Import JS.

Lemma Zdigits2_upper (M k : Z) :
  0 < M -> M < 2 ^ k -> Zdigits2 M <= k.
Proof.
  intros HM Hk. destruct M as [|p|p]; try lia. cbn [Zdigits2].
  destruct (digits2_pos_bounds p) as [Hlo _].
  destruct (Z.leb_spec (Zpos (digits2_pos p)) k) as [|Hlt]; [assumption|].
  assert (0 <= k).
  { destruct (Z.leb_spec 0 k); [assumption|]. rewrite Z.pow_neg_r in Hk; lia. }
  assert (2 ^ k <= 2 ^ (Zpos (digits2_pos p) - 1)) by (apply Z.pow_le_mono_r; lia).
  lia.
Qed.

Lemma mant_pos_spec (z : Z) :
  0 < z < 2 ^ prec ->
  Zpos (mant (Z.to_pos (Z.abs z))) = z * 2 ^ (prec - Zdigits2 z)
  /\ 1 <= Zdigits2 z <= prec.
Proof.
  intros Hz. destruct z as [|p|p]; try lia. cbn [Z.abs Z.to_pos Zdigits2].
  pose proof (digits_le_prec p ltac:(lia)). pose proof (Pos2Z.is_pos (digits2_pos p)).
  split; [now apply mant_spec | lia].
Qed.

(** The quotient of two encoded positive integers, before its
    normalization: the floor of [T * 2^h / N] or its successor, at
    the exponent [e1 - e2 - h]. *)
Lemma div_canon_faithful (T N e1 e2 : Z) :
  0 < T < 2 ^ prec -> 0 < N < 2 ^ prec ->
  exp_ok e1 -> exp_ok e2 -> -900 <= e1 - e2 <= 900 ->
  exists h c,
    prec + Zdigits2 N - Zdigits2 T - 1 <= h <= prec + Zdigits2 N - Zdigits2 T
    /\ (c = T * 2 ^ h / N \/ c = T * 2 ^ h / N + 1)
    /\ 2 ^ (prec - 1) <= c <= 2 ^ prec
    /\ rounds_to false c (e1 - e2 - h) (div (canon T e1) (canon N e2)).
Proof.
  intros HT HN He1 He2 Hdiff.
  destruct (mant_pos_spec T HT) as [HmT DT], (mant_pos_spec N HN) as [HmN DN].
  assert (NT : normal (canon T e1)) by (apply canon_normal; try assumption; lia).
  assert (NN : normal (canon N e2)) by (apply canon_normal; try assumption; lia).
  rewrite (canon_finite T), (canon_finite N) in * by lia.
  replace (T <? 0) with false in * by (symmetry; apply Z.ltb_ge; lia).
  replace (N <? 0) with false in * by (symmetry; apply Z.ltb_ge; lia).
  set (mT := mant (Z.to_pos (Z.abs T))) in *. set (mN := mant (Z.to_pos (Z.abs N))) in *.
  set (dT := Zdigits2 T) in *. set (dN := Zdigits2 N) in *.
  pose proof (normal_bounds _ _ _ NT) as BT. pose proof (normal_bounds _ _ _ NN) as BN.
  destruct NT as [DmT _], NN as [DmN _].
  set (g := prec + dN - dT).
  assert (Hg : 1 <= g) by (unfold g, prec in *; lia).
  unfold div, SFdiv.
  rewrite SFdiv_core_normal
    by (try assumption; unfold exp_ok, emin, prec, emax in *; lia).
  assert (Hq : Zpos mT * 2 ^ prec / Zpos mN = T * 2 ^ g / N).
  { rewrite HmT, HmN.
    replace (T * 2 ^ (prec - dT) * 2 ^ prec) with (T * 2 ^ g * 2 ^ (prec - dN)).
    - apply Z.div_mul_cancel_r; [lia|].
      apply Z.pow_nonzero; unfold prec in *; lia.
    - rewrite <- !Z.mul_assoc, <- !Z.pow_add_r by (unfold g, prec in *; lia).
      f_equal. f_equal. unfold g. lia. }
  rewrite Hq.
  set (q := T * 2 ^ g / N) in *.
  assert (Hqlo : 2 ^ (prec - 1) <= q).
  { rewrite <- Hq. apply Z.div_le_lower_bound; [lia|].
    change (2 ^ prec) with (2 * 2 ^ (prec - 1)) in *.
    assert (0 < 2 ^ (prec - 1)) by reflexivity. nia. }
  assert (Hqhi : q < 2 ^ (prec + 1)).
  { rewrite <- Hq. apply Z.div_lt_upper_bound; [lia|].
    change (2 ^ (prec + 1)) with (4 * 2 ^ (prec - 1)).
    change (2 ^ prec) with (2 * 2 ^ (prec - 1)) in *.
    assert (0 < 2 ^ (prec - 1)) by reflexivity. nia. }
  assert (Hq0 : 0 < q) by (assert (0 < 2 ^ (prec - 1)) by reflexivity; lia).
  pose proof (Zdigits2_lower q prec Hq0 Hqlo) as Dlo.
  pose proof (Zdigits2_upper q (prec + 1) Hq0 Hqhi) as Dhi.
  destruct (binary_round_aux_faithful (xorb false false) q
              (e1 + dT - prec - (e2 + dN - prec) - prec)
              (new_location (Zpos mN) ((Zpos mT * 2 ^ prec) mod Zpos mN)) Hq0 Dlo)
    as [c [Hc [Hcb Hr]]];
    [unfold exp_ok, emin, prec, emax in *; lia|].
  set (n1 := Zdigits2 q - prec) in *.
  exists (g - n1), c.
  split; [unfold n1, g; lia|].
  split.
  - assert (Hdiv : q / 2 ^ n1 = T * 2 ^ (g - n1) / N).
    { unfold q. rewrite Z.div_div by (try apply Z.pow_pos_nonneg; lia).
      replace (T * 2 ^ g) with (T * 2 ^ (g - n1) * 2 ^ n1).
      - apply Z.div_mul_cancel_r; [lia | apply Z.pow_nonzero; unfold n1; lia].
      - rewrite <- Z.mul_assoc, <- Z.pow_add_r by (unfold n1; lia).
        f_equal. f_equal. lia. }
    rewrite <- Hdiv. exact Hc.
  - split; [exact Hcb|].
    cbn [xorb] in Hr.
    replace (e1 - e2 - (g - n1))
      with (e1 + dT - prec - (e2 + dN - prec) - prec + Zdigits2 q - prec)
      by (unfold n1, g; lia).
    exact Hr.
Qed.

(** The product of a normal number with 100, before its
    normalization. *)
Lemma mul_100_faithful (m : positive) (e : Z) :
  normal (S754_finite false m e) ->
  emin prec emax <= e + 6 ->
  exists j c,
    6 <= j <= 7
    /\ (c = 100 * Zpos m / 2 ^ j \/ c = 100 * Zpos m / 2 ^ j + 1)
    /\ 2 ^ (prec - 1) <= c <= 2 ^ prec
    /\ rounds_to false c (e + j) (mul (S754_finite false m e) (of_Z 100)).
Proof.
  intros Nm He.
  pose proof (normal_bounds _ _ _ Nm) as Bm.
  change (of_Z 100) with (S754_finite false 7036874417766400 (-46)).
  unfold mul, SFmul. cbn [xorb].
  set (M := Zpos (m * 7036874417766400)).
  assert (HM : M = 100 * Zpos m * 2 ^ 46) by (unfold M; rewrite Pos2Z.inj_mul; lia).
  change (2 ^ (prec - 1)) with 4503599627370496 in Bm.
  change (2 ^ prec) with 9007199254740992 in Bm.
  assert (HM0 : 0 < M) by reflexivity.
  assert (Dlo : 105 <= Zdigits2 M).
  { apply Zdigits2_lower; [assumption|].
    change (2 ^ (105 - 1)) with (4503599627370496 * 2 ^ 52).
    rewrite HM. change (2 ^ 46) with 70368744177664. change (2 ^ 52) with 4503599627370496.
    nia. }
  assert (Dhi : Zdigits2 M <= 106).
  { apply Zdigits2_upper; [assumption|].
    change (2 ^ 106) with (9007199254740992 * 2 ^ 53).
    rewrite HM. change (2 ^ 46) with 70368744177664. change (2 ^ 53) with 9007199254740992.
    nia. }
  destruct (binary_round_aux_faithful false M (e + -46) loc_Exact HM0)
    as [c [Hc [Hcb Hr]]]; [unfold prec; lia | unfold emin, prec, emax in *; lia |].
  set (n2 := Zdigits2 M - prec) in *.
  exists (n2 - 46), c.
  split; [unfold n2, prec; lia|].
  split.
  - assert (Hdiv : M / 2 ^ n2 = 100 * Zpos m / 2 ^ (n2 - 46)).
    { rewrite HM.
      replace (2 ^ n2) with (2 ^ (n2 - 46) * 2 ^ 46)
        by (rewrite <- Z.pow_add_r by (unfold n2, prec; lia); f_equal; lia).
      apply Z.div_mul_cancel_r; apply Z.pow_nonzero; unfold n2, prec; lia. }
    rewrite <- Hdiv. exact Hc.
  - split; [exact Hcb|].
    replace (e + (n2 - 46)) with (e + -46 + Zdigits2 M - prec) by (unfold n2; lia).
    exact Hr.
Qed.

End Faithful.


Section OffTies.

Import JS Spec.

Lemma floor_or_succ_bounds (a b c : Z) :
  0 < b -> (c = a / b \/ c = a / b + 1) -> a - b < b * c <= a + b.
Proof.
  intros Hb Hc.
  pose proof (Z.mul_div_le a b Hb). pose proof (Z.mul_succ_div_gt a b Hb).
  destruct Hc as [-> | ->]; lia.
Qed.

(** The two rounding errors together are smaller than the distance
    from a percentage to a bound it does not reach. *)
Lemma percentage_between_ties (T N lo hi P Q c1 c2 : Z) :
  0 < N -> 0 < P -> 0 < Q ->
  N * (100 + Q) < P ->
  T * P - N < N * c1 <= T * P + N ->
  100 * c1 - Q < Q * c2 <= 100 * c1 + Q ->
  lo * N < 100 * T < hi * N ->
  lo * P <= c2 * Q < hi * P.
Proof.
  intros HN HP HQ Hgap [H1lo H1hi] [H2lo H2hi] [Hklo Hkhi].
  assert (Hlo : lo * N * P <= N * (c2 * Q)).
  { assert (H : (lo * N + 1) * P <= 100 * T * P)
      by (apply Z.mul_le_mono_nonneg_r; lia).
    nia. }
  assert (Hhi : N * (c2 * Q) < hi * N * P).
  { assert (H : 100 * T * P <= (hi * N - 1) * P)
      by (apply Z.mul_le_mono_nonneg_r; lia).
    nia. }
  split.
  - apply (Z.mul_le_mono_pos_l _ _ N HN). lia.
  - apply (Z.mul_lt_mono_pos_l N _ _ HN). lia.
Qed.

Lemma round_half_up_dyadic_unique (m e k : Z) :
  e < 0 ->
  (2 * k - 1) * 2 ^ (- e) <= 2 * m < (2 * k + 1) * 2 ^ (- e) ->
  round_half_up_dyadic m e = k.
Proof.
  intros He [Hlo Hhi]. unfold round_half_up_dyadic.
  replace (1 - e) with (Z.succ (- e)) by lia.
  rewrite Z.pow_succ_r by lia.
  assert (0 < 2 ^ (- e)) by (apply Z.pow_pos_nonneg; lia).
  symmetry. apply Z.div_unique with (r := 2 * m + 2 ^ (- e) - 2 * 2 ^ (- e) * k); lia.
Qed.

Lemma round_half_up_dyadic_between (m e k : Z) :
  e < 0 ->
  (2 * k - 3) * 2 ^ (- e) <= 2 * m < (2 * k + 1) * 2 ^ (- e) ->
  round_half_up_dyadic m e = k - 1 \/ round_half_up_dyadic m e = k.
Proof.
  intros He [Hlo Hhi].
  destruct (Z.lt_ge_cases (2 * m) ((2 * k - 1) * 2 ^ (- e))) as [Hlt | Hge].
  - left. apply round_half_up_dyadic_unique; [assumption|].
    replace (2 * (k - 1) - 1) with (2 * k - 3) by lia.
    replace (2 * (k - 1) + 1) with (2 * k - 1) by lia. lia.
  - right. apply round_half_up_dyadic_unique; [assumption | lia].
Qed.

(** From the two faithful roundings to bounds on the number the code
    rounds. *)
Lemma roundings_between
    (T N lo hi h j c1 c2 : Z) (m m' : positive) (e e' : Z) :
  0 < N -> 0 < T -> 9 <= h -> 6 <= j <= 7 ->
  N * (100 + 2 ^ (j + 1)) < 2 ^ h ->
  (c1 = T * 2 ^ h / N \/ c1 = T * 2 ^ h / N + 1) ->
  ((e = -1 - h /\ Zpos m = c1) \/ (e = -1 - h + 1 /\ 2 * Zpos m = c1)) ->
  (c2 = 100 * Zpos m / 2 ^ j \/ c2 = 100 * Zpos m / 2 ^ j + 1) ->
  ((e' = e + j /\ Zpos m' = c2) \/ (e' = e + j + 1 /\ 2 * Zpos m' = c2)) ->
  lo * N < 100 * T < hi * N ->
  e' < 0 /\ lo * 2 ^ (- e') <= 2 * Zpos m' < hi * 2 ^ (- e').
Proof.
  intros HN HT Hh Hj Hgap Hc1 Hm Hc2 Hm' Hk.
  assert (He' : e' < 0) by lia.
  split; [exact He'|].
  pose proof (floor_or_succ_bounds (T * 2 ^ h) N c1 HN Hc1) as B1.
  assert (Hpj : 0 < 2 ^ j) by (apply Z.pow_pos_nonneg; lia).
  pose proof (floor_or_succ_bounds (100 * Zpos m) (2 ^ j) c2 Hpj Hc2) as B2.
  assert (Hph : 0 < 2 ^ h) by (apply Z.pow_pos_nonneg; lia).
  assert (Hj1 : 2 ^ (j + 1) = 2 * 2 ^ j) by (rewrite Z.pow_add_r by lia; lia).
  set (rho := e - (-1 - h)).
  assert (Hrho : (rho = 0 /\ Zpos m = c1) \/ (rho = 1 /\ 2 * Zpos m = c1))
    by (unfold rho; lia).
  set (J := j + rho).
  assert (HJ : 2 ^ J = 2 ^ j * 2 ^ rho) by (unfold J; apply Z.pow_add_r; lia).
  assert (HQ : 0 < 2 ^ J) by (apply Z.pow_pos_nonneg; unfold J; lia).
  assert (B2' : 100 * c1 - 2 ^ J < 2 ^ J * c2 <= 100 * c1 + 2 ^ J).
  { rewrite HJ. destruct Hrho as [[-> <-] | [-> <-]];
      [change (2 ^ 0) with 1 | change (2 ^ 1) with 2]; lia. }
  assert (HgapJ : N * (100 + 2 ^ J) < 2 ^ h).
  { rewrite HJ. destruct Hrho as [[-> _] | [-> _]];
      [change (2 ^ 0) with 1 | change (2 ^ 1) with 2]; nia. }
  pose proof (percentage_between_ties T N lo hi (2 ^ h) (2 ^ J) c1 c2
                HN Hph HQ HgapJ ltac:(lia) B2' Hk) as [Clo Chi].
  set (sigma := e' - (e + j)).
  assert (Hsigma : (sigma = 0 /\ Zpos m' = c2) \/ (sigma = 1 /\ 2 * Zpos m' = c2))
    by (unfold sigma; lia).
  assert (Hexp : 2 ^ (- e') * (2 ^ J * 2 ^ sigma) = 2 * 2 ^ h).
  { rewrite <- !Z.pow_add_r by (unfold J, sigma, rho in *; lia).
    replace (- e' + (J + sigma)) with (Z.succ h) by (unfold J, sigma, rho; lia).
    rewrite Z.pow_succ_r by lia. reflexivity. }
  assert (HD : 0 < 2 ^ (- e')) by (apply Z.pow_pos_nonneg; lia).
  assert (HS : 0 < 2 ^ J * 2 ^ sigma).
  { apply Z.mul_pos_pos; [assumption | apply Z.pow_pos_nonneg; lia]. }
  assert (Hval : Zpos m' * 2 ^ sigma = c2).
  { destruct Hsigma as [[-> <-] | [-> <-]];
      [change (2 ^ 0) with 1 | change (2 ^ 1) with 2]; lia. }
  set (D := 2 ^ (- e')) in *. set (S := 2 ^ J * 2 ^ sigma) in *.
  assert (Hc2S : 2 * Zpos m' * S = 2 * (c2 * 2 ^ J)).
  { unfold S. rewrite <- Hval. ring. }
  clearbody D S. clear - Clo Chi Hexp Hc2S HS.
  split.
  - apply (Z.mul_le_mono_pos_r _ _ S HS).
    rewrite <- (Z.mul_assoc lo D S), Hexp, Hc2S. lia.
  - apply (Z.mul_lt_mono_pos_r S _ _ HS).
    rewrite <- (Z.mul_assoc hi D S), Hexp, Hc2S. lia.
Qed.

End OffTies.


Section ExactScore.

Import JS Spec.

Lemma round_half_up_fraction (a : Z) (b : positive) :
  round_half_up (a # b) = (2 * a + Zpos b) / (2 * Zpos b).
Proof.
  unfold round_half_up, Qfloor, Qplus. cbn [Qnum Qden].
  rewrite Pos2Z.inj_mul. f_equal; lia.
Qed.

Lemma halfway_comp (p q : Q) : (p == q)%Q -> halfway p -> halfway q.
Proof.
  unfold halfway. intros H Hp.
  assert (E : (p + (1 # 2) == q + (1 # 2))%Q)
    by (apply Qplus_comp; [exact H | reflexivity]).
  rewrite <- (Qfloor_comp _ _ E).
  eapply Qeq_trans; [exact Hp | exact E].
Qed.

Lemma halfway_fraction (a : Z) (b : positive) :
  halfway (a # b) <-> 2 * Zpos b * ((2 * a + Zpos b) / (2 * Zpos b)) = 2 * a + Zpos b.
Proof.
  unfold halfway. fold (round_half_up (a # b)). rewrite round_half_up_fraction.
  unfold Qeq, Qplus, inject_Z. cbn [Qnum Qden]. rewrite Pos2Z.inj_mul.
  lia.
Qed.

Lemma exact_percentage_fraction (logs : list LogEntry.t) :
  logs <> [] ->
  (exact_percentage logs
   == 50 * twice_sum logs # Z.to_pos (Z.of_nat (List.length logs) * 10))%Q.
Proof.
  intros Hne. unfold exact_percentage.
  assert (HN : 0 < Z.of_nat (List.length logs) * 10)
    by (destruct logs; [contradiction | cbn [List.length]; lia]).
  set (N := Z.of_nat (List.length logs) * 10) in *.
  rewrite (Qmake_Qdiv (50 * twice_sum logs) (Z.to_pos N)), Z2Pos.id by exact HN.
  rewrite inject_Z_mult, (twice_sum_signed_sum logs).
  assert (Hnz : ~ (inject_Z N == 0)%Q).
  { unfold Qeq, inject_Z. cbn [Qnum Qden]. lia. }
  change (inject_Z 50) with 50%Q. field. exact Hnz.
Qed.

Lemma stored_is_bounded (logs : list LogEntry.t) :
  Forall stored_severity logs -> Forall bounded_severity logs.
Proof.
  apply Forall_impl. intros l H. unfold stored_severity, bounded_severity in *.
  change (2 ^ 20) with 1048576. lia.
Qed.

Lemma twice_sum_stored (logs : list LogEntry.t) :
  Forall stored_severity logs ->
  Z.abs (twice_sum logs) <= 20 * Z.of_nat (List.length logs).
Proof.
  induction 1 as [|l logs Hl _ IH].
  - cbn. lia.
  - rewrite twice_sum_cons.
    change (List.length (l :: logs)) with (S (List.length logs)).
    rewrite Nat2Z.inj_succ.
    unfold stored_severity in Hl. unfold twice_contribution.
    destruct (LogEntry.type l); lia.
Qed.

Lemma exactToxicityScore_nonpositive (logs : list LogEntry.t) :
  twice_sum logs <= 0 -> exactToxicityScore logs = 0.
Proof.
  intros HT. destruct logs as [|l logs']; [reflexivity|].
  set (logs := l :: logs') in *.
  change (exactToxicityScore logs)
    with (round_half_up (Qmax 0 (Qmin 100 (exact_percentage logs)))).
  rewrite round_half_up_clamp.
  assert (Hq : (exact_percentage logs <= 0)%Q).
  { rewrite exact_percentage_fraction by discriminate.
    unfold Qle. cbn [Qnum Qden]. lia. }
  pose proof (round_half_up_mono _ _ Hq) as H.
  change (round_half_up 0) with 0 in H. lia.
Qed.

(** The number the code rounds, for stored entries with a positive
    signed sum: it lies between any two bounds that the exact
    percentage [100 * T / (2 * N)] lies strictly between. *)
Lemma percentage_between (logs : list LogEntry.t) (lo hi : Z) :
  Forall stored_severity logs -> array logs ->
  0 < twice_sum logs ->
  lo * (Z.of_nat (List.length logs) * 10) < 100 * twice_sum logs
    < hi * (Z.of_nat (List.length logs) * 10) ->
  exists m' e',
    percentage logs = S754_finite false m' e'
    /\ e' < 0
    /\ lo * 2 ^ (- e') <= 2 * Zpos m' < hi * 2 ^ (- e').
Proof.
  intros Hst Harr Hpos Hk.
  pose proof (twice_sum_stored logs Hst) as HT.
  unfold percentage. unfold array in Harr.
  set (T := twice_sum logs) in *.
  set (N := Z.of_nat (List.length logs) * 10) in *.
  change (2 ^ 32) with 4294967296 in Harr.
  assert (HN : 0 < N) by (unfold N; lia).
  assert (HNb : N < 42949672960) by (unfold N; lia).
  assert (HTN : T <= 2 * N) by (unfold N; lia).
  clearbody T N. clear Hst HT Harr.
  assert (HTp : 0 < T < 2 ^ prec) by (change (2 ^ prec) with 9007199254740992; lia).
  assert (HNp : 0 < N < 2 ^ prec) by (change (2 ^ prec) with 9007199254740992; lia).
  rewrite dyadic_canon
    by (unfold exp_ok; change (2 ^ prec) with 9007199254740992; lia).
  rewrite (of_Z_canon N) by (change (2 ^ prec) with 9007199254740992; lia).
  destruct (div_canon_faithful T N (-1) 0 HTp HNp)
    as [h [c1 [Hh [Hc1 [Hc1b Hr1]]]]]; try (unfold exp_ok; lia).
  assert (HdTN : Zdigits2 T <= Zdigits2 N + 1).
  { apply Zdigits2_upper; [lia|].
    destruct (Zdigits2_range N ltac:(lia) ltac:(lia)) as [DN _].
    assert (N < 2 ^ Zdigits2 N).
    { destruct N as [|p|p]; try lia. apply digits2_pos_bounds. }
    rewrite Z.pow_add_r by lia. lia. }
  assert (Hh51 : 51 <= h) by (unfold prec in Hh; lia).
  destruct (Zdigits2_range T ltac:(lia) ltac:(lia)) as [DT1 DT2].
  destruct (Zdigits2_range N ltac:(lia) ltac:(lia)) as [DN1 DN2].
  assert (Hh107 : h <= 107) by (unfold prec in *; lia).
  destruct Hr1 as [[_ Hinf] | [m [e [-> [Nm Hme]]]]];
    [unfold emax, prec in Hinf; lia|].
  destruct (mul_100_faithful m e Nm)
    as [j [c2 [Hj [Hc2 [Hc2b Hr2]]]]]; [unfold emin, prec, emax; lia|].
  destruct Hr2 as [[_ Hinf] | [m' [e' [-> [Nm' Hme']]]]];
    [unfold emax, prec in Hinf; lia|].
  assert (Hgap : N * (100 + 2 ^ (j + 1)) < 2 ^ h).
  { assert (2 ^ (j + 1) <= 2 ^ 8) by (apply Z.pow_le_mono_r; lia).
    assert (2 ^ 51 <= 2 ^ h) by (apply Z.pow_le_mono_r; lia).
    change (2 ^ 8) with 256 in *. change (2 ^ 51) with 2251799813685248 in *.
    nia. }
  exists m', e'. split; [reflexivity|].
  apply (roundings_between T N lo hi h j c1 c2 m m' e e'); try assumption; lia.
Qed.

(** The score in the rationals, for stored entries with a positive
    signed sum. *)
Lemma exactToxicityScore_positive (logs : list LogEntry.t) :
  Forall stored_severity logs -> 0 < twice_sum logs ->
  let N := Z.of_nat (List.length logs) * 10 in
  let k := (100 * twice_sum logs + N) / (2 * N) in
  exactToxicityScore logs = k
  /\ 0 <= k <= 100
  /\ (2 * k - 1) * N <= 100 * twice_sum logs < (2 * k + 1) * N
  /\ (halfway (exact_percentage logs) <-> (2 * k - 1) * N = 100 * twice_sum logs).
Proof.
  intros Hst Hpos N k.
  pose proof (twice_sum_stored logs Hst) as HT.
  assert (Hne : logs <> []) by (intros ->; cbn in Hpos; lia).
  assert (HN : 0 < N)
    by (unfold N; destruct logs; [contradiction | cbn [List.length]; lia]).
  pose proof (exact_percentage_fraction logs Hne) as Hfrac. fold N in Hfrac.
  assert (Hk : (2 * k - 1) * N <= 100 * twice_sum logs < (2 * k + 1) * N).
  { pose proof (Z.mul_div_le (100 * twice_sum logs + N) (2 * N) ltac:(lia)) as H1.
    pose proof (Z.mul_succ_div_gt (100 * twice_sum logs + N) (2 * N) ltac:(lia)) as H2.
    fold k in H1, H2. lia. }
  assert (Hk100 : 0 <= k <= 100) by (unfold N in *; nia).
  assert (Hround : round_half_up (50 * twice_sum logs # Z.to_pos N) = k).
  { rewrite round_half_up_fraction, Z2Pos.id by exact HN.
    unfold k. f_equal. lia. }
  split; [|split; [exact Hk100 | split; [exact Hk|]]].
  - destruct logs as [|l logs']; [contradiction|].
    change (exactToxicityScore (l :: logs'))
      with (round_half_up (Qmax 0 (Qmin 100 (exact_percentage (l :: logs'))))).
    rewrite round_half_up_clamp, (round_half_up_comp _ _ Hfrac), Hround. lia.
  - split.
    + intros H. apply (halfway_comp _ _ Hfrac) in H.
      apply halfway_fraction in H. rewrite Z2Pos.id in H by exact HN.
      replace (2 * (50 * twice_sum logs) + N) with (100 * twice_sum logs + N) in H by lia.
      fold k in H. lia.
    + intros H. apply (halfway_comp (50 * twice_sum logs # Z.to_pos N)); [now symmetry|].
      apply halfway_fraction. rewrite Z2Pos.id by exact HN.
      replace (2 * (50 * twice_sum logs) + N) with (100 * twice_sum logs + N) by lia.
      fold k. lia.
Qed.

Lemma computeToxicityScore_nonpositive (logs : list LogEntry.t) :
  Forall stored_severity logs -> array logs ->
  twice_sum logs <= 0 -> computeToxicityScore logs = 0.
Proof.
  intros Hst Harr HT.
  destruct logs as [|l logs']; [reflexivity|].
  set (logs := l :: logs') in *.
  destruct (percentage_shape logs ltac:(discriminate) (stored_is_bounded logs Hst) Harr)
    as [_ [Hsign Hzero]].
  change (computeToxicityScore logs) with (round_half_up (clamp_0_100 (percentage logs))).
  destruct (Z.eq_dec (twice_sum logs) 0) as [E | Hnz].
  - rewrite (Hzero E). reflexivity.
  - apply clamp_round_negative. rewrite Hsign. apply Z.ltb_lt. lia.
Qed.

Lemma computeToxicityScore_of_bounds (logs : list LogEntry.t) (m' : positive) (e' : Z) :
  logs <> [] -> percentage logs = S754_finite false m' e' -> e' < 0 ->
  computeToxicityScore logs = Z.max 0 (Z.min 100 (round_half_up_dyadic (Zpos m') e')).
Proof.
  intros Hne Hp He.
  destruct logs as [|l logs']; [contradiction|].
  change (computeToxicityScore (l :: logs'))
    with (round_half_up (clamp_0_100 (percentage (l :: logs')))).
  rewrite Hp. cbn [clamp_0_100]. rewrite round_half_up_clamp.
  destruct e' as [|kk|kk]; try lia.
  rewrite round_half_up_value. reflexivity.
Qed.

(** Away from the halfway points the two binary64 roundings do not
    change the score: it is the score computed in the rationals. *)
Lemma computeToxicityScore_exact (logs : list LogEntry.t) :
  Forall stored_severity logs -> array logs ->
  ~ halfway (exact_percentage logs) ->
  computeToxicityScore logs = exactToxicityScore logs.
Proof.
  intros Hst Harr Hnot.
  destruct (Z.leb_spec (twice_sum logs) 0) as [Hneg | Hpos].
  - rewrite exactToxicityScore_nonpositive, computeToxicityScore_nonpositive
      by assumption. reflexivity.
  - destruct (exactToxicityScore_positive logs Hst Hpos) as [-> [Hk100 [Hk Hhalf]]].
    set (N := Z.of_nat (List.length logs) * 10) in *.
    set (k := (100 * twice_sum logs + N) / (2 * N)) in *.
    destruct (percentage_between logs (2 * k - 1) (2 * k + 1) Hst Harr Hpos)
      as [m' [e' [Hp [He Hb]]]].
    { fold N. split; [|lia].
      destruct (Z.eq_dec ((2 * k - 1) * N) (100 * twice_sum logs)) as [E | Hne];
        [exfalso; apply Hnot, Hhalf, E | lia]. }
    rewrite (computeToxicityScore_of_bounds logs m' e')
      by (try assumption; intros ->; cbn in Hpos; lia).
    rewrite (round_half_up_dyadic_unique _ _ k He Hb). lia.
Qed.

(** On a halfway point the score is the score computed in the
    rationals or the integer below it. *)
Lemma computeToxicityScore_halfway (logs : list LogEntry.t) :
  Forall stored_severity logs -> array logs ->
  halfway (exact_percentage logs) ->
  computeToxicityScore logs = exactToxicityScore logs
  \/ computeToxicityScore logs = exactToxicityScore logs - 1.
Proof.
  intros Hst Harr Hhw.
  destruct (Z.leb_spec (twice_sum logs) 0) as [Hneg | Hpos].
  - left. rewrite exactToxicityScore_nonpositive, computeToxicityScore_nonpositive
      by assumption. reflexivity.
  - destruct (exactToxicityScore_positive logs Hst Hpos) as [-> [Hk100 [Hk Hhalf]]].
    set (N := Z.of_nat (List.length logs) * 10) in *.
    set (k := (100 * twice_sum logs + N) / (2 * N)) in *.
    apply Hhalf in Hhw.
    assert (HN : 0 < N)
      by (unfold N; destruct logs; [cbn in Hpos; lia | cbn [List.length]; lia]).
    assert (Hk1 : 1 <= k) by nia.
    destruct (percentage_between logs (2 * k - 3) (2 * k + 1) Hst Harr Hpos)
      as [m' [e' [Hp [He Hb]]]]; [fold N; lia|].
    rewrite (computeToxicityScore_of_bounds logs m' e')
      by (try assumption; intros ->; cbn in Hpos; lia).
    destruct (round_half_up_dyadic_between _ _ k He Hb) as [-> | ->]; [right | left]; lia.
Qed.

End ExactScore.


(** ** Facts about the database model *)

Section OrderByFacts.

Context {A : Type} (before : A -> A -> bool).
Hypothesis before_total : forall a b, before a b = true \/ before b a = true.

Lemma insert_sorted_perm (x : A) (l : list A) :
  Permutation (insert_sorted before x l) (x :: l).
Proof.
  induction l as [|y ys IH]; cbn [insert_sorted].
  - apply Permutation_refl.
  - destruct (before y x).
    + eapply perm_trans; [apply perm_skip, IH | apply perm_swap].
    + apply Permutation_refl.
Qed.

Lemma order_by_perm (l : list A) : Permutation (order_by before l) l.
Proof.
  unfold order_by.
  apply perm_trans with (rev l); [|apply Permutation_sym, Permutation_rev].
  induction (rev l) as [|x xs IH]; cbn [fold_right].
  - apply perm_nil.
  - eapply perm_trans; [apply insert_sorted_perm | apply perm_skip, IH].
Qed.

Lemma insert_sorted_hd (R : A -> A -> Prop) (a x : A) (l : list A) :
  R a x -> HdRel R a l -> HdRel R a (insert_sorted before x l).
Proof.
  intros Hax Hl. destruct l as [|y ys]; cbn [insert_sorted].
  - now constructor.
  - inversion Hl; subst. destruct (before y x); now constructor.
Qed.

Lemma insert_sorted_sorted (x : A) (l : list A) :
  Sorted (fun a b => before a b = true) l ->
  Sorted (fun a b => before a b = true) (insert_sorted before x l).
Proof.
  induction l as [|y ys IH]; intros Hs; cbn [insert_sorted].
  - repeat constructor.
  - inversion Hs as [|? ? Hys Hhd]; subst.
    destruct (before y x) eqn:Eyx.
    + constructor; [now apply IH | now apply insert_sorted_hd].
    + constructor; [assumption|]. constructor.
      destruct (before_total x y); congruence.
Qed.

Lemma order_by_sorted (l : list A) :
  Sorted (fun a b => before a b = true) (order_by before l).
Proof.
  unfold order_by. induction (rev l) as [|x xs IH]; cbn [fold_right].
  - constructor.
  - now apply insert_sorted_sorted.
Qed.

Lemma order_by_length (l : list A) : List.length (order_by before l) = List.length l.
Proof. apply Permutation_length, order_by_perm. Qed.

Lemma order_by_nil_iff (l : list A) : order_by before l = [] <-> l = [].
Proof.
  split; intros H.
  - apply length_zero_iff_nil. rewrite <- order_by_length, H. reflexivity.
  - subst. reflexivity.
Qed.

End OrderByFacts.

Section MonadFacts.

Lemma bind_ok {A B : Type} (m : App A) (k : A -> App B) (w w' : World) (a : A) :
  m w = (Ok a, w') -> bind m k w = k a w'.
Proof. intros H. unfold bind. now rewrite H. Qed.

Lemma bind_err {A B : Type} (m : App A) (k : A -> App B) (w w' : World) (e : Error) :
  m w = (Err e, w') -> bind m k w = (Err e, w').
Proof. intros H. unfold bind. now rewrite H. Qed.

Lemma getDatabase_open (w : World) (database : SQLiteDatabase) :
  db w = Some database -> Db.getDatabase w = (Ok database, w).
Proof. intros H. unfold Db.getDatabase. now rewrite H. Qed.

Lemma set_file_same (w : World) : set_file (file w) w = w.
Proof. destruct w; reflexivity. Qed.

End MonadFacts.


Section Migration.

Import Model.

Lemma existsb_false_filter {A : Type} (f : A -> bool) (l : list A) :
  existsb f l = false <-> filter f l = [].
Proof.
  induction l as [|x xs IH]; cbn; [tauto|].
  destruct (f x); cbn; [split; discriminate | exact IH].
Qed.

Lemma insert_profile_fresh (name relationship created_at : string) (t : Tables) :
  select_profile_ids_by_name name t = [] ->
  insert_profile name relationship created_at t
  = Ok (next_rowid (profiles_seq t) (map Profile.id (profiles t)),
        {| profiles := profiles t
                       ++ [Profile.mk (next_rowid (profiles_seq t) (map Profile.id (profiles t)))
                                      name relationship created_at];
           logs := logs t;
           profiles_seq := next_rowid (profiles_seq t) (map Profile.id (profiles t));
           logs_seq := logs_seq t |}).
Proof.
  unfold select_profile_ids_by_name, insert_profile. intros H.
  apply map_eq_nil in H. apply existsb_false_filter in H. now rewrite H.
Qed.

Lemma migrate_people_cons (database : SQLiteDatabase) (person : string)
    (rest : list string) (w : World) :
  Db.migrate_people database (person :: rest) w
  = Db.migrate_people database rest (link_person person w).
Proof.
  cbn [Db.migrate_people]. unfold link_person, bind, getAllAsync.
  destruct (select_profile_ids_by_name person (file w)) as [|profileId ids] eqn:E.
  - unfold Date_toISOString, runAsync_insert. cbn [file].
    rewrite insert_profile_fresh by assumption.
    unfold runAsync, set_file. cbn [file db clock reads]. reflexivity.
  - unfold ret, runAsync. reflexivity.
Qed.

Lemma migrate_people_run (database : SQLiteDatabase) (people : list string) (w : World) :
  Db.migrate_people database people w
  = (Ok tt, fold_left (fun w person => link_person person w) people w).
Proof.
  revert w. induction people as [|person rest IH]; intros w.
  - reflexivity.
  - rewrite migrate_people_cons, IH. reflexivity.
Qed.

(** What one iteration does to the [logs] table. *)
Lemma link_person_logs (person : string) (w : World) :
  exists k,
    logs (file (link_person person w))
    = map (fun l => if (LogEntry.person l =? person)%string
                       && is_null (LogEntry.profile_id l)
                    then set_profile_id (Some k) l else l)
          (logs (file w)).
Proof.
  unfold link_person.
  destruct (select_profile_ids_by_name person (file w)) as [|profileId ids].
  - eexists. reflexivity.
  - exists profileId. reflexivity.
Qed.

Lemma link_person_unlinked (person : string) (w : World) (l : LogEntry.t) :
  In l (filter unlinked (logs (file (link_person person w)))) ->
  In l (filter unlinked (logs (file w))) /\ LogEntry.person l <> person.
Proof.
  destruct (link_person_logs person w) as [k ->].
  rewrite !filter_In, in_map_iff.
  intros [[l0 [Hl0 Hin]] Hun].
  destruct ((LogEntry.person l0 =? person)%string
            && is_null (LogEntry.profile_id l0)) eqn:E.
  - subst l. discriminate Hun.
  - subst l0. repeat split; try assumption.
    unfold unlinked in Hun. rewrite Hun, andb_true_r in E.
    now apply String.eqb_neq.
Qed.

Lemma migrate_fold_unlinked (people : list string) (w : World) (l : LogEntry.t) :
  In l (filter unlinked
          (logs (file (fold_left (fun w person => link_person person w) people w)))) ->
  In l (filter unlinked (logs (file w))) /\ ~ In (LogEntry.person l) people.
Proof.
  revert w. induction people as [|person rest IH]; intros w H.
  - cbn in *. tauto.
  - cbn [fold_left] in H. apply IH in H. destruct H as [H Hrest].
    apply link_person_unlinked in H. destruct H as [H Hp].
    split; [assumption|]. cbn [In]. intros [E | E]; [now symmetry in E | contradiction].
Qed.

Lemma In_distinct (x : string) (l : list string) : In x (distinct l) <-> In x l.
Proof.
  induction l as [|y ys IH]; cbn [distinct In]; [tauto|].
  rewrite filter_In, IH. split.
  - intros [E | [H _]]; auto.
  - intros [E | H]; [now left|].
    destruct (String.eqb_spec x y) as [-> | Hne]; [now left | right].
    split; [assumption | reflexivity].
Qed.

(** After the loop no row is left without a profile reference. *)
Lemma migrate_fold_all_linked (w : World) :
  filter unlinked
    (logs (file (fold_left (fun w person => link_person person w)
                           (select_unlinked_people (file w)) w)))
  = [].
Proof.
  destruct (filter unlinked (logs (file (fold_left _ _ w)))) as [|l ls] eqn:E;
    [reflexivity | exfalso].
  assert (Hin : In l (l :: ls)) by now left.
  rewrite <- E in Hin. apply migrate_fold_unlinked in Hin. destruct Hin as [Hin Hnot].
  apply Hnot. unfold select_unlinked_people. apply In_distinct.
  apply in_map. exact Hin.
Qed.

Lemma keeps_linked_refl (l : LogEntry.t) : keeps_linked l l.
Proof. split; auto. Qed.

Lemma keeps_linked_trans (a b c : LogEntry.t) :
  keeps_linked a b -> keeps_linked b c -> keeps_linked a c.
Proof.
  intros [H1 H2] [H3 H4]. split.
  - intros Ha. specialize (H1 Ha). subst b. auto.
  - congruence.
Qed.

Lemma Forall2_map_r {A : Type} (R : A -> A -> Prop) (g : A -> A) (l : list A) :
  (forall x, R x (g x)) -> Forall2 R l (map g l).
Proof. intros H. induction l; cbn; constructor; auto. Qed.

Lemma Forall2_trans {A : Type} (R : A -> A -> Prop) (l1 l2 l3 : list A) :
  (forall a b c, R a b -> R b c -> R a c) ->
  Forall2 R l1 l2 -> Forall2 R l2 l3 -> Forall2 R l1 l3.
Proof.
  intros HR H12. revert l3. induction H12; intros l3 H23; inversion H23; subst.
  - constructor.
  - constructor; eauto.
Qed.

Lemma link_person_keeps_linked (person : string) (w : World) :
  Forall2 keeps_linked (logs (file w)) (logs (file (link_person person w))).
Proof.
  destruct (link_person_logs person w) as [k ->].
  apply Forall2_map_r. intros l.
  destruct ((LogEntry.person l =? person)%string && is_null (LogEntry.profile_id l)) eqn:E.
  - apply andb_prop in E. destruct E as [_ E].
    split; [|reflexivity].
    destruct (LogEntry.profile_id l); [discriminate | congruence].
  - apply keeps_linked_refl.
Qed.

Lemma migrate_fold_keeps_linked (people : list string) (w : World) :
  Forall2 keeps_linked (logs (file w))
    (logs (file (fold_left (fun w person => link_person person w) people w))).
Proof.
  revert w. induction people as [|person rest IH]; intros w; cbn [fold_left].
  - rewrite <- (map_id (logs (file w))) at 2.
    apply Forall2_map_r, keeps_linked_refl.
  - eapply Forall2_trans;
      [exact keeps_linked_trans | apply link_person_keeps_linked | apply IH].
Qed.

Lemma NoDup_app_one {A : Type} (x : A) (l : list A) :
  NoDup l -> ~ In x l -> NoDup (l ++ [x]).
Proof.
  intros Hl Hx. apply NoDup_rev in Hl.
  rewrite <- (rev_involutive (l ++ [x])). apply NoDup_rev.
  rewrite rev_app_distr. cbn. constructor; [|assumption].
  now rewrite <- in_rev.
Qed.

Lemma link_person_profiles (person : string) (w : World) :
  NoDup (map Profile.name (profiles (file w))) ->
  NoDup (map Profile.name (profiles (file (link_person person w)))).
Proof.
  intros Hnd. unfold link_person.
  destruct (select_profile_ids_by_name person (file w)) as [|profileId ids] eqn:E.
  - cbn [file link_logs profiles]. rewrite map_app. cbn [map Profile.name].
    apply NoDup_app_one; [assumption|].
    unfold select_profile_ids_by_name in E. apply map_eq_nil in E.
    intros Hin. apply in_map_iff in Hin. destruct Hin as [p [Hp Hin]].
    assert (Hf : In p (filter (fun p => (Profile.name p =? person)%string)
                              (profiles (file w)))).
    { apply filter_In. split; [assumption | now apply String.eqb_eq]. }
    now rewrite E in Hf.
  - exact Hnd.
Qed.

Lemma migrate_fold_profiles (people : list string) (w : World) :
  NoDup (map Profile.name (profiles (file w))) ->
  NoDup (map Profile.name
           (profiles (file (fold_left (fun w person => link_person person w) people w)))).
Proof.
  revert w. induction people as [|person rest IH]; intros w H; cbn [fold_left].
  - exact H.
  - apply IH. now apply link_person_profiles.
Qed.

(** The result of the whole procedure. *)
Lemma migrateExistingData_run (database : SQLiteDatabase) (w : World) :
  Db.migrateExistingData database w
  = (Ok tt,
     match select_unlinked_people (file w) with
     | [] => w
     | people => fold_left (fun w person => link_person person w) people w
     end).
Proof.
  unfold Db.migrateExistingData, bind, getAllAsync.
  destruct (select_unlinked_people (file w)) as [|p ps] eqn:E.
  - reflexivity.
  - cbn [firstn List.length Nat.eqb]. rewrite E. apply migrate_people_run.
Qed.

Lemma migrateExistingData_all_linked (database : SQLiteDatabase) (w : World) :
  select_unlinked_people (file (snd (Db.migrateExistingData database w))) = [].
Proof.
  rewrite migrateExistingData_run. cbn [snd].
  destruct (select_unlinked_people (file w)) as [|p ps] eqn:E; [exact E|].
  rewrite <- E. unfold select_unlinked_people at 1.
  fold unlinked. rewrite migrate_fold_all_linked. reflexivity.
Qed.

End Migration.


Section Queries.

Import Model.

Lemma Sorted_firstn {A : Type} (R : A -> A -> Prop) (n : nat) (l : list A) :
  Sorted R l -> Sorted R (firstn n l).
Proof.
  revert l. induction n as [|n IH]; intros l Hs; [constructor|].
  destruct l as [|x xs]; [constructor|].
  inversion Hs as [|? ? Hxs Hhd]; subst. cbn [firstn].
  constructor; [now apply IH|].
  destruct xs as [|y ys]; [destruct n; constructor|].
  destruct n; cbn [firstn]; constructor. now inversion Hhd.
Qed.

Lemma Sorted_impl {A : Type} (R S : A -> A -> Prop) (l : list A) :
  (forall a b, R a b -> S a b) -> Sorted R l -> Sorted S l.
Proof.
  intros HRS. induction 1 as [|x xs Hxs IH Hhd]; constructor; [assumption|].
  destruct Hhd; constructor; auto.
Qed.

Lemma In_firstn {A : Type} (n : nat) (l : list A) (x : A) :
  In x (firstn n l) -> In x l.
Proof.
  revert l. induction n as [|n IH]; intros [|y ys] H; cbn in *; try contradiction.
  destruct H; [now left | right; auto].
Qed.

Lemma newer_or_same_total (a b : LogEntry.t) :
  newer_or_same a b = true \/ newer_or_same b a = true.
Proof. unfold newer_or_same. apply String.leb_total. Qed.

Lemma more_or_same_flags_total (a b : TopProfile.t) :
  more_or_same_flags a b = true \/ more_or_same_flags b a = true.
Proof. unfold more_or_same_flags. rewrite !Z.leb_le. lia. Qed.

Lemma select_logs_by_profile_id_spec (profileId : Z) (t : Tables) :
  Permutation (select_logs_by_profile_id profileId t)
              (filter (fun l => id_eqb (LogEntry.profile_id l) profileId) (logs t))
  /\ newest_first (select_logs_by_profile_id profileId t).
Proof.
  split; [apply order_by_perm|].
  unfold newest_first, select_logs_by_profile_id.
  apply (order_by_sorted newer_or_same newer_or_same_total).
Qed.

Lemma select_logs_by_person_spec (person : string) (t : Tables) :
  Permutation (select_logs_by_person person t)
              (filter (fun l => (LogEntry.person l =? person)%string) (logs t))
  /\ newest_first (select_logs_by_person person t).
Proof.
  split; [apply order_by_perm|].
  unfold newest_first, select_logs_by_person.
  apply (order_by_sorted newer_or_same newer_or_same_total).
Qed.

Lemma listLogsForProfile_newest_first (p : Profile.t) (t : Tables) :
  newest_first (listLogsForProfile p t).
Proof.
  unfold listLogsForProfile.
  destruct (select_logs_by_profile_id (Profile.id p) t) eqn:E.
  - apply select_logs_by_person_spec.
  - rewrite <- E. apply select_logs_by_profile_id_spec.
Qed.

Lemma select_top_profiles_spec (on : Profile.t -> LogEntry.t -> bool)
    (limit : nat) (t : Tables) :
  descending_by_count (select_top_profiles on limit t)
  /\ Forall (fun r => 0 < TopProfile.flagCount r
                      /\ exists p, In p (profiles t)
                                   /\ r = TopProfile.mk (Profile.id p) (Profile.name p)
                                                        (flag_count on t p))
            (select_top_profiles on limit t)
  /\ List.length (select_top_profiles on limit t)
     = Nat.min limit
         (List.length (filter (fun p => 0 <? flag_count on t p) (profiles t))).
Proof.
  unfold select_top_profiles.
  set (rows := filter _ (map _ (profiles t))).
  repeat split.
  - unfold descending_by_count. apply Sorted_firstn.
    eapply Sorted_impl; [|apply (order_by_sorted _ more_or_same_flags_total)].
    intros a b H. unfold more_or_same_flags in H. now apply Z.leb_le.
  - apply Forall_forall. intros r Hr.
    apply In_firstn in Hr.
    apply (Permutation_in _ (order_by_perm more_or_same_flags rows)) in Hr.
    unfold rows in Hr. apply filter_In in Hr. destruct Hr as [Hr Hpos].
    apply in_map_iff in Hr. destruct Hr as [p [<- Hp]].
    split; [now apply Z.ltb_lt | eauto].
  - rewrite length_firstn, order_by_length. f_equal.
    unfold rows. clear rows.
    induction (profiles t) as [|p ps IH]; [reflexivity|].
    cbn [map filter TopProfile.flagCount].
    destruct (0 <? flag_count on t p); cbn [List.length]; now rewrite IH.
Qed.

Lemma fold_right_max_ge (ids : list Z) (i : Z) :
  In i ids -> i <= fold_right Z.max 0 ids.
Proof.
  induction ids as [|x xs IH]; cbn [In fold_right]; [contradiction|].
  intros [-> | H]; [lia | specialize (IH H); lia].
Qed.

Lemma next_rowid_fresh (seq : Z) (ids : list Z) :
  ~ In (next_rowid seq ids) ids /\ seq < next_rowid seq ids /\ 0 < next_rowid seq ids.
Proof.
  unfold next_rowid. split; [|split].
  - intros H. apply fold_right_max_ge in H. lia.
  - lia.
  - assert (0 <= fold_right Z.max 0 ids) by (induction ids; cbn; lia). lia.
Qed.

Lemma parse_type_valid (s : string) (ty : LogType) :
  parse_type s = Some ty ->
  (s = "GREEN" /\ ty = GREEN)%string
  \/ (s = "YELLOW" /\ ty = YELLOW)%string
  \/ (s = "RED" /\ ty = RED)%string.
Proof.
  unfold parse_type.
  destruct (String.eqb_spec s "GREEN"%string); [intros [= <-]; auto|].
  destruct (String.eqb_spec s "YELLOW"%string); [intros [= <-]; auto|].
  destruct (String.eqb_spec s "RED"%string); [intros [= <-]; auto|].
  discriminate.
Qed.

Lemma parse_type_invalid (s : string) :
  parse_type s = None <-> (s <> "GREEN" /\ s <> "YELLOW" /\ s <> "RED")%string.
Proof.
  unfold parse_type.
  destruct (String.eqb_spec s "GREEN"%string); [split; [discriminate | tauto]|].
  destruct (String.eqb_spec s "YELLOW"%string); [split; [discriminate | tauto]|].
  destruct (String.eqb_spec s "RED"%string); [split; [discriminate | tauto]|].
  tauto.
Qed.

End Queries.


(** ** More facts about ORDER BY *)

Section StringOrder.

Lemma Ascii_compare_N (a b : ascii) :
  Ascii.compare a b = N.compare (N_of_ascii a) (N_of_ascii b).
Proof. reflexivity. Qed.

Lemma String_compare_cons (a b : ascii) (s t : string) :
  String.compare (String a s) (String b t)
  = match Ascii.compare a b with
    | Eq => String.compare s t
    | c => c
    end.
Proof. cbn [String.compare]. destruct (Ascii.compare a b); reflexivity. Qed.

Lemma String_leb_trans (a b c : string) :
  String.leb a b = true -> String.leb b c = true -> String.leb a c = true.
Proof.
  unfold String.leb. revert b c.
  induction a as [|x a IH]; intros [|y b] [|z c]; cbn [String.compare];
    try reflexivity; try discriminate.
  fold (String.compare a b) (String.compare b c) (String.compare a c).
  rewrite !Ascii_compare_N.
  destruct (N.compare_spec (N_of_ascii x) (N_of_ascii y)) as [Exy | Lxy | Gxy];
    try discriminate;
    destruct (N.compare_spec (N_of_ascii y) (N_of_ascii z)) as [Eyz | Lyz | Gyz];
    try discriminate.
  - rewrite Exy, Eyz, N.compare_refl. apply IH.
  - intros _ _. rewrite Exy. now apply N.compare_lt_iff in Lyz as ->.
  - intros _ _. rewrite <- Eyz. now apply N.compare_lt_iff in Lxy as ->.
  - intros _ _. assert (H : (N_of_ascii x < N_of_ascii z)%N) by lia.
    now apply N.compare_lt_iff in H as ->.
Qed.

Lemma String_leb_refl (a : string) : String.leb a a = true.
Proof. destruct (String.leb_total a a); assumption. Qed.

Lemma newer_or_same_trans (a b c : LogEntry.t) :
  newer_or_same a b = true -> newer_or_same b c = true -> newer_or_same a c = true.
Proof. unfold newer_or_same. intros H1 H2. exact (String_leb_trans _ _ _ H2 H1). Qed.

Lemma name_before_or_same_total (a b : Profile.t) :
  name_before_or_same a b = true \/ name_before_or_same b a = true.
Proof. apply String.leb_total. Qed.

End StringOrder.

Section OrderByMore.

Context {A : Type} (before : A -> A -> bool).
Hypothesis before_total : forall a b, before a b = true \/ before b a = true.
Hypothesis before_trans :
  forall a b c, before a b = true -> before b c = true -> before a c = true.

Lemma order_by_strongly_sorted (l : list A) :
  StronglySorted (fun a b => before a b = true) (order_by before l).
Proof.
  apply Sorted_StronglySorted; [|now apply order_by_sorted].
  intros a b c. apply before_trans.
Qed.

Lemma insert_sorted_front (x : A) (l : list A) :
  Forall (fun z => before z x = false) l -> insert_sorted before x l = x :: l.
Proof.
  intros H. destruct l as [|y ys]; [reflexivity|].
  cbn [insert_sorted]. inversion H; subst. now rewrite H2.
Qed.

Lemma insert_sorted_filter (p : A -> bool) (x : A) (l : list A) :
  StronglySorted (fun a b => before a b = true) l ->
  filter p (insert_sorted before x l)
  = if p x then insert_sorted before x (filter p l) else filter p l.
Proof.
  induction 1 as [|y ys Hys IH Hall]; cbn [insert_sorted filter].
  - destruct (p x); reflexivity.
  - destruct (before y x) eqn:Eyx; cbn [filter].
    + rewrite IH. destruct (p y), (p x); cbn [insert_sorted]; try reflexivity.
      now rewrite Eyx.
    + destruct (p x); [|reflexivity].
      rewrite insert_sorted_front; [reflexivity|].
      assert (Hback : Forall (fun z => before z x = false) (y :: ys)).
      { constructor; [assumption|].
        eapply Forall_impl; [|exact Hall]. intros z Hyz.
        destruct (before z x) eqn:Ezx; [|reflexivity].
        rewrite (before_trans _ _ _ Hyz Ezx) in Eyx. discriminate. }
      apply Forall_forall. intros z Hz.
      rewrite Forall_forall in Hback. apply Hback.
      change (In z (filter p (y :: ys))) in Hz.
      apply filter_In in Hz. tauto.
Qed.

(** WHERE and ORDER BY commute. *)
Lemma order_by_filter (p : A -> bool) (l : list A) :
  filter p (order_by before l) = order_by before (filter p l).
Proof.
  unfold order_by. rewrite <- filter_rev.
  induction (rev l) as [|x xs IH]; [reflexivity|].
  cbn [fold_right filter].
  rewrite insert_sorted_filter.
  - rewrite IH. destruct (p x); reflexivity.
  - rewrite <- (rev_involutive xs).
    apply order_by_strongly_sorted.
Qed.

(** The first row of a sorted result is before every row. *)
Lemma order_by_first (l : list A) (x : A) (xs : list A) :
  order_by before l = x :: xs -> forall y, In y l -> before x y = true.
Proof.
  intros E y Hy.
  pose proof (order_by_strongly_sorted l) as Hs. rewrite E in Hs.
  apply (Permutation_in _ (Permutation_sym (order_by_perm before l))) in Hy.
  rewrite E in Hy. inversion Hs as [|? ? _ Hall]; subst.
  destruct Hy as [<- | Hy].
  - destruct (before_total x x); assumption.
  - rewrite Forall_forall in Hall. now apply Hall.
Qed.

End OrderByMore.

Section OrderByMap.

Context {A : Type} (before : A -> A -> bool) (f : A -> A).
Hypothesis f_keeps : forall a b, before (f a) (f b) = before a b.

Lemma insert_sorted_map (x : A) (l : list A) :
  map f (insert_sorted before x l) = insert_sorted before (f x) (map f l).
Proof.
  induction l as [|y ys IH]; [reflexivity|].
  cbn [insert_sorted map]. rewrite f_keeps.
  destruct (before y x); cbn [map]; [now rewrite IH | reflexivity].
Qed.

(** An UPDATE that leaves the sort key alone commutes with ORDER BY. *)
Lemma order_by_map (l : list A) :
  map f (order_by before l) = order_by before (map f l).
Proof.
  unfold order_by. rewrite <- map_rev.
  induction (rev l) as [|x xs IH]; [reflexivity|].
  cbn [fold_right map]. now rewrite insert_sorted_map, IH.
Qed.

End OrderByMap.


(** ** The rows of the watchlist query *)

Section TopRows.

Import Model.

Lemma more_or_same_flags_trans (a b c : TopProfile.t) :
  more_or_same_flags a b = true -> more_or_same_flags b c = true ->
  more_or_same_flags a c = true.
Proof. unfold more_or_same_flags. rewrite !Z.leb_le. lia. Qed.

Lemma sorted_prefix_before {A : Type} (R : A -> A -> Prop) (front back : list A) :
  StronglySorted R (front ++ back) ->
  forall x y, In x front -> In y back -> R x y.
Proof.
  induction front as [|a front IH]; intros Hs x y Hx Hy; [contradiction|].
  cbn [app] in Hs. inversion Hs as [|? ? Hrest Hall]; subst.
  destruct Hx as [<- | Hx].
  - rewrite Forall_forall in Hall. apply Hall, in_or_app. now right.
  - now apply IH.
Qed.

Lemma select_top_profiles_top_rows (on : Profile.t -> LogEntry.t -> bool)
    (limit : nat) (t : Tables) :
  top_rows limit t (fun p => filter (on p) (logs t)) (select_top_profiles on limit t).
Proof.
  destruct (select_top_profiles_spec on limit t) as [Hsorted [Hall Hlen]].
  unfold top_rows.
  split; [exact Hsorted|]. split; [rewrite Hlen; apply Nat.le_min_l|].
  split; [exact Hlen|]. split.
  - eapply Forall_impl; [|exact Hall]. cbn beta.
    intros r [Hpos [p [Hp ->]]]. exists p. split; [assumption|].
    split; [|reflexivity].
    cbn [TopProfile.flagCount] in Hpos. unfold flag_count in Hpos.
    intros E. rewrite E in Hpos. cbn in Hpos. lia.
  - intros p Hp Hlogs.
    set (row := TopProfile.mk (Profile.id p) (Profile.name p)
                              (Z.of_nat (List.length (filter (on p) (logs t))))).
    unfold select_top_profiles in *.
    set (base := filter (fun r => 0 <? TopProfile.flagCount r)
                        (map (fun p => TopProfile.mk (Profile.id p) (Profile.name p)
                                                     (flag_count on t p))
                             (profiles t))) in *.
    set (all := order_by more_or_same_flags base) in *.
    assert (Hin : In row all).
    { apply (Permutation_in _ (Permutation_sym (order_by_perm more_or_same_flags base))).
      apply filter_In. split.
      - apply in_map_iff. exists p. split; [reflexivity | assumption].
      - apply Z.ltb_lt. cbn [row TopProfile.flagCount].
        destruct (filter (on p) (logs t)); [contradiction | cbn [List.length]; lia]. }
    rewrite <- (firstn_skipn limit all) in Hin. apply in_app_or in Hin.
    destruct Hin as [Hin | Hin]; [now left | right].
    assert (Hlong : (limit < List.length all)%nat).
    { destruct (Nat.lt_ge_cases limit (List.length all)) as [H | H]; [exact H|].
      rewrite skipn_all2 in Hin by exact H. contradiction. }
    split; [rewrite length_firstn; lia|].
    apply Forall_forall. intros r Hr.
    pose proof (order_by_strongly_sorted more_or_same_flags more_or_same_flags_total
                  more_or_same_flags_trans base) as Hs.
    fold all in Hs. rewrite <- (firstn_skipn limit all) in Hs.
    pose proof (sorted_prefix_before _ _ _ Hs r row Hr Hin) as Hle.
    unfold more_or_same_flags in Hle. apply Z.leb_le in Hle. exact Hle.
Qed.

Lemma no_referencing_rows (limit : nat) (t : Tables) :
  select_top_profiles on_profile_id limit t = [] ->
  limit = 0%nat \/ Forall (fun p => referencing t p = []) (profiles t).
Proof.
  intros E.
  destruct (select_top_profiles_spec on_profile_id limit t) as [_ [_ Hlen]].
  rewrite E in Hlen. cbn [List.length] in Hlen.
  destruct limit as [|n]; [now left | right].
  destruct (filter (fun p => 0 <? flag_count on_profile_id t p) (profiles t))
    as [|q qs] eqn:F; [|discriminate].
  apply Forall_forall. intros p Hp.
  assert (Hzero : (0 <? flag_count on_profile_id t p) = false).
  { destruct (0 <? flag_count on_profile_id t p) eqn:Epos; [|reflexivity].
    assert (Hin : In p (filter (fun p => 0 <? flag_count on_profile_id t p)
                               (profiles t)))
      by (apply filter_In; split; assumption).
    rewrite F in Hin. contradiction. }
  apply Z.ltb_ge in Hzero. unfold flag_count in Hzero.
  change (filter (on_profile_id p) (logs t)) with (referencing t p) in Hzero.
  destruct (referencing t p); [reflexivity | cbn [List.length] in Hzero; lia].
Qed.

End TopRows.


(** ** The persistence layer: results *)

Section Persistence.

Import Model.

(** C3. The migration procedure is idempotent: on every database
    state, running it twice ends in the state that running it once
    ends in.  The first run succeeds and leaves no log row without a
    profile reference, so the second run stops at its detection step
    and changes nothing; rows whose reference was already set are
    not touched, and profile names stay distinct. *)
Theorem migrateExistingData_idempotent (database : SQLiteDatabase) (w : World) :
  (Db.migrateExistingData database ;;; Db.migrateExistingData database) w
  = Db.migrateExistingData database w
  /\ (exists w1,
        Db.migrateExistingData database w = (Ok tt, w1)
        /\ select_unlinked_people (file w1) = []
        /\ Db.migrateExistingData database w1 = (Ok tt, w1)
        /\ Forall2 keeps_linked (logs (file w)) (logs (file w1))
        /\ (NoDup (map Profile.name (profiles (file w))) ->
            NoDup (map Profile.name (profiles (file w1))))).
Proof.
  pose proof (migrateExistingData_all_linked database w) as Hnone.
  set (w1 := snd (Db.migrateExistingData database w)) in *.
  assert (Hrun : Db.migrateExistingData database w = (Ok tt, w1))
    by (unfold w1; rewrite migrateExistingData_run; reflexivity).
  assert (Hagain : Db.migrateExistingData database w1 = (Ok tt, w1))
    by (rewrite migrateExistingData_run, Hnone; reflexivity).
  split.
  - unfold bind at 1. rewrite Hrun, Hagain. reflexivity.
  - exists w1. repeat split; try assumption.
    + unfold w1. rewrite migrateExistingData_run. cbn [snd].
      destruct (select_unlinked_people (file w)).
      * rewrite <- (map_id (logs (file w))) at 2.
        apply Forall2_map_r, keeps_linked_refl.
      * apply migrate_fold_keeps_linked.
    + intros Hnd. unfold w1. rewrite migrateExistingData_run. cbn [snd].
      destruct (select_unlinked_people (file w)).
      * exact Hnd.
      * now apply migrate_fold_profiles.
Qed.

Lemma migrateExistingData_idempotent_witness :
  NoDup (map Profile.name (profiles (file Example.legacy)))
  /\ exists w1,
       Db.migrateExistingData openDatabase Example.legacy = (Ok tt, w1)
       /\ NoDup (map Profile.name (profiles (file w1))).
Proof.
  assert (Hnd : NoDup (map Profile.name (profiles (file Example.legacy)))).
  { cbn. constructor; [intros [] | constructor]. }
  split; [exact Hnd|].
  destruct (migrateExistingData_idempotent openDatabase Example.legacy)
    as [_ [w1 [Hrun [_ [_ [_ Hnames]]]]]].
  exists w1. split; [exact Hrun | exact (Hnames Hnd)].
Defined.

(** The connection the code runs on is the one [getDatabase] opened. *)
Lemma run_on_open {A : Type} (k : SQLiteDatabase -> App A) (w : World)
    (database : SQLiteDatabase) :
  db w = Some database -> bind Db.getDatabase k w = k database w.
Proof. intros H. apply bind_ok. now apply getDatabase_open. Qed.

Lemma existsb_name (name : string) (ps : list Profile.t) :
  existsb (fun p => (Profile.name p =? name)%string) ps = true
  <-> In name (map Profile.name ps).
Proof.
  rewrite existsb_exists, in_map_iff. split; intros [p [H1 H2]]; exists p.
  - split; [now apply String.eqb_eq | assumption].
  - split; [assumption | now apply String.eqb_eq].
Qed.

(** C4, as the code has it.  [getLogsByProfileId] returns exactly the
    log rows whose profile reference is the given id, newest first,
    and never falls back to the name.  The dual-path lookup is the
    one in [ProfileDetailScreen.fetchProfileData]: the rows found by
    reference, and if and only if there are none, the rows whose
    denormalized name is the profile's current name, newest first. *)
Theorem getLogsByProfileId_by_reference_only (w : World) (database : SQLiteDatabase)
    (profileId : Z) :
  db w = Some database ->
  (exists rows,
      Db.getLogsByProfileId profileId w = (Ok rows, w)
      /\ Permutation rows
           (filter (fun l => id_eqb (LogEntry.profile_id l) profileId) (logs (file w)))
      /\ newest_first rows)
  /\ (forall p rest,
        select_profiles_by_id profileId (file w) = p :: rest ->
        ProfileDetailScreen.fetchProfileData profileId w
        = (Ok (Some p, listLogsForProfile p (file w)), w)
        /\ Profile.id p = profileId
        /\ newest_first (listLogsForProfile p (file w))
        /\ (select_logs_by_profile_id profileId (file w) <> [] ->
            listLogsForProfile p (file w) = select_logs_by_profile_id profileId (file w))
        /\ (select_logs_by_profile_id profileId (file w) = [] ->
            Permutation (listLogsForProfile p (file w))
              (filter (fun l => (LogEntry.person l =? Profile.name p)%string)
                      (logs (file w))))).
Proof.
  intros Hopen. split.
  - exists (select_logs_by_profile_id profileId (file w)).
    split; [|apply select_logs_by_profile_id_spec].
    unfold Db.getLogsByProfileId. now rewrite (run_on_open _ w database).
  - intros p rest Hp.
    assert (Hid : Profile.id p = profileId).
    { assert (Hin : In p (select_profiles_by_id profileId (file w)))
        by (rewrite Hp; now left).
      unfold select_profiles_by_id in Hin. apply filter_In in Hin.
      now apply Z.eqb_eq. }
    repeat split.
    + unfold ProfileDetailScreen.fetchProfileData.
      rewrite (run_on_open _ w database) by assumption.
      unfold bind, getAllAsync, ret. rewrite Hp.
      unfold listLogsForProfile. rewrite Hid.
      destruct (select_logs_by_profile_id profileId (file w)); reflexivity.
    + exact Hid.
    + apply listLogsForProfile_newest_first.
    + intros Hne. unfold listLogsForProfile. rewrite Hid.
      destruct (select_logs_by_profile_id profileId (file w)); [contradiction | reflexivity].
    + intros Hnil. unfold listLogsForProfile. rewrite Hid, Hnil.
      apply select_logs_by_person_spec.
Qed.

Lemma getLogsByProfileId_by_reference_only_witness :
  (exists rows,
      Db.getLogsByProfileId 1 Example.with_three_logs = (Ok rows, Example.with_three_logs)
      /\ Permutation rows
           (filter (fun l => id_eqb (LogEntry.profile_id l) 1)
                   (logs (file Example.with_three_logs)))
      /\ newest_first rows)
  /\ (let p := Profile.mk 1 "Alex" "Friend" "2025-03-01T09:00:00.000Z" in
      ProfileDetailScreen.fetchProfileData 1 Example.with_unlinked_log
      = (Ok (Some p, listLogsForProfile p (file Example.with_unlinked_log)),
         Example.with_unlinked_log)
      /\ Permutation (listLogsForProfile p (file Example.with_unlinked_log))
           (filter (fun l => (LogEntry.person l =? "Alex")%string)
                   (logs (file Example.with_unlinked_log)))).
Proof.
  split.
  - exact (proj1 (getLogsByProfileId_by_reference_only
                    Example.with_three_logs openDatabase 1 eq_refl)).
  - destruct (proj2 (getLogsByProfileId_by_reference_only
                       Example.with_unlinked_log openDatabase 1 eq_refl)
                (Profile.mk 1 "Alex" "Friend" "2025-03-01T09:00:00.000Z") []
                eq_refl)
      as [Hfetch [_ [_ [_ Hfallback]]]].
    split; [exact Hfetch | exact (Hfallback eq_refl)].
Defined.

(** C4, as the claim states it, fails: with a flag filed under Alex's
    name and no profile reference, [getLogsByProfileId] on Alex's id
    returns nothing, while the dual-path lookup returns that flag. *)
Lemma getLogsByProfileId_no_fallback :
  ~ (forall (w : World) (database : SQLiteDatabase) (p : Profile.t),
        db w = Some database ->
        In p (profiles (file w)) ->
        Db.getLogsByProfileId (Profile.id p) w
        = (Ok (listLogsForProfile p (file w)), w)).
Proof.
  intros H.
  specialize (H Example.with_unlinked_log openDatabase
                (Profile.mk 1 "Alex" "Friend" "2025-03-01T09:00:00.000Z")
                eq_refl (or_introl eq_refl)).
  vm_compute in H. discriminate H.
Qed.

(** With the foreign key enforced, deleting a profile detaches its
    log rows: no row is dropped, no row keeps the deleted id, and
    every column but the reference is retained. *)
Lemma deleteProfile_enforced (w : World) (database : SQLiteDatabase) (id : Z) :
  db w = Some database -> foreign_keys database = true ->
  exists w',
    Db.deleteProfile id w = (Ok tt, w')
    /\ profiles (file w') = filter (fun p => negb (Profile.id p =? id)) (profiles (file w))
    /\ Forall2 (fun l l' =>
                  set_profile_id None l' = set_profile_id None l
                  /\ LogEntry.profile_id l'
                     = (if id_eqb (LogEntry.profile_id l) id
                        then None else LogEntry.profile_id l))
               (logs (file w)) (logs (file w')).
Proof.
  intros Hopen Hfk. unfold Db.deleteProfile.
  rewrite (run_on_open _ w database) by assumption.
  unfold runAsync. eexists. split; [reflexivity|].
  unfold delete_profile. cbn [set_file file profiles logs]. rewrite Hfk.
  split; [reflexivity|].
  apply Forall2_map_r. intros l.
  destruct (id_eqb (LogEntry.profile_id l) id); split; reflexivity.
Qed.

(** On the connection that [getDatabase] opens, deleting a profile
    removes its row and leaves the [logs] table as it was. *)
Lemma deleteProfile_unenforced (w : World) (id : Z) :
  db w = Some openDatabase ->
  exists w',
    Db.deleteProfile id w = (Ok tt, w')
    /\ profiles (file w') = filter (fun p => negb (Profile.id p =? id)) (profiles (file w))
    /\ logs (file w') = logs (file w).
Proof.
  intros Hopen. unfold Db.deleteProfile.
  rewrite (run_on_open _ w openDatabase) by assumption.
  unfold runAsync. eexists. repeat split.
Qed.

(** C5, at the failing input.  A profile is created, three flags are
    filed against it and the profile is deleted: the profile row is
    gone, the three rows are still there, and each still carries the
    id of the deleted profile, so a lookup by that id still finds them. *)
Theorem deleteProfile_leaves_dangling_references :
  exists w',
    Db.deleteProfile 1 Example.with_three_logs = (Ok tt, w')
    /\ profiles (file w') = []
    /\ map LogEntry.id (logs (file w')) = [1; 2; 3]
    /\ map LogEntry.profile_id (logs (file w')) = [Some 1; Some 1; Some 1]
    /\ exists rows,
         Db.getLogsByProfileId 1 w' = (Ok rows, w')
         /\ map LogEntry.id rows = [3; 2; 1].
Proof.
  eexists. split; [reflexivity|]. repeat split.
  eexists. split; reflexivity.
Qed.

(** C6. If a profile of that name exists, [createProfile] fails with
    the UNIQUE constraint error and the stored tables are unchanged;
    otherwise it returns an identifier that no profile has or ever
    had, and stores one new row with that identifier, the given name
    and relationship, and the current timestamp. *)
Theorem createProfile_unique_name (w : World) (database : SQLiteDatabase)
    (profile : NewProfile.t) :
  db w = Some database ->
  (In (NewProfile.name profile) (map Profile.name (profiles (file w))) ->
   exists w',
     Db.createProfile profile w = (Err CONSTRAINT_UNIQUE, w')
     /\ file w' = file w)
  /\ (~ In (NewProfile.name profile) (map Profile.name (profiles (file w))) ->
      exists id w',
        Db.createProfile profile w = (Ok id, w')
        /\ ~ In id (map Profile.id (profiles (file w)))
        /\ profiles_seq (file w) < id
        /\ profiles (file w')
           = profiles (file w)
             ++ [Profile.mk id (NewProfile.name profile)
                            (NewProfile.relationship profile) (clock w (reads w))]
        /\ logs (file w') = logs (file w)).
Proof.
  intros Hopen.
  unfold Db.createProfile. rewrite (run_on_open _ w database) by assumption.
  unfold bind, Date_toISOString, runAsync_insert, insert_profile. cbn [file].
  split; intros Hname.
  - apply existsb_name in Hname. rewrite Hname.
    eexists. split; reflexivity.
  - destruct (existsb _ (profiles (file w))) eqn:E;
      [apply existsb_name in E; contradiction|].
    destruct (next_rowid_fresh (profiles_seq (file w))
                (map Profile.id (profiles (file w)))) as [Hfresh [Hseq _]].
    eexists. eexists. split; [reflexivity|].
    repeat split; assumption.
Qed.

Lemma createProfile_unique_name_witness :
  (exists w',
      Db.createProfile Example.alex Example.with_alex = (Err CONSTRAINT_UNIQUE, w')
      /\ file w' = file Example.with_alex)
  /\ (exists id w',
        Db.createProfile (NewProfile.mk "Sam" "Boss") Example.with_alex = (Ok id, w')
        /\ ~ In id (map Profile.id (profiles (file Example.with_alex)))
        /\ profiles_seq (file Example.with_alex) < id
        /\ profiles (file w')
           = profiles (file Example.with_alex)
             ++ [Profile.mk id "Sam" "Boss" "2025-03-02T09:00:00.000Z"]
        /\ logs (file w') = logs (file Example.with_alex)).
Proof.
  split.
  - apply (proj1 (createProfile_unique_name Example.with_alex openDatabase
                    Example.alex eq_refl)).
    now left.
  - apply (proj2 (createProfile_unique_name Example.with_alex openDatabase
                    (NewProfile.mk "Sam" "Boss") eq_refl)).
    intros [H | []]. discriminate H.
Defined.

(** C7. [insertLog] rejects an entry whose flag type is not GREEN,
    YELLOW or RED or whose severity is outside 1..10: the INSERT
    fails on the CHECK constraint and the stored tables are as
    before.  A valid entry is stored as one new row with a fresh
    identifier, the current timestamp and the profile reference that
    was provided (the falsy reference 0 is stored as absent). *)
Theorem insertLog_validates (w : World) (entry : NewLogEntry.t) :
  db w = Some openDatabase ->
  ((parse_type (NewLogEntry.type entry) = None
    \/ NewLogEntry.severity entry < 1 \/ 10 < NewLogEntry.severity entry) ->
   exists w',
     Db.insertLog entry w = (Err CONSTRAINT_CHECK, w') /\ file w' = file w)
  /\ (forall ty,
        parse_type (NewLogEntry.type entry) = Some ty ->
        1 <= NewLogEntry.severity entry <= 10 ->
        exists id w',
          Db.insertLog entry w = (Ok id, w')
          /\ ~ In id (map LogEntry.id (logs (file w)))
          /\ logs (file w')
             = logs (file w)
               ++ [LogEntry.mk id (clock w (reads w)) (NewLogEntry.person entry)
                     (JS.or_null_Z (NewLogEntry.profile_id entry)) ty
                     (NewLogEntry.severity entry) (NewLogEntry.category entry)
                     (JS.or_null_string (NewLogEntry.notes entry))]
          /\ (NewLogEntry.profile_id entry <> Some 0 ->
              JS.or_null_Z (NewLogEntry.profile_id entry) = NewLogEntry.profile_id entry)
          /\ profiles (file w') = profiles (file w)).
Proof.
  intros Hopen.
  unfold Db.insertLog. rewrite (run_on_open _ w openDatabase) by assumption.
  unfold bind, Date_toISOString, runAsync_insert, insert_log. cbn [file foreign_keys openDatabase].
  split.
  - intros Hbad.
    destruct (parse_type (NewLogEntry.type entry)) as [ty|];
      [|eexists; split; reflexivity].
    destruct Hbad as [Hbad | Hbad]; [discriminate|].
    replace ((1 <=? NewLogEntry.severity entry) && (NewLogEntry.severity entry <=? 10))
      with false by (symmetry; apply andb_false_iff; rewrite !Z.leb_gt; lia).
    eexists. split; reflexivity.
  - intros ty Hty [Hlo Hhi]. rewrite Hty.
    replace ((1 <=? NewLogEntry.severity entry) && (NewLogEntry.severity entry <=? 10))
      with true by (symmetry; apply andb_true_iff; rewrite !Z.leb_le; lia).
    cbn [negb andb].
    destruct (next_rowid_fresh (logs_seq (file w))
                (map LogEntry.id (logs (file w)))) as [Hfresh _].
    eexists. eexists. split; [reflexivity|].
    repeat split; try assumption.
    intros Hnz. destruct (NewLogEntry.profile_id entry) as [[|k|k]|];
      try reflexivity. congruence.
Qed.

Lemma insertLog_validates_witness :
  (exists w',
      Db.insertLog (Example.flag (Some 1) "RED" 11) Example.with_alex
      = (Err CONSTRAINT_CHECK, w')
      /\ file w' = file Example.with_alex)
  /\ (exists w',
        Db.insertLog (Example.flag (Some 1) "BLUE" 5) Example.with_alex
        = (Err CONSTRAINT_CHECK, w')
        /\ file w' = file Example.with_alex)
  /\ (exists id w',
        Db.insertLog (Example.flag (Some 1) "RED" 7) Example.with_alex = (Ok id, w')
        /\ logs (file w')
           = [LogEntry.mk id "2025-03-02T09:00:00.000Z" "Alex" (Some 1) RED 7 Trust None]).
Proof.
  pose proof (insertLog_validates Example.with_alex) as H.
  split; [|split].
  - apply (proj1 (H (Example.flag (Some 1) "RED" 11) eq_refl)).
    right. right. reflexivity.
  - apply (proj1 (H (Example.flag (Some 1) "BLUE" 5) eq_refl)).
    left. reflexivity.
  - destruct (proj2 (H (Example.flag (Some 1) "RED" 7) eq_refl) RED eq_refl)
      as [id [w' [Hrun [_ [Hlogs _]]]]].
    + split; discriminate.
    + exists id, w'. split; [exact Hrun | exact Hlogs].
Defined.

(** C8, as the code has it.  [getTopProfilesByLogCount] returns at
    most [limit] rows, highest count first, the rows being a function
    of the stored tables, so that equal counts are ordered the same
    way on every call.  When some row comes back, each row is a
    stored profile with the number of logs whose profile reference
    is its id; no profile without such a log is listed, and a profile
    with such logs is left out only when [limit] rows with counts at
    least as large are returned.  Only when that gives no row, which
    is when the limit is 0 or no stored profile is referenced by any
    log, the same holds with the logs whose [person] is the profile's
    name in place of the logs that reference it.  On five profiles
    with 0, 2, 5, 1 and 3 logs and a limit of 3 the counts returned
    are 5, 3, 2. *)
Theorem getTopProfilesByLogCount_descending (w : World) (database : SQLiteDatabase)
    (limit : nat) :
  db w = Some database ->
  (exists rows,
      Db.getTopProfilesByLogCount limit w = (Ok rows, w)
      /\ ((rows <> [] /\ top_rows limit (file w) (referencing (file w)) rows)
          \/ ((limit = 0%nat
               \/ Forall (fun p => referencing (file w) p = []) (profiles (file w)))
              /\ top_rows limit (file w) (filed_under (file w)) rows)))
  /\ (exists rows,
        Db.getTopProfilesByLogCount 3 Example.five_profiles
        = (Ok rows, Example.five_profiles)
        /\ map TopProfile.flagCount rows = [5; 3; 2]
        /\ map TopProfile.name rows = ["Cy"; "Ed"; "Bob"]%string).
Proof.
  intros Hopen. split; [|eexists; repeat split].
  unfold Db.getTopProfilesByLogCount.
  rewrite (run_on_open _ w database) by assumption.
  unfold bind, getAllAsync, ret.
  destruct (select_top_profiles on_profile_id limit (file w)) as [|r rs] eqn:E.
  - cbn [List.length Nat.eqb].
    exists (select_top_profiles on_person limit (file w)).
    split; [reflexivity | right]. split.
    + now apply no_referencing_rows.
    + exact (select_top_profiles_top_rows on_person limit (file w)).
  - cbn [List.length Nat.eqb].
    exists (r :: rs). split; [reflexivity | left]. split; [discriminate|].
    rewrite <- E.
    exact (select_top_profiles_top_rows on_profile_id limit (file w)).
Qed.

Lemma getTopProfilesByLogCount_descending_witness :
  exists rows,
    Db.getTopProfilesByLogCount 2 Example.five_profiles = (Ok rows, Example.five_profiles)
    /\ rows <> []
    /\ top_rows 2 (file Example.five_profiles)
                (referencing (file Example.five_profiles)) rows.
Proof.
  destruct (proj1 (getTopProfilesByLogCount_descending
                     Example.five_profiles openDatabase 2 eq_refl))
    as [rows [Hrun Hrows]].
  exists rows. split; [exact Hrun|].
  destruct Hrows as [[Hne Htop] | [[Hzero | Hnone] _]].
  - split; assumption.
  - discriminate Hzero.
  - exfalso. apply Forall_inv_tail, Forall_inv in Hnone. discriminate Hnone.
Defined.

(** C8, as the claim states it, fails whichever logs are taken to be
    a profile's.  After Alex's profile is created, flagged three
    times, deleted and created again, the list shows the new profile
    with a count of 3 although no log references it.  After Sam's
    profile is added with one flag, the list shows Sam alone, with
    room for two more rows, although three logs are filed under
    Alex's name, the three the profile screen lists for Alex. *)
Lemma getTopProfilesByLogCount_counts_one_way :
  ~ lists_profiles_by_log_count referencing
  /\ ~ lists_profiles_by_log_count filed_under
  /\ ~ lists_profiles_by_log_count either_way
  /\ Db.getTopProfilesByLogCount 3 Example.recreated
     = (Ok [TopProfile.mk 2 "Alex" 3], Example.recreated)
  /\ Db.getLogsByProfileId 2 Example.recreated = (Ok [], Example.recreated)
  /\ Db.getTopProfilesByLogCount 3 Example.with_sam
     = (Ok [TopProfile.mk 3 "Sam" 1], Example.with_sam)
  /\ List.length (filed_under (file Example.with_sam)
                              (Profile.mk 2 "Alex" "Friend" "2025-03-05T09:00:00.000Z"))
     = 3%nat.
Proof.
  assert (Halex : In (Profile.mk 2 "Alex" "Friend" "2025-03-05T09:00:00.000Z")
                     (profiles (file Example.with_sam))) by (now left).
  split; [|split; [|split; [|repeat split]]]; intros H.
  - destruct (H Example.recreated openDatabase 3%nat eq_refl)
      as [rows [Hrun [_ [_ [_ [Hall _]]]]]].
    injection Hrun as <-.
    apply Forall_inv in Hall. destruct Hall as [p [Hp [Hlogs _]]].
    destruct Hp as [<- | []]. now apply Hlogs.
  - destruct (H Example.with_sam openDatabase 3%nat eq_refl)
      as [rows [Hrun [_ [_ [_ [_ Hin]]]]]].
    injection Hrun as <-.
    destruct (Hin _ Halex ltac:(discriminate)) as [[E | []] | [E _]];
      discriminate E.
  - destruct (H Example.with_sam openDatabase 3%nat eq_refl)
      as [rows [Hrun [_ [_ [_ [_ Hin]]]]]].
    injection Hrun as <-.
    destruct (Hin _ Halex ltac:(discriminate)) as [[E | []] | [E _]];
      discriminate E.
Qed.

End Persistence.


(** ** The scoring engine: results *)

Section ScoringResults.

Import JS Spec.

(** C1, as the code has it.  On the empty sequence
    [calculateVibeScore] returns 0.
    Otherwise the running sum it forms is exactly the signed sum in
    which a RED entry counts +severity, a YELLOW entry +severity/2
    (not truncated) and a GREEN entry -severity; that sum is divided
    by (count x 10) and multiplied by 100, both in binary64
    arithmetic as JavaScript does; and the result returned is that
    percentage clamped into [0, 100] and rounded to the nearest
    integer, ties upwards.  For severities from 1 to 10 this is the
    score computed in the rationals whenever the exact percentage is
    not halfway between two integers, and that score or the integer
    below it when it is. *)
Theorem calculateVibeScore_steps (logs : list LogEntry.t) :
  Forall bounded_severity logs -> array logs ->
  Db.calculateVibeScore [] = of_Z 0
  /\ (inject_Z (twice_sum logs) == 2 * signed_sum logs)%Q
  /\ (logs <> [] ->
      Db.calculateVibeScore logs
      = of_Z (round_half_up
                (clamp_0_100
                   (mul (div (dyadic (twice_sum logs) (-1))
                             (of_Z (Z.of_nat (List.length logs) * 10)))
                        (of_Z 100)))))
  /\ (Forall stored_severity logs ->
      ~ halfway (exact_percentage logs) ->
      Db.calculateVibeScore logs = of_Z (exactToxicityScore logs))
  /\ (Forall stored_severity logs ->
      halfway (exact_percentage logs) ->
      Db.calculateVibeScore logs = of_Z (exactToxicityScore logs)
      \/ Db.calculateVibeScore logs = of_Z (exactToxicityScore logs - 1)).
Proof.
  intros Hall Harr. split; [reflexivity|]. split; [apply twice_sum_signed_sum|].
  rewrite calculateVibeScore_computeToxicityScore by assumption.
  split; [|split].
  - intros Hne. destruct logs; [contradiction | reflexivity].
  - intros Hst Hnot. now rewrite computeToxicityScore_exact.
  - intros Hst Hhw.
    destruct (computeToxicityScore_halfway logs Hst Harr Hhw) as [-> | ->];
      [left | right]; reflexivity.
Qed.

Lemma calculateVibeScore_steps_witness :
  Db.calculateVibeScore [Example.log RED 7; Example.log YELLOW 4; Example.log GREEN 2]
  = of_Z 23
  /\ Db.calculateVibeScore [Example.log RED 7; Example.log YELLOW 4; Example.log GREEN 2]
     = of_Z (exactToxicityScore
               [Example.log RED 7; Example.log YELLOW 4; Example.log GREEN 2]).
Proof.
  pose (logs := [Example.log RED 7; Example.log YELLOW 4; Example.log GREEN 2]).
  fold logs.
  assert (Hall : Forall bounded_severity logs)
    by (repeat constructor; unfold bounded_severity; cbn; lia).
  assert (Harr : array logs) by (unfold array; cbn; lia).
  destruct (calculateVibeScore_steps logs Hall Harr) as [_ [_ [H [Hexact _]]]].
  split.
  - etransitivity; [apply H; discriminate | reflexivity].
  - apply Hexact.
    + repeat constructor; unfold stored_severity; cbn; lia.
    + unfold halfway. vm_compute. discriminate.
Defined.

(** C1, as the claim states it, fails: the division and the
    multiplication are binary64 operations, not operations on real
    numbers.  For a RED entry of severity 10 and a YELLOW entry of
    severity 3 the sum is 11.5 and the percentage 57.5, which rounds
    half up to 58; the code divides 11.5 by 20 to the double nearest
    to 0.575, whose product with 100 is the double just below 57.5,
    and returns 57. *)
Lemma calculateVibeScore_not_real_arithmetic :
  ~ (forall logs : list LogEntry.t,
        Forall stored_severity logs -> array logs ->
        Db.calculateVibeScore logs = of_Z (exactToxicityScore logs))
  /\ (exact_percentage [Example.log RED 10; Example.log YELLOW 3] == 115 # 2)%Q
  /\ exactToxicityScore [Example.log RED 10; Example.log YELLOW 3] = 58
  /\ Db.calculateVibeScore [Example.log RED 10; Example.log YELLOW 3] = of_Z 57.
Proof.
  split; [|split; [|split]]; try reflexivity.
  intros H.
  specialize (H [Example.log RED 10; Example.log YELLOW 3]).
  assert (Hst : Forall stored_severity [Example.log RED 10; Example.log YELLOW 3])
    by (repeat constructor; unfold stored_severity; cbn; lia).
  assert (Harr : array [Example.log RED 10; Example.log YELLOW 3])
    by (unfold array; cbn; lia).
  specialize (H Hst Harr). vm_compute in H. discriminate H.
Qed.

(** C9. On every sequence of stored entries, whatever the mix of
    severities and flag types, [calculateVibeScore] returns an
    integer between 0 and 100: a percentage below zero, as for any
    sequence whose signed sum is not positive, gives 0, and a
    percentage above 100 gives 100. *)
Theorem calculateVibeScore_range (logs : list LogEntry.t) :
  Forall bounded_severity logs -> array logs ->
  exists score,
    Db.calculateVibeScore logs = of_Z score
    /\ 0 <= score <= 100
    /\ (twice_sum logs <= 0 -> score = 0)
    /\ (forall s m e,
          percentage logs = S754_finite s m e -> (100 < value s m e)%Q ->
          logs <> [] -> score = 100).
Proof.
  intros Hall Harr. exists (computeToxicityScore logs).
  split; [now apply calculateVibeScore_computeToxicityScore|].
  split; [apply computeToxicityScore_range|].
  destruct logs as [|l logs']; [split; [reflexivity | intros; contradiction]|].
  set (logs := l :: logs') in *.
  assert (Hne : logs <> []) by discriminate.
  destruct (percentage_shape logs Hne Hall Harr) as [Hlike [Hsign Hzero]].
  change (computeToxicityScore logs) with (round_half_up (clamp_0_100 (percentage logs))).
  split.
  - intros HT. destruct (Z.eq_dec (twice_sum logs) 0) as [E | Hnz].
    + rewrite (Hzero E). reflexivity.
    + apply clamp_round_negative.
      rewrite Hsign. apply Z.ltb_lt. lia.
  - intros s m e Hp Hv _. rewrite Hp. now apply clamp_round_above.
Qed.

Lemma calculateVibeScore_range_witness :
  exists score,
    Db.calculateVibeScore [Example.log GREEN 9; Example.log GREEN 3] = of_Z score
    /\ 0 <= score <= 100
    /\ score = 0.
Proof.
  pose (logs := [Example.log GREEN 9; Example.log GREEN 3]).
  assert (Hall : Forall bounded_severity logs)
    by (repeat constructor; unfold bounded_severity; cbn; lia).
  assert (Harr : array logs) by (unfold array; cbn; lia).
  destruct (calculateVibeScore_range logs Hall Harr) as [score [Hrun [Hrange [Hneg _]]]].
  exists score. split; [exact Hrun | split; [exact Hrange |]].
  apply Hneg. cbn. lia.
Defined.

Lemma gt_of_Z (a b : Z) :
  Z.abs a < 2 ^ prec -> Z.abs b < 2 ^ prec -> gt (of_Z a) (of_Z b) = (b <? a).
Proof.
  intros Ha Hb. unfold gt, SFltb.
  rewrite !of_Z_canon, compare_canon by assumption.
  unfold Z.ltb. destruct (b ?= a); reflexivity.
Qed.

Lemma ge_of_Z (a b : Z) :
  Z.abs a < 2 ^ prec -> Z.abs b < 2 ^ prec -> ge (of_Z a) (of_Z b) = (b <=? a).
Proof.
  intros Ha Hb. unfold ge, SFleb.
  rewrite !of_Z_canon, compare_canon by assumption.
  unfold Z.leb. destruct (b ?= a); reflexivity.
Qed.

(** On an integer score [getHealthStatus] is the threshold table. *)
Lemma getHealthStatus_classifyHealth (score : Z) :
  Z.abs score < 2 ^ prec -> Db.getHealthStatus (of_Z score) = classifyHealth score.
Proof.
  intros Hs. unfold Db.getHealthStatus, classifyHealth.
  rewrite !gt_of_Z, !ge_of_Z by (try assumption; reflexivity).
  reflexivity.
Qed.

(** C2. For every integer score from 0 to 100, [getHealthStatus]
    returns "Critical" exactly when score > 75, "Toxic" exactly when
    50 <= score <= 75, "Concerning" exactly when 25 <= score < 50,
    "Stable" exactly when 0 < score < 25 and "Thriving" exactly when
    score = 0; so 75 is "Toxic", 76 "Critical", 0 "Thriving" and
    1 "Stable". *)
Theorem getHealthStatus_thresholds (score : Z) :
  0 <= score <= 100 ->
  (Db.getHealthStatus (of_Z score) = "Critical"%string <-> 75 < score)
  /\ (Db.getHealthStatus (of_Z score) = "Toxic"%string <-> 50 <= score <= 75)
  /\ (Db.getHealthStatus (of_Z score) = "Concerning"%string <-> 25 <= score < 50)
  /\ (Db.getHealthStatus (of_Z score) = "Stable"%string <-> 0 < score < 25)
  /\ (Db.getHealthStatus (of_Z score) = "Thriving"%string <-> score = 0)
  /\ Db.getHealthStatus (of_Z 75) = "Toxic"%string
  /\ Db.getHealthStatus (of_Z 76) = "Critical"%string
  /\ Db.getHealthStatus (of_Z 0) = "Thriving"%string
  /\ Db.getHealthStatus (of_Z 1) = "Stable"%string.
Proof.
  intros Hs.
  rewrite getHealthStatus_classifyHealth
    by (change (2 ^ prec) with 9007199254740992; lia).
  unfold classifyHealth.
  destruct (Z.ltb_spec 75 score); [|destruct (Z.leb_spec 50 score);
    [|destruct (Z.leb_spec 25 score); [|destruct (Z.ltb_spec 0 score)]]].
  all: repeat split; intros; try discriminate; try lia; reflexivity.
Qed.

Lemma getHealthStatus_thresholds_witness :
  Db.getHealthStatus (of_Z 60) = "Toxic"%string.
Proof.
  destruct (getHealthStatus_thresholds 60 ltac:(lia)) as [_ [H _]].
  apply H. lia.
Defined.

(** C10. The scoring functions kept inside [ProfileDetailScreen] are
    extensionally equal to the exported ones of the database module:
    the same score for every list of entries and the same label for
    every score. *)
Theorem ProfileDetailScreen_scoring_agrees :
  (forall logs : list LogEntry.t,
      ProfileDetailScreen.calculateVibeScore logs = Db.calculateVibeScore logs)
  /\ (forall score : number,
        ProfileDetailScreen.getHealthStatus score = Db.getHealthStatus score).
Proof. split; reflexivity. Qed.

(** The quotient and the product are rounded to binary64 before the
    final rounding, so on a percentage that is exactly halfway the
    score can be the lower neighbour: 10 + 1.5 over 20 is 57.5, the
    product [0.575 * 100] is the number just below it, and the score
    is 57. *)
Lemma calculateVibeScore_halfway :
  Db.calculateVibeScore [Example.log RED 10; Example.log YELLOW 3] = of_Z 57
  /\ exactToxicityScore [Example.log RED 10; Example.log YELLOW 3] = 58.
Proof. split; reflexivity. Qed.

(** A single RED entry of severity [s] scores [10 * s], and a single
    YELLOW entry of severity 10 scores 50. *)
Lemma calculateVibeScore_single (s : Z) :
  1 <= s <= 10 ->
  Db.calculateVibeScore [Example.log RED s] = of_Z (10 * s)
  /\ Db.calculateVibeScore [Example.log YELLOW 10] = of_Z 50.
Proof.
  intros Hs.
  assert (H : s = 1 \/ s = 2 \/ s = 3 \/ s = 4 \/ s = 5
              \/ s = 6 \/ s = 7 \/ s = 8 \/ s = 9 \/ s = 10) by lia.
  split; [|reflexivity].
  repeat (destruct H as [-> | H]; [vm_compute; reflexivity|]).
  subst. vm_compute. reflexivity.
Qed.

End ScoringResults.


(** ** Opening the database *)

Section Opening.

Import Model.

Lemma initializeDatabase_run (database : SQLiteDatabase) (w : World) :
  exists w', Db.initializeDatabase database w = (Ok tt, w') /\ db w' = db w.
Proof.
  unfold Db.initializeDatabase. rewrite migrateExistingData_run.
  eexists. split; [reflexivity|].
  destruct (select_unlinked_people (file w)) as [|p ps]; [reflexivity|].
  generalize (p :: ps). intros people. revert w.
  induction people as [|person rest IH]; intros w; cbn [fold_left]; [reflexivity|].
  rewrite IH. unfold link_person.
  destruct (select_profile_ids_by_name person (file w)); reflexivity.
Qed.

(** [getDatabase] never throws, and leaves the handle cached. *)
Lemma getDatabase_run (w : World) :
  exists database,
    Db.getDatabase w = (Ok database, opened w) /\ db (opened w) = Some database.
Proof.
  unfold opened, Db.getDatabase.
  destruct (db w) as [database|] eqn:E.
  - exists database. split; [reflexivity | exact E].
  - exists openDatabase. unfold bind.
    destruct (initializeDatabase_run openDatabase
                {| db := Some openDatabase; file := file w;
                   clock := clock w; reads := reads w |}) as [w' [-> Hdb]].
    split; [reflexivity | exact Hdb].
Qed.

Lemma opened_open (w : World) (database : SQLiteDatabase) :
  db w = Some database -> opened w = w.
Proof. intros H. unfold opened. now rewrite (getDatabase_open w database H). Qed.

Lemma opened_idempotent (w : World) : opened (opened w) = opened w.
Proof.
  destruct (getDatabase_run w) as [database [_ H]].
  exact (opened_open _ _ H).
Qed.

Lemma run_opened {A : Type} (k : SQLiteDatabase -> App A) (w : World) :
  exists database,
    db (opened w) = Some database
    /\ bind Db.getDatabase k w = k database (opened w).
Proof.
  destruct (getDatabase_run w) as [database [Hrun Hdb]].
  exists database. split; [exact Hdb | now apply bind_ok].
Qed.

End Opening.


(** ** What each operation does to the world *)

Section Runs.

Import Model.

Lemma createProfile_run (profile : NewProfile.t) (w : World) :
  Db.createProfile profile w
  = match insert_profile (NewProfile.name profile) (NewProfile.relationship profile)
                         (clock (opened w) (reads (opened w))) (file (opened w)) with
    | Ok (id, t) => (Ok id, set_file t (tick (opened w)))
    | Err e => (Err e, tick (opened w))
    end.
Proof.
  unfold Db.createProfile.
  destruct (run_opened
              (fun _ =>
                 timestamp <- Date_toISOString ;;
                 runAsync_insert
                   (insert_profile (NewProfile.name profile)
                                   (NewProfile.relationship profile) timestamp)) w)
    as [database [_ ->]].
  unfold bind, Date_toISOString, runAsync_insert, tick. cbn [file snd].
  destruct (insert_profile _ _ _ (file (opened w))) as [[id t]|e]; reflexivity.
Qed.

Lemma insertLog_run (entry : NewLogEntry.t) (w : World) :
  exists database,
    db (opened w) = Some database
    /\ Db.insertLog entry w
       = match insert_log database (clock (opened w) (reads (opened w)))
                          (NewLogEntry.person entry)
                          (JS.or_null_Z (NewLogEntry.profile_id entry))
                          (NewLogEntry.type entry) (NewLogEntry.severity entry)
                          (NewLogEntry.category entry)
                          (JS.or_null_string (NewLogEntry.notes entry))
                          (file (opened w)) with
         | Ok (id, t) => (Ok id, set_file t (tick (opened w)))
         | Err e => (Err e, tick (opened w))
         end.
Proof.
  unfold Db.insertLog.
  destruct (run_opened
              (fun database =>
                 timestamp <- Date_toISOString ;;
                 runAsync_insert
                   (insert_log database timestamp (NewLogEntry.person entry)
                               (JS.or_null_Z (NewLogEntry.profile_id entry))
                               (NewLogEntry.type entry) (NewLogEntry.severity entry)
                               (NewLogEntry.category entry)
                               (JS.or_null_string (NewLogEntry.notes entry)))) w)
    as [database [Hdb ->]].
  exists database. split; [exact Hdb|].
  unfold bind, Date_toISOString, runAsync_insert, tick. cbn [file snd].
  destruct (insert_log _ _ _ _ _ _ _ _ (file (opened w))) as [[id t]|e]; reflexivity.
Qed.

Lemma updateProfile_run (id : Z) (updates : PartialNewProfile.t) (w : World) :
  Db.updateProfile id updates w
  = match fields_of updates with
    | [] => (Ok tt, opened w)
    | fields =>
        match update_profiles fields id (file (opened w)) with
        | Ok t => (Ok tt, set_file t (opened w))
        | Err e => (Err e, opened w)
        end
    end.
Proof.
  unfold Db.updateProfile, fields_of.
  destruct (PartialNewProfile.name updates) as [name|],
           (PartialNewProfile.relationship updates) as [relationship|];
    cbn [app List.length Nat.eqb];
    match goal with
    | |- bind Db.getDatabase ?k w = _ =>
        destruct (run_opened k w) as [database [_ ->]]
    end; reflexivity.
Qed.

Lemma deleteProfile_run (id : Z) (w : World) :
  exists database,
    db (opened w) = Some database
    /\ Db.deleteProfile id w
       = (Ok tt, set_file (delete_profile database id (file (opened w))) (opened w)).
Proof.
  unfold Db.deleteProfile.
  destruct (run_opened (fun database => runAsync (delete_profile database id)) w)
    as [database [Hdb ->]].
  exists database. split; [exact Hdb | reflexivity].
Qed.

Lemma deleteLog_run (id : Z) (w : World) :
  Db.deleteLog id w = (Ok tt, set_file (delete_log id (file (opened w))) (opened w)).
Proof.
  unfold Db.deleteLog.
  destruct (run_opened (fun _ => runAsync (delete_log id)) w) as [database [_ ->]].
  reflexivity.
Qed.

Lemma handleSaveLogEdit_run (editingLog : LogEntry.t) (editLogNotes : string)
    (logs : list LogEntry.t) (w : World) :
  ProfileDetailScreen.handleSaveLogEdit (Some editingLog) editLogNotes logs w
  = (Ok (map (with_notes (JS.or_null_string (Some editLogNotes))
                         (LogEntry.id editingLog)) logs),
     set_file (update_log_notes (JS.or_null_string (Some editLogNotes))
                                (LogEntry.id editingLog) (file (opened w)))
              (opened w)).
Proof.
  unfold ProfileDetailScreen.handleSaveLogEdit, try_catch.
  match goal with
  | |- context [bind Db.getDatabase ?k w] =>
      destruct (run_opened k w) as [database [_ ->]]
  end.
  reflexivity.
Qed.

Lemma fold_assign_fields (updates : PartialNewProfile.t) (p : Profile.t) :
  fold_left assign (fields_of updates) p = updated updates p.
Proof.
  unfold fields_of, updated.
  destruct (PartialNewProfile.name updates), (PartialNewProfile.relationship updates);
    destruct p; reflexivity.
Qed.

Lemma sets_name_fields (updates : PartialNewProfile.t) :
  existsb sets_name (fields_of updates)
  = negb (is_null (PartialNewProfile.name updates)).
Proof.
  unfold fields_of.
  destruct (PartialNewProfile.name updates), (PartialNewProfile.relationship updates);
    reflexivity.
Qed.

End Runs.


(** ** The schema's invariants are kept *)

Section WellFormed.

Import Model.

(** A DELETE keeps a unique column unique. *)
Lemma unique_after_delete {Row Key : Type} (key : Row -> Key) (keep : Row -> bool)
    (rows : list Row) :
  NoDup (map key rows) -> NoDup (map key (filter keep rows)).
Proof.
  induction rows as [|r rs IH]; cbn [map filter]; intros H; [constructor|].
  inversion H as [|? ? Hr Hrs]; subst.
  destruct (keep r); cbn [map]; [constructor|]; auto.
  intros Hin. apply Hr. apply in_map_iff in Hin. destruct Hin as [y [E Hy]].
  apply filter_In in Hy. apply in_map_iff. exists y. tauto.
Qed.

Lemma Forall_filter {A : Type} (P : A -> Prop) (p : A -> bool) (l : list A) :
  Forall P l -> Forall P (filter p l).
Proof.
  rewrite !Forall_forall. intros H x Hx. apply filter_In in Hx. now apply H.
Qed.

Lemma Forall_map_same {A : Type} (P : A -> Prop) (g : A -> A) (l : list A) :
  (forall x, P x -> P (g x)) -> Forall P l -> Forall P (map g l).
Proof. intros Hg H. apply Forall_map. eapply Forall_impl; [|exact H]. auto. Qed.

(** A statement that rewrites log rows without touching their keys or
    severities. *)
Lemma well_formed_logs_map (t : Tables) (g : LogEntry.t -> LogEntry.t)
    (ps : list Profile.t) :
  (forall l, LogEntry.id (g l) = LogEntry.id l
             /\ LogEntry.severity (g l) = LogEntry.severity l) ->
  well_formed {| profiles := ps; logs := logs t;
                 profiles_seq := profiles_seq t; logs_seq := logs_seq t |} ->
  well_formed {| profiles := ps; logs := map g (logs t);
                 profiles_seq := profiles_seq t; logs_seq := logs_seq t |}.
Proof.
  intros Hg [H1 H2 H3 H4 H5 H6]. cbn [profiles logs profiles_seq logs_seq] in *.
  constructor; cbn [profiles logs profiles_seq logs_seq]; try assumption.
  - rewrite map_map. erewrite map_ext; [exact H3|]. intros l. apply Hg.
  - apply Forall_map. eapply Forall_impl; [|exact H5].
    intros l Hl. cbn beta. now destruct (Hg l) as [-> _].
  - apply Forall_map. eapply Forall_impl; [|exact H6].
    intros l Hl. unfold Spec.stored_severity in *. now destruct (Hg l) as [_ ->].
Qed.

Lemma well_formed_eta (t : Tables) :
  well_formed t ->
  well_formed {| profiles := profiles t; logs := logs t;
                 profiles_seq := profiles_seq t; logs_seq := logs_seq t |}.
Proof. now destruct t. Qed.

Lemma insert_profile_well_formed (name relationship created_at : string)
    (t t' : Tables) (id : Z) :
  well_formed t ->
  insert_profile name relationship created_at t = Ok (id, t') ->
  well_formed t'.
Proof.
  intros [H1 H2 H3 H4 H5 H6]. unfold insert_profile.
  destruct (existsb _ (profiles t)) eqn:E; [discriminate|].
  intros [= <- <-].
  destruct (next_rowid_fresh (profiles_seq t) (map Profile.id (profiles t)))
    as [Hfresh [Hseq Hpos]].
  constructor; cbn [profiles logs profiles_seq logs_seq]; try assumption.
  - rewrite map_app. now apply NoDup_app_one.
  - rewrite map_app. apply NoDup_app_one; [assumption|].
    intros Hin. cbn [Profile.name] in Hin. apply existsb_name in Hin.
    rewrite Hin in E. discriminate.
  - apply Forall_app. split.
    + eapply Forall_impl; [|exact H4]. cbn beta. intros p Hp. lia.
    + constructor; [|constructor]. cbn [Profile.id]. lia.
Qed.

Lemma insert_log_well_formed (c : SQLiteDatabase) (timestamp person : string)
    (profile_id : option Z) (type : string) (severity : Z) (category : LogCategory)
    (notes : option string) (t t' : Tables) (id : Z) :
  well_formed t ->
  insert_log c timestamp person profile_id type severity category notes t
  = Ok (id, t') ->
  well_formed t'.
Proof.
  intros [H1 H2 H3 H4 H5 H6]. unfold insert_log.
  destruct (parse_type type) as [ty|]; [|discriminate].
  destruct (negb ((1 <=? severity) && (severity <=? 10))) eqn:Es; [discriminate|].
  destruct (foreign_keys c && _ && _); [discriminate|].
  intros [= <- <-].
  destruct (next_rowid_fresh (logs_seq t) (map LogEntry.id (logs t)))
    as [Hfresh [Hseq Hpos]].
  apply negb_false_iff, andb_prop in Es. destruct Es as [Elo Ehi].
  apply Z.leb_le in Elo, Ehi.
  constructor; cbn [profiles logs profiles_seq logs_seq]; try assumption.
  - rewrite map_app. now apply NoDup_app_one.
  - apply Forall_app. split.
    + eapply Forall_impl; [|exact H5]. cbn beta. intros l Hl. lia.
    + constructor; [|constructor]. cbn [LogEntry.id]. lia.
  - apply Forall_app. split; [assumption|].
    constructor; [|constructor]. unfold Spec.stored_severity. cbn [LogEntry.severity].
    lia.
Qed.

Lemma fold_assign_id (fields : list (ProfileColumn * string)) (p : Profile.t) :
  Profile.id (fold_left assign fields p) = Profile.id p.
Proof.
  revert p. induction fields as [|f fs IH]; intros p; [reflexivity|].
  cbn [fold_left]. rewrite IH. unfold assign. now destruct (fst f).
Qed.

Lemma fold_assign_name (fields : list (ProfileColumn * string)) (p : Profile.t) :
  existsb sets_name fields = false ->
  Profile.name (fold_left assign fields p) = Profile.name p.
Proof.
  revert p. induction fields as [|f fs IH]; intros p; [reflexivity|].
  cbn [fold_left existsb]. intros H. apply orb_false_elim in H. destruct H as [Hf Hfs].
  rewrite IH by assumption. unfold assign, sets_name in *. now destruct (fst f).
Qed.

Lemma NoDup_names_update (i : Z) (u : Profile.t -> Profile.t) (ps : list Profile.t) :
  NoDup (map Profile.id ps) ->
  NoDup (map Profile.name ps) ->
  (forall p q, In p ps -> In q ps -> Profile.id p = i -> Profile.id q <> i ->
               Profile.name q <> Profile.name (u p)) ->
  NoDup (map Profile.name (map (fun p => if Profile.id p =? i then u p else p) ps)).
Proof.
  induction ps as [|p ps IH]; intros Hid Hname Hother; [constructor|].
  inversion Hid as [|? ? Hp_id Hps_id]; subst.
  inversion Hname as [|? ? Hp_name Hps_name]; subst.
  cbn [map]. destruct (Z.eqb_spec (Profile.id p) i) as [E | Hne].
  - assert (Hrest : map (fun q => if Profile.id q =? i then u q else q) ps = ps).
    { rewrite <- (map_id ps) at 2. apply map_ext_in. intros q Hq.
      destruct (Z.eqb_spec (Profile.id q) i) as [Eq | _]; [|reflexivity].
      exfalso. apply Hp_id. rewrite E, <- Eq. now apply in_map. }
    rewrite Hrest. constructor; [|assumption].
    intros Hin. apply in_map_iff in Hin. destruct Hin as [q [Eq Hq]].
    apply (Hother p q); try (now left); try (now right); try assumption.
    intros Eqi. apply Hp_id. rewrite E, <- Eqi. now apply in_map.
  - constructor.
    + intros Hin. apply in_map_iff in Hin. destruct Hin as [q' [Eq' Hq']].
      apply in_map_iff in Hq'. destruct Hq' as [q [<- Hq]].
      destruct (Z.eqb_spec (Profile.id q) i) as [Eq | Hq_ne].
      * apply (Hother q p); try (now left); try (now right); auto.
      * apply Hp_name. rewrite <- Eq'. now apply in_map.
    + apply IH; try assumption.
      intros a b Ha Hb. apply Hother; now right.
Qed.

Lemma update_profiles_well_formed (fields : list (ProfileColumn * string)) (id : Z)
    (t t' : Tables) :
  well_formed t -> update_profiles fields id t = Ok t' -> well_formed t'.
Proof.
  intros [H1 H2 H3 H4 H5 H6]. unfold update_profiles.
  destruct (existsb sets_name fields) eqn:Eset; cbn [andb].
  - destruct (existsb _ (profiles t)) eqn:Eclash; [discriminate|].
    intros [= <-].
    constructor; cbn [profiles logs profiles_seq logs_seq]; try assumption.
    + rewrite map_map. erewrite map_ext; [exact H1|]. intros p. cbn beta.
      destruct (Profile.id p =? id); [apply fold_assign_id | reflexivity].
    + apply NoDup_names_update; try assumption.
      intros p q Hp Hq Ep Hq_ne Ename.
      assert (Hfalse := proj1 (existsb_false_filter _ _) Eclash).
      apply (f_equal (fun l => In p l)) in Hfalse. cbn [In] in Hfalse.
      rewrite <- Hfalse. apply filter_In. split; [assumption|].
      apply andb_true_intro. split; [now apply Z.eqb_eq|].
      apply existsb_exists. exists q. split; [assumption|].
      apply andb_true_intro. split.
      * apply negb_true_iff. now apply Z.eqb_neq.
      * now apply String.eqb_eq.
    + apply Forall_map. eapply Forall_impl; [|exact H4]. intros p Hp. cbn beta.
      destruct (Profile.id p =? id); [now rewrite fold_assign_id | assumption].
  - intros [= <-].
    constructor; cbn [profiles logs profiles_seq logs_seq]; try assumption.
    + rewrite map_map. erewrite map_ext; [exact H1|]. intros p. cbn beta.
      destruct (Profile.id p =? id); [apply fold_assign_id | reflexivity].
    + rewrite map_map. erewrite map_ext; [exact H2|]. intros p. cbn beta.
      destruct (Profile.id p =? id); [now apply fold_assign_name | reflexivity].
    + apply Forall_map. eapply Forall_impl; [|exact H4]. intros p Hp. cbn beta.
      destruct (Profile.id p =? id); [now rewrite fold_assign_id | assumption].
Qed.

Lemma delete_profile_well_formed (c : SQLiteDatabase) (id : Z) (t : Tables) :
  well_formed t -> well_formed (delete_profile c id t).
Proof.
  intros H. unfold delete_profile.
  assert (Hp : well_formed
                 {| profiles := filter (fun p => negb (Profile.id p =? id)) (profiles t);
                    logs := logs t;
                    profiles_seq := profiles_seq t; logs_seq := logs_seq t |}).
  { destruct H as [H1 H2 H3 H4 H5 H6].
    constructor; cbn [profiles logs profiles_seq logs_seq]; try assumption.
    - now apply unique_after_delete.
    - now apply unique_after_delete.
    - now apply Forall_filter. }
  destruct (foreign_keys c); [|exact Hp].
  apply (well_formed_logs_map t); [|exact Hp].
  intros l. destruct (id_eqb (LogEntry.profile_id l) id); split; reflexivity.
Qed.

Lemma delete_log_well_formed (id : Z) (t : Tables) :
  well_formed t -> well_formed (delete_log id t).
Proof.
  intros [H1 H2 H3 H4 H5 H6].
  constructor; cbn [delete_log profiles logs profiles_seq logs_seq]; try assumption.
  - now apply unique_after_delete.
  - now apply Forall_filter.
  - now apply Forall_filter.
Qed.

Lemma link_logs_well_formed (profileId : Z) (person : string) (t : Tables) :
  well_formed t -> well_formed (link_logs profileId person t).
Proof.
  intros H. unfold link_logs.
  apply (well_formed_logs_map t); [|now apply well_formed_eta].
  intros l. destruct ((LogEntry.person l =? person)%string && _); split; reflexivity.
Qed.

Lemma update_log_notes_well_formed (notes : option string) (id : Z) (t : Tables) :
  well_formed t -> well_formed (update_log_notes notes id t).
Proof.
  intros H. unfold update_log_notes.
  apply (well_formed_logs_map t); [|now apply well_formed_eta].
  intros l. destruct (LogEntry.id l =? id); split; reflexivity.
Qed.

Lemma link_person_well_formed (person : string) (w : World) :
  well_formed (file w) -> well_formed (file (link_person person w)).
Proof.
  intros H. unfold link_person.
  destruct (select_profile_ids_by_name person (file w)) as [|profileId ids] eqn:E.
  - cbn [file]. apply link_logs_well_formed.
    eapply insert_profile_well_formed; [exact H|].
    apply insert_profile_fresh. exact E.
  - cbn [file set_file]. now apply link_logs_well_formed.
Qed.

Lemma opened_well_formed (w : World) :
  well_formed (file w) -> well_formed (file (opened w)).
Proof.
  intros H. unfold opened, Db.getDatabase.
  destruct (db w); [exact H|].
  unfold bind, Db.initializeDatabase. rewrite migrateExistingData_run. cbn [snd ret].
  set (w0 := {| db := Some openDatabase; file := file w;
                clock := clock w; reads := reads w |}).
  assert (H0 : well_formed (file w0)) by exact H.
  destruct (select_unlinked_people (file w0)) as [|p ps]; [exact H0|].
  generalize (p :: ps). intros people. clearbody w0. clear - H0.
  revert w0 H0. induction people as [|person rest IH]; intros w0 H0; [exact H0|].
  cbn [fold_left]. apply IH. now apply link_person_well_formed.
Qed.

Lemma perform_well_formed (w : World) (op : Operation) :
  well_formed (file w) -> well_formed (file (perform w op)).
Proof.
  intros H. apply opened_well_formed in H.
  destruct op as [profile | id updates | id | entry | id | editingLog editLogNotes];
    cbn [perform].
  - rewrite createProfile_run.
    destruct (insert_profile _ _ _ (file (opened w))) as [[id t]|e] eqn:E;
      cbn [snd file set_file tick]; [|exact H].
    eapply insert_profile_well_formed; eassumption.
  - rewrite updateProfile_run.
    destruct (fields_of updates) as [|f fs]; [exact H|].
    destruct (update_profiles (f :: fs) id (file (opened w))) as [t|e] eqn:E;
      cbn [snd file set_file]; [|exact H].
    eapply update_profiles_well_formed; eassumption.
  - destruct (deleteProfile_run id w) as [database [_ ->]]. cbn [snd file set_file].
    now apply delete_profile_well_formed.
  - destruct (insertLog_run entry w) as [database [_ ->]].
    destruct (insert_log _ _ _ _ _ _ _ _ (file (opened w))) as [[id t]|e] eqn:E;
      cbn [snd file set_file tick]; [|exact H].
    eapply insert_log_well_formed; eassumption.
  - rewrite deleteLog_run. cbn [snd file set_file].
    now apply delete_log_well_formed.
  - rewrite handleSaveLogEdit_run. cbn [snd file set_file].
    now apply update_log_notes_well_formed.
Qed.

Lemma well_formed_empty : well_formed (mkTables [] [] 0 0).
Proof. constructor; cbn; constructor. Qed.

End WellFormed.


(** ** Keys, counters and lookups *)

Section Keys.

Import Model.

Lemma filter_none {A : Type} (p : A -> bool) (l : list A) :
  Forall (fun x => p x = false) l -> filter p l = [].
Proof.
  induction 1 as [|x xs Hx _ IH]; [reflexivity|].
  cbn [filter]. now rewrite Hx.
Qed.

(** A primary key selects its row. *)
Lemma select_by_key (ps : list Profile.t) (p : Profile.t) :
  NoDup (map Profile.id ps) -> In p ps ->
  filter (fun q => Profile.id q =? Profile.id p) ps = [p].
Proof.
  induction ps as [|q qs IH]; intros Hnd Hin; [contradiction|].
  inversion Hnd as [|? ? Hq Hqs]; subst. cbn [filter].
  destruct Hin as [-> | Hin].
  - rewrite Z.eqb_refl. f_equal. apply filter_none.
    apply Forall_forall. intros r Hr. apply Z.eqb_neq. intros E.
    apply Hq. rewrite <- E. now apply in_map.
  - destruct (Z.eqb_spec (Profile.id q) (Profile.id p)) as [E | _]; [|now apply IH].
    exfalso. apply Hq. rewrite E. now apply in_map.
Qed.

Lemma select_missing_key (ps : list Profile.t) (id : Z) :
  ~ In id (map Profile.id ps) -> filter (fun q => Profile.id q =? id) ps = [].
Proof.
  intros H. apply filter_none, Forall_forall. intros q Hq.
  apply Z.eqb_neq. intros E. apply H. rewrite <- E. now apply in_map.
Qed.

Lemma select_found_key (ps : list Profile.t) (id : Z) :
  In id (map Profile.id ps) ->
  exists p rest, filter (fun q => Profile.id q =? id) ps = p :: rest
                 /\ In p ps /\ Profile.id p = id.
Proof.
  intros H. apply in_map_iff in H. destruct H as [q [E Hq]].
  assert (Hin : In q (filter (fun q => Profile.id q =? id) ps))
    by (apply filter_In; split; [assumption | now apply Z.eqb_eq]).
  destruct (filter (fun q => Profile.id q =? id) ps) as [|p rest] eqn:F;
    [contradiction|].
  exists p, rest. split; [reflexivity|].
  assert (Hp : In p (filter (fun q => Profile.id q =? id) ps))
    by (rewrite F; now left).
  apply filter_In in Hp. destruct Hp as [Hp Ep]. now apply Z.eqb_eq in Ep.
Qed.

Lemma counters_le_refl (t : Tables) : counters_le t t.
Proof. split; lia. Qed.

Lemma counters_le_trans (a b c : Tables) :
  counters_le a b -> counters_le b c -> counters_le a c.
Proof. intros [H1 H2] [H3 H4]. split; lia. Qed.

Lemma insert_profile_counter (name relationship created_at : string)
    (t t' : Tables) (id : Z) :
  insert_profile name relationship created_at t = Ok (id, t') ->
  profiles_seq t < id /\ profiles_seq t' = id /\ logs_seq t' = logs_seq t
  /\ ~ In id (map Profile.id (profiles t))
  /\ profiles t' = profiles t ++ [Profile.mk id name relationship created_at]
  /\ logs t' = logs t.
Proof.
  unfold insert_profile. destruct (existsb _ (profiles t)); [discriminate|].
  intros [= <- <-]. cbn [profiles logs profiles_seq logs_seq].
  destruct (next_rowid_fresh (profiles_seq t) (map Profile.id (profiles t)))
    as [Hfresh [Hseq _]].
  repeat split; try reflexivity; assumption.
Qed.

Lemma insert_log_counter (c : SQLiteDatabase) (timestamp person : string)
    (profile_id : option Z) (type : string) (severity : Z) (category : LogCategory)
    (notes : option string) (t t' : Tables) (id : Z) :
  insert_log c timestamp person profile_id type severity category notes t
  = Ok (id, t') ->
  logs_seq t < id /\ logs_seq t' = id /\ profiles_seq t' = profiles_seq t
  /\ ~ In id (map LogEntry.id (logs t))
  /\ profiles t' = profiles t
  /\ exists ty,
       parse_type type = Some ty
       /\ logs t' = logs t ++ [LogEntry.mk id timestamp person profile_id ty
                                            severity category notes].
Proof.
  unfold insert_log. destruct (parse_type type) as [ty|]; [|discriminate].
  destruct (negb _); [discriminate|].
  destruct (foreign_keys c && _ && _); [discriminate|].
  intros [= <- <-]. cbn [profiles logs profiles_seq logs_seq].
  destruct (next_rowid_fresh (logs_seq t) (map LogEntry.id (logs t)))
    as [Hfresh [Hseq _]].
  repeat split; try reflexivity; try assumption.
  exists ty. split; reflexivity.
Qed.

Lemma link_person_counters (person : string) (w : World) :
  counters_le (file w) (file (link_person person w)).
Proof.
  unfold link_person.
  destruct (select_profile_ids_by_name person (file w)).
  - split; cbn [file link_logs profiles_seq logs_seq]; [|lia].
    destruct (next_rowid_fresh (profiles_seq (file w))
                               (map Profile.id (profiles (file w)))) as [_ [H _]].
    lia.
  - split; cbn [file set_file link_logs profiles_seq logs_seq]; lia.
Qed.

Lemma opened_counters (w : World) : counters_le (file w) (file (opened w)).
Proof.
  unfold opened, Db.getDatabase.
  destruct (db w); [apply counters_le_refl|].
  unfold bind, Db.initializeDatabase. rewrite migrateExistingData_run. cbn [snd ret].
  set (w0 := {| db := Some openDatabase; file := file w;
                clock := clock w; reads := reads w |}).
  change (file w) with (file w0).
  destruct (select_unlinked_people (file w0)) as [|p ps]; [apply counters_le_refl|].
  generalize (p :: ps). intros people. clearbody w0.
  revert w0. induction people as [|person rest IH]; intros w0;
    [apply counters_le_refl|].
  cbn [fold_left]. eapply counters_le_trans; [apply link_person_counters | apply IH].
Qed.

Lemma update_profiles_counters (fields : list (ProfileColumn * string)) (id : Z)
    (t t' : Tables) :
  update_profiles fields id t = Ok t' -> counters_le t t'.
Proof.
  unfold update_profiles. destruct (_ && _); [discriminate|].
  intros [= <-]. split; cbn [profiles_seq logs_seq]; lia.
Qed.

Lemma perform_counters (w : World) (op : Operation) :
  counters_le (file w) (file (perform w op)).
Proof.
  eapply counters_le_trans; [apply opened_counters|].
  destruct op as [profile | id updates | id | entry | id | editingLog editLogNotes];
    cbn [perform].
  - rewrite createProfile_run.
    destruct (insert_profile _ _ _ (file (opened w))) as [[id t]|e] eqn:E;
      cbn [snd file set_file tick]; [|apply counters_le_refl].
    apply insert_profile_counter in E. unfold counters_le. lia.
  - rewrite updateProfile_run.
    destruct (fields_of updates) as [|f fs]; [apply counters_le_refl|].
    destruct (update_profiles (f :: fs) id (file (opened w))) as [t|e] eqn:E;
      cbn [snd file set_file]; [|apply counters_le_refl].
    eapply update_profiles_counters; eassumption.
  - destruct (deleteProfile_run id w) as [database [_ ->]].
    split; cbn [snd file set_file delete_profile profiles_seq logs_seq]; lia.
  - destruct (insertLog_run entry w) as [database [_ ->]].
    destruct (insert_log _ _ _ _ _ _ _ _ (file (opened w))) as [[id t]|e] eqn:E;
      cbn [snd file set_file tick]; [|apply counters_le_refl].
    apply insert_log_counter in E. unfold counters_le. lia.
  - rewrite deleteLog_run.
    split; cbn [snd file set_file delete_log profiles_seq logs_seq]; lia.
  - rewrite handleSaveLogEdit_run.
    split; cbn [snd file set_file update_log_notes profiles_seq logs_seq]; lia.
Qed.

Lemma perform_all_counters (ops : list Operation) (w : World) :
  counters_le (file w) (file (perform_all ops w)).
Proof.
  unfold perform_all. revert w.
  induction ops as [|op ops IH]; intros w; [apply counters_le_refl|].
  cbn [fold_left]. eapply counters_le_trans; [apply perform_counters | apply IH].
Qed.

Lemma perform_all_well_formed_file (ops : list Operation) (w : World) :
  well_formed (file w) -> well_formed (file (perform_all ops w)).
Proof.
  unfold perform_all. revert w.
  induction ops as [|op ops IH]; intros w H; [exact H|].
  cbn [fold_left]. apply IH. now apply perform_well_formed.
Qed.

Lemma getProfileById_run (id : Z) (w : World) :
  Db.getProfileById id w
  = (Ok match select_profiles_by_id id (file (opened w)) with
        | p :: _ => Some p
        | [] => None
        end,
     opened w).
Proof.
  unfold Db.getProfileById.
  match goal with
  | |- bind Db.getDatabase ?k w = _ => destruct (run_opened k w) as [database [_ ->]]
  end.
  reflexivity.
Qed.

Lemma getLogsByProfileId_run (profileId : Z) (w : World) :
  Db.getLogsByProfileId profileId w
  = (Ok (select_logs_by_profile_id profileId (file (opened w))), opened w).
Proof.
  unfold Db.getLogsByProfileId.
  match goal with
  | |- bind Db.getDatabase ?k w = _ => destruct (run_opened k w) as [database [_ ->]]
  end.
  reflexivity.
Qed.

Lemma getProfileStats_run (profileId : Z) (w : World) :
  Db.getProfileStats profileId w
  = (Ok match select_profiles_by_id profileId (file (opened w)) with
        | profile :: _ =>
            Some (ProfileDetailScreen.reportStats profile
                    (select_logs_by_profile_id profileId (file (opened w))))
        | [] => None
        end,
     opened w).
Proof.
  unfold Db.getProfileStats. unfold bind at 1. rewrite getProfileById_run.
  destruct (select_profiles_by_id profileId (file (opened w))) as [|p ps];
    [reflexivity|].
  unfold bind. rewrite getLogsByProfileId_run, opened_idempotent. reflexivity.
Qed.

End Keys.


(** ** Statistics and limits *)

Section Statistics.

Import Model JS Spec.

Lemma count_by_type (logs : list LogEntry.t) :
  List.length logs
  = (List.length (filter (Db.is_type RED) logs)
     + List.length (filter (Db.is_type YELLOW) logs)
     + List.length (filter (Db.is_type GREEN) logs))%nat.
Proof.
  induction logs as [|l ls IH]; [reflexivity|].
  cbn [filter List.length].
  assert (H : forall ty, Db.is_type ty l
                         = match LogEntry.type l, ty with
                           | GREEN, GREEN | YELLOW, YELLOW | RED, RED => true
                           | _, _ => false
                           end) by reflexivity.
  rewrite !H. destruct (LogEntry.type l); cbn [List.length]; lia.
Qed.

Lemma opened_logs_length (w : World) :
  List.length (logs (file (opened w))) = List.length (logs (file w)).
Proof.
  unfold opened, Db.getDatabase.
  destruct (db w); [reflexivity|].
  unfold bind, Db.initializeDatabase. rewrite migrateExistingData_run. cbn [snd ret].
  set (w0 := {| db := Some openDatabase; file := file w;
                clock := clock w; reads := reads w |}).
  change (file w) with (file w0).
  destruct (select_unlinked_people (file w0)) as [|p ps]; [reflexivity|].
  symmetry. eapply Forall2_length. apply migrate_fold_keeps_linked.
Qed.

(** Rows selected from a well-formed table make a list the scoring
    results apply to. *)
Lemma selected_rows_scored (t : Tables) (rows : list LogEntry.t) :
  well_formed t -> array (logs t) ->
  (forall l, In l rows -> In l (logs t)) ->
  (List.length rows <= List.length (logs t))%nat ->
  exists score,
    Db.calculateVibeScore rows = of_Z score
    /\ 0 <= score <= 100
    /\ Db.getHealthStatus (of_Z score) = classifyHealth score
    /\ (rows = [] -> score = 0).
Proof.
  intros Hwf Harr Hsub Hlen.
  assert (Hst : Forall stored_severity rows).
  { apply Forall_forall. intros l Hl.
    pose proof (severities_checked t Hwf) as H. rewrite Forall_forall in H.
    apply H, Hsub, Hl. }
  assert (Harr' : array rows) by (unfold array in *; lia).
  exists (computeToxicityScore rows).
  pose proof (computeToxicityScore_range rows) as Hr.
  split; [apply calculateVibeScore_computeToxicityScore;
          [now apply stored_is_bounded | assumption]|].
  split; [exact Hr|]. split.
  - apply getHealthStatus_classifyHealth.
    change (2 ^ prec) with 9007199254740992. lia.
  - intros ->. reflexivity.
Qed.

Lemma getTopProfilesByLogCount_run (limit : nat) (w : World) :
  Db.getTopProfilesByLogCount limit w
  = (Ok match select_top_profiles on_profile_id limit (file (opened w)) with
        | [] => select_top_profiles on_person limit (file (opened w))
        | rows => rows
        end,
     opened w).
Proof.
  unfold Db.getTopProfilesByLogCount.
  match goal with
  | |- bind Db.getDatabase ?k w = _ => destruct (run_opened k w) as [database [_ ->]]
  end.
  unfold bind, getAllAsync, ret.
  destruct (select_top_profiles on_profile_id limit (file (opened w))); reflexivity.
Qed.

Lemma getRecentLogs_run (limit : Z) (w : World) :
  Db.getRecentLogs limit w = (Ok (select_recent_logs limit (file (opened w))), opened w).
Proof.
  unfold Db.getRecentLogs.
  match goal with
  | |- bind Db.getDatabase ?k w = _ => destruct (run_opened k w) as [database [_ ->]]
  end.
  reflexivity.
Qed.

Lemma getAllLogs_run (w : World) :
  Db.getAllLogs w = (Ok (select_all_logs (file (opened w))), opened w).
Proof.
  unfold Db.getAllLogs.
  match goal with
  | |- bind Db.getDatabase ?k w = _ => destruct (run_opened k w) as [database [_ ->]]
  end.
  reflexivity.
Qed.

Lemma getAllProfiles_run (w : World) :
  Db.getAllProfiles w = (Ok (select_all_profiles (file (opened w))), opened w).
Proof.
  unfold Db.getAllProfiles.
  match goal with
  | |- bind Db.getDatabase ?k w = _ => destruct (run_opened k w) as [database [_ ->]]
  end.
  reflexivity.
Qed.

Lemma collect_stats_run (ps : list Profile.t) (stats : list ProfileStats.t)
    (w : World) (database : SQLiteDatabase) :
  db w = Some database ->
  NoDup (map Profile.id (profiles (file w))) ->
  (forall p, In p ps -> In p (profiles (file w))) ->
  Db.collect_stats ps stats w
  = (Ok (stats
         ++ map (fun p =>
                   ProfileDetailScreen.reportStats p
                     (select_logs_by_profile_id (Profile.id p) (file w)))
                ps),
     w).
Proof.
  intros Hdb Hnd. revert stats.
  induction ps as [|p ps IH]; intros stats Hin.
  - cbn [Db.collect_stats map]. now rewrite app_nil_r.
  - cbn [Db.collect_stats map]. unfold bind at 1.
    rewrite getProfileStats_run, (opened_open _ _ Hdb).
    unfold select_profiles_by_id.
    rewrite select_by_key; [|assumption | apply Hin; now left].
    rewrite IH by (intros q Hq; apply Hin; now right).
    now rewrite <- app_assoc.
Qed.

(** Comparisons with the limits of the tiers. *)
Lemma ge_Infinity (c : Z) :
  Z.abs c < 2 ^ prec -> ge (of_Z c) RevenueCatService.Infinity = false.
Proof.
  intros Hc. rewrite of_Z_canon by assumption. now destruct c.
Qed.

Lemma allowed_addProfile (customerInfo : option RevenueCatService.CustomerInfo)
    (currentCount : Z) :
  Z.abs currentCount < 2 ^ 53 ->
  RevenueCatService.allowed
    (RevenueCatService.canPerformAction customerInfo "addProfile" (Some currentCount))
  = match RevenueCatService.getCurrentTier customerInfo with
    | RevenueCatService.free => currentCount <? 2
    | _ => true
    end.
Proof.
  intros Hc. unfold RevenueCatService.canPerformAction, RevenueCatService.getLimits.
  cbn [String.eqb Ascii.eqb Bool.eqb].
  destruct (RevenueCatService.getCurrentTier customerInfo);
    cbn [RevenueCatService.maxProfiles RevenueCatService.FREE_LIMITS
         RevenueCatService.PRO_LIMITS RevenueCatService.PREMIUM_LIMITS];
    rewrite ?ge_Infinity by assumption; try reflexivity.
  rewrite ge_of_Z by (try assumption; reflexivity).
  rewrite Z.ltb_antisym. now destruct (2 <=? currentCount).
Qed.

Lemma allowed_addLog (customerInfo : option RevenueCatService.CustomerInfo)
    (currentCount : Z) :
  Z.abs currentCount < 2 ^ 53 ->
  RevenueCatService.allowed
    (RevenueCatService.canPerformAction customerInfo "addLog" (Some currentCount))
  = match RevenueCatService.getCurrentTier customerInfo with
    | RevenueCatService.free => currentCount <? 25
    | _ => true
    end.
Proof.
  intros Hc. unfold RevenueCatService.canPerformAction, RevenueCatService.getLimits.
  cbn [String.eqb Ascii.eqb Bool.eqb].
  destruct (RevenueCatService.getCurrentTier customerInfo);
    cbn [RevenueCatService.maxLogs RevenueCatService.FREE_LIMITS
         RevenueCatService.PRO_LIMITS RevenueCatService.PREMIUM_LIMITS];
    rewrite ?ge_Infinity by assumption; try reflexivity.
  rewrite ge_of_Z by (try assumption; reflexivity).
  rewrite Z.ltb_antisym. now destruct (25 <=? currentCount).
Qed.

Lemma allowed_exportPDF (customerInfo : option RevenueCatService.CustomerInfo)
    (count : option Z) :
  RevenueCatService.allowed
    (RevenueCatService.canPerformAction customerInfo "exportPDF" count)
  = match RevenueCatService.getCurrentTier customerInfo with
    | RevenueCatService.free => false
    | _ => true
    end.
Proof.
  unfold RevenueCatService.canPerformAction, RevenueCatService.getLimits.
  now destruct (RevenueCatService.getCurrentTier customerInfo).
Qed.

Lemma allowed_useAI (customerInfo : option RevenueCatService.CustomerInfo)
    (count : option Z) :
  RevenueCatService.allowed
    (RevenueCatService.canPerformAction customerInfo "useAI" count)
  = match RevenueCatService.getCurrentTier customerInfo with
    | RevenueCatService.premium => true
    | _ => false
    end.
Proof.
  unfold RevenueCatService.canPerformAction, RevenueCatService.getLimits.
  now destruct (RevenueCatService.getCurrentTier customerInfo).
Qed.

End Statistics.


(** ** Reading and deleting rows *)

Section ReadingRows.

Import Model.

Ltac open_db w :=
  match goal with
  | |- context [bind Db.getDatabase ?k w] =>
      let database := fresh "database" in
      let Hdb := fresh "Hdb" in
      let Hrun := fresh "Hrun" in
      destruct (run_opened k w) as [database [Hdb Hrun]]; rewrite Hrun; clear Hrun
  end.

Lemma NoDup_distinct (l : list string) : NoDup (distinct l).
Proof.
  induction l as [|x xs IH]; cbn [distinct]; constructor.
  - rewrite filter_In. intros [_ H]. now rewrite String.eqb_refl in H.
  - now apply NoDup_filter.
Qed.

Lemma limit_rows_length {A : Type} (limit : Z) (rows : list A) :
  0 <= limit ->
  List.length (limit_rows limit rows) = Nat.min (Z.to_nat limit) (List.length rows).
Proof.
  intros H. unfold limit_rows.
  destruct (Z.ltb_spec limit 0); [lia | apply length_firstn].
Qed.

(** X1. [getAllProfiles] returns every stored profile, in alphabetical
    (bytewise) order of the names, and changes nothing beyond opening
    the database; the profiles screen, which runs the query itself,
    shows the same list whatever it showed before. *)
Theorem getAllProfiles_ascending (w : World) (shown : list Profile.t) :
  exists rows,
    Db.getAllProfiles w = (Ok rows, opened w)
    /\ ProfilesScreen.fetchProfiles shown w = (Ok rows, opened w)
    /\ Permutation rows (profiles (file (opened w)))
    /\ ascending_by_name rows.
Proof.
  unfold Db.getAllProfiles, ProfilesScreen.fetchProfiles, try_catch. open_db w.
  exists (select_all_profiles (file (opened w))). split; [reflexivity|].
  split; [reflexivity|].
  split; [apply order_by_perm|].
  apply (order_by_sorted name_before_or_same name_before_or_same_total).
Qed.

(** X2. [getAllLogs] returns every stored log, newest first, and
    [getRecentLogs limit] returns the first [limit] rows of that list
    (all of them when the limit is negative): never more than [limit]
    rows, and exactly [limit] when that many are stored. *)
Theorem getRecentLogs_prefix (limit : Z) (w : World) :
  exists all rows,
    Db.getAllLogs w = (Ok all, opened w)
    /\ Db.getRecentLogs limit w = (Ok rows, opened w)
    /\ Permutation all (logs (file (opened w)))
    /\ newest_first all
    /\ rows = (if limit <? 0 then all else firstn (Z.to_nat limit) all)
    /\ newest_first rows
    /\ (0 <= limit ->
        List.length rows
        = Nat.min (Z.to_nat limit) (List.length (logs (file (opened w))))).
Proof.
  unfold Db.getAllLogs, Db.getRecentLogs.
  destruct (run_opened (fun _ => getAllAsync select_all_logs) w) as [d1 [_ ->]].
  destruct (run_opened (fun _ => getAllAsync (select_recent_logs limit)) w)
    as [d2 [_ ->]].
  exists (select_all_logs (file (opened w))),
         (select_recent_logs limit (file (opened w))).
  assert (Hs : newest_first (select_all_logs (file (opened w))))
    by apply (order_by_sorted newer_or_same newer_or_same_total).
  repeat split; try reflexivity; try assumption.
  - apply order_by_perm.
  - unfold select_recent_logs, limit_rows.
    destruct (limit <? 0); [exact Hs | now apply Sorted_firstn].
  - intros H. unfold select_recent_logs.
    rewrite limit_rows_length by assumption.
    now rewrite order_by_length.
Qed.

(** X3. [getUniquePeople] returns each name that some log is filed
    under exactly once, in alphabetical (bytewise) order. *)
Theorem getUniquePeople_spec (w : World) :
  exists people,
    Db.getUniquePeople w = (Ok people, opened w)
    /\ NoDup people
    /\ ascending people
    /\ (forall person,
           In person people
           <-> exists l, In l (logs (file (opened w))) /\ LogEntry.person l = person).
Proof.
  unfold Db.getUniquePeople. open_db w.
  set (names := distinct (map LogEntry.person (logs (file (opened w))))).
  exists (order_by String.leb names).
  split.
  { unfold bind, getAllAsync, ret, select_unique_people. fold names.
    rewrite map_map. cbn [person]. now rewrite map_id. }
  pose proof (order_by_perm String.leb names) as Hperm.
  split; [|split].
  - eapply Permutation_NoDup; [apply Permutation_sym, Hperm | apply NoDup_distinct].
  - apply (order_by_sorted String.leb String.leb_total).
  - intros person. split.
    + intros H. apply (Permutation_in _ Hperm) in H.
      apply In_distinct, in_map_iff in H. destruct H as [l [E Hl]]. eauto.
    + intros [l [Hl E]]. apply (Permutation_in _ (Permutation_sym Hperm)).
      apply In_distinct, in_map_iff. eauto.
Qed.

End ReadingRows.


(** ** Deleting and editing logs; the lists the screens keep *)

Section DeletingLogs.

Import Model.

Lemma filter_comm {A : Type} (p q : A -> bool) (l : list A) :
  filter p (filter q l) = filter q (filter p l).
Proof.
  induction l as [|x xs IH]; [reflexivity|].
  cbn [filter]. destruct (p x) eqn:Ep, (q x) eqn:Eq; cbn [filter];
    rewrite ?Ep, ?Eq, IH; reflexivity.
Qed.

Lemma delete_log_select_all (id : Z) (t : Tables) :
  select_all_logs (delete_log id t) = filter (other_than id) (select_all_logs t).
Proof.
  unfold select_all_logs, delete_log. cbn [logs]. symmetry.
  apply (order_by_filter newer_or_same newer_or_same_total newer_or_same_trans).
Qed.

Lemma delete_log_select_by_profile_id (id profileId : Z) (t : Tables) :
  select_logs_by_profile_id profileId (delete_log id t)
  = filter (other_than id) (select_logs_by_profile_id profileId t).
Proof.
  unfold select_logs_by_profile_id, delete_log. cbn [logs].
  rewrite (order_by_filter newer_or_same newer_or_same_total newer_or_same_trans).
  f_equal. apply filter_comm.
Qed.

Lemma delete_log_select_by_person (id : Z) (person : string) (t : Tables) :
  select_logs_by_person person (delete_log id t)
  = filter (other_than id) (select_logs_by_person person t).
Proof.
  unfold select_logs_by_person, delete_log. cbn [logs].
  rewrite (order_by_filter newer_or_same newer_or_same_total newer_or_same_trans).
  f_equal. apply filter_comm.
Qed.

Lemma filter_all {A : Type} (p : A -> bool) (l : list A) :
  Forall (fun x => p x = true) l -> filter p l = l.
Proof.
  induction 1 as [|x xs Hx _ IH]; [reflexivity|].
  cbn [filter]. now rewrite Hx, IH.
Qed.

Lemma fetchProfileData_run (profileId : Z) (w : World) :
  ProfileDetailScreen.fetchProfileData profileId w
  = (Ok match select_profiles_by_id profileId (file (opened w)) with
        | [] => (None, [])
        | loadedProfile :: _ =>
            (Some loadedProfile,
             match select_logs_by_profile_id profileId (file (opened w)) with
             | [] => select_logs_by_person (Profile.name loadedProfile)
                                           (file (opened w))
             | rows => rows
             end)
        end,
     opened w).
Proof.
  unfold ProfileDetailScreen.fetchProfileData.
  destruct (run_opened
              (fun _ =>
                 profileResults <- getAllAsync (select_profiles_by_id profileId) ;;
                 match profileResults with
                 | [] => ret (None, [])
                 | loadedProfile :: _ =>
                     logResults <- getAllAsync (select_logs_by_profile_id profileId) ;;
                     logResults <-
                       (if (List.length logResults =? 0)%nat
                        then getAllAsync
                               (select_logs_by_person (Profile.name loadedProfile))
                        else ret logResults) ;;
                     ret (Some loadedProfile, logResults)
                 end) w) as [database [_ ->]].
  unfold bind, getAllAsync, ret.
  destruct (select_profiles_by_id profileId (file (opened w))) as [|p ps];
    [reflexivity|].
  destruct (select_logs_by_profile_id profileId (file (opened w))); reflexivity.
Qed.

(** X4. [deleteLog] never throws. It removes the rows with the given
    id and no other, leaves the profiles alone, and changes nothing
    when no log has that id; every list of logs read afterwards is the
    list read before without those rows, in the same order. *)
Theorem deleteLog_removes (id : Z) (w : World) :
  exists w',
    Db.deleteLog id w = (Ok tt, w')
    /\ logs (file w')
       = filter (fun l => negb (LogEntry.id l =? id)) (logs (file (opened w)))
    /\ profiles (file w') = profiles (file (opened w))
    /\ (~ In id (map LogEntry.id (logs (file (opened w)))) ->
        file w' = file (opened w))
    /\ Db.getAllLogs w'
       = (Ok (filter (fun l => negb (LogEntry.id l =? id))
                     (select_all_logs (file (opened w)))), w')
    /\ (forall profileId,
           Db.getLogsByProfileId profileId w'
           = (Ok (filter (fun l => negb (LogEntry.id l =? id))
                         (select_logs_by_profile_id profileId (file (opened w)))),
              w')).
Proof.
  unfold Db.deleteLog.
  destruct (run_opened (fun _ => runAsync (delete_log id)) w) as [database [Hdb ->]].
  eexists. split; [reflexivity|].
  set (w' := set_file (delete_log id (file (opened w))) (opened w)).
  assert (Hdb' : db w' = Some database) by exact Hdb.
  split; [reflexivity|]. split; [reflexivity|]. split; [|split].
  - intros Hnot. unfold w'. cbn [file set_file].
    unfold delete_log. rewrite filter_all; [now destruct (file (opened w))|].
    apply Forall_forall. intros l Hl.
    destruct (Z.eqb_spec (LogEntry.id l) id) as [E | _]; [|reflexivity].
    exfalso. apply Hnot. rewrite <- E. now apply in_map.
  - unfold Db.getAllLogs. rewrite (run_on_open _ w' database Hdb').
    unfold getAllAsync, w'. cbn [file set_file].
    now rewrite delete_log_select_all.
  - intros profileId. unfold Db.getLogsByProfileId.
    rewrite (run_on_open _ w' database Hdb').
    unfold getAllAsync, w'. cbn [file set_file].
    now rewrite delete_log_select_by_profile_id.
Qed.

(** X5. [VaultScreen]: after a swipe-to-delete the list on screen,
    which is filtered locally, is exactly what reloading from the
    database would show. *)
Theorem VaultScreen_handleDelete_in_sync (id : Z) (w : World) :
  exists logs w1 logs' w2,
    VaultScreen.loadLogs w = (Ok logs, w1)
    /\ VaultScreen.handleDelete id logs w1 = (Ok logs', w2)
    /\ VaultScreen.loadLogs w2 = (Ok logs', w2)
    /\ ~ In id (map LogEntry.id logs').
Proof.
  unfold VaultScreen.loadLogs, VaultScreen.handleDelete, Db.getAllLogs, Db.deleteLog.
  destruct (run_opened (fun _ => getAllAsync select_all_logs) w) as [database [Hdb ->]].
  exists (select_all_logs (file (opened w))), (opened w).
  set (w1 := opened w) in *.
  exists (filter (other_than id) (select_all_logs (file w1))),
         (set_file (delete_log id (file w1)) w1).
  split; [reflexivity|]. split; [|split].
  - unfold bind at 1. rewrite (run_on_open _ w1 database Hdb). reflexivity.
  - assert (Hdb' : db (set_file (delete_log id (file w1)) w1) = Some database)
      by exact Hdb.
    rewrite (run_on_open _ _ database Hdb').
    unfold getAllAsync. cbn [file set_file].
    now rewrite delete_log_select_all.
  - rewrite in_map_iff. intros [l [E Hl]].
    apply filter_In in Hl. destruct Hl as [_ Hl].
    unfold other_than in Hl. rewrite E, Z.eqb_refl in Hl. discriminate.
Qed.

(** X6. [ProfileDetailScreen]: after deleting a log the list on screen
    is the loaded list without that log, and as long as it is not
    empty it is exactly what reloading the screen would show. *)
Theorem ProfileDetailScreen_handleDelete_in_sync (profileId id : Z) (w w1 : World)
    (profile : Profile.t) (logs : list LogEntry.t) :
  ProfileDetailScreen.fetchProfileData profileId w = (Ok (Some profile, logs), w1) ->
  exists logs' w2,
    ProfileDetailScreen.handleDelete id logs w1 = (Ok logs', w2)
    /\ logs' = filter (fun log => negb (LogEntry.id log =? id)) logs
    /\ profiles (file w2) = profiles (file w1)
    /\ (logs' <> [] ->
        ProfileDetailScreen.fetchProfileData profileId w2
        = (Ok (Some profile, logs'), w2)).
Proof.
  rewrite fetchProfileData_run. intros H.
  injection H as Hres Hw. subst w1.
  destruct (getDatabase_run w) as [database [_ Hdb]].
  set (w1 := opened w) in *.
  unfold ProfileDetailScreen.handleDelete, try_catch.
  rewrite (run_on_open _ w1 database Hdb).
  exists (filter (other_than id) logs), (set_file (delete_log id (file w1)) w1).
  split; [reflexivity|]. split; [reflexivity|]. split; [reflexivity|].
  intros Hne. rewrite fetchProfileData_run.
  assert (Hdb' : db (set_file (delete_log id (file w1)) w1) = Some database)
    by exact Hdb.
  rewrite (opened_open _ _ Hdb'). cbn [file set_file].
  f_equal. f_equal.
  change (select_profiles_by_id profileId (delete_log id (file w1)))
    with (select_profiles_by_id profileId (file w1)).
  destruct (select_profiles_by_id profileId (file w1)) as [|p ps]; [discriminate|].
  injection Hres as Hp Hlogs. subst profile. f_equal.
  rewrite delete_log_select_by_profile_id, delete_log_select_by_person.
  destruct (select_logs_by_profile_id profileId (file w1)) as [|r rs] eqn:E.
  - cbn [filter]. now subst logs.
  - subst logs. destruct (filter (other_than id) (r :: rs)); [contradiction|reflexivity].
Qed.

Lemma with_notes_select_by_profile_id (notes : option string) (id profileId : Z)
    (t : Tables) :
  select_logs_by_profile_id profileId (update_log_notes notes id t)
  = map (with_notes notes id) (select_logs_by_profile_id profileId t).
Proof.
  unfold select_logs_by_profile_id, update_log_notes. cbn [logs].
  change (fun l => if LogEntry.id l =? id then set_notes notes l else l)
    with (with_notes notes id).
  rewrite (order_by_map newer_or_same (with_notes notes id)).
  - f_equal. rewrite filter_map_swap. f_equal. apply filter_ext.
    intros l. unfold with_notes. now destruct (LogEntry.id l =? id).
  - intros a b. unfold with_notes, newer_or_same.
    destruct (LogEntry.id a =? id), (LogEntry.id b =? id); reflexivity.
Qed.

Lemma with_notes_select_by_person (notes : option string) (id : Z) (person : string)
    (t : Tables) :
  select_logs_by_person person (update_log_notes notes id t)
  = map (with_notes notes id) (select_logs_by_person person t).
Proof.
  unfold select_logs_by_person, update_log_notes. cbn [logs].
  change (fun l => if LogEntry.id l =? id then set_notes notes l else l)
    with (with_notes notes id).
  rewrite (order_by_map newer_or_same (with_notes notes id)).
  - f_equal. rewrite filter_map_swap. f_equal. apply filter_ext.
    intros l. unfold with_notes. now destruct (LogEntry.id l =? id).
  - intros a b. unfold with_notes, newer_or_same.
    destruct (LogEntry.id a =? id), (LogEntry.id b =? id); reflexivity.
Qed.

(** The score reads the type and the severity of each entry only. *)
Lemma calculateVibeScore_map (g : LogEntry.t -> LogEntry.t) (logs : list LogEntry.t) :
  (forall l, LogEntry.type (g l) = LogEntry.type l
             /\ LogEntry.severity (g l) = LogEntry.severity l) ->
  Db.calculateVibeScore (map g logs) = Db.calculateVibeScore logs.
Proof.
  intros Hg. unfold Db.calculateVibeScore. rewrite length_map.
  destruct (List.length logs =? 0)%nat; [reflexivity|].
  assert (Hfold : forall (f : JS.number -> LogEntry.t -> JS.number) acc,
             (forall a l, f a (g l) = f a l) ->
             fold_left f (map g logs) acc = fold_left f logs acc).
  { intros f acc Hf. revert acc.
    induction logs as [|l ls IH]; intros acc; [reflexivity|].
    cbn [map fold_left]. now rewrite Hf, IH. }
  rewrite Hfold; [reflexivity|].
  intros a l. now destruct (Hg l) as [-> ->].
Qed.

Lemma ProfileDetailScreen_handleDelete_in_sync_witness :
  exists logs logs' w2,
    ProfileDetailScreen.handleDelete 2 logs Example.with_three_logs = (Ok logs', w2)
    /\ map LogEntry.id logs = [3; 2; 1]
    /\ map LogEntry.id logs' = [3; 1]
    /\ ProfileDetailScreen.fetchProfileData 1 w2 = (Ok (Some (Profile.mk 1 "Alex" "Friend" "2025-03-01T09:00:00.000Z"), logs'), w2).
Proof.
  destruct (ProfileDetailScreen_handleDelete_in_sync 1 2
              Example.with_three_logs Example.with_three_logs
              (Profile.mk 1 "Alex" "Friend" "2025-03-01T09:00:00.000Z")
              (select_logs_by_profile_id 1 (file Example.with_three_logs))
              eq_refl)
    as [logs' [w2 [Hrun [Hlogs [_ Hsync]]]]].
  exists (select_logs_by_profile_id 1 (file Example.with_three_logs)), logs', w2.
  split; [exact Hrun|]. split; [reflexivity|].
  split; [rewrite Hlogs; reflexivity|].
  apply Hsync. rewrite Hlogs. discriminate.
Defined.

(** X7. [ProfileDetailScreen]: saving an edited note writes it to the
    rows with the edited log's id (an empty note is stored as NULL)
    and to no other row; the list on screen stays exactly what
    reloading would show, and the vibe score does not change. With no
    log being edited nothing happens. *)
Theorem handleSaveLogEdit_in_sync (profileId : Z) (w w1 : World)
    (profile : Profile.t) (logs : list LogEntry.t)
    (editingLog : LogEntry.t) (editLogNotes : string) :
  ProfileDetailScreen.fetchProfileData profileId w = (Ok (Some profile, logs), w1) ->
  (exists logs' w2,
      ProfileDetailScreen.handleSaveLogEdit (Some editingLog) editLogNotes logs w1
      = (Ok logs', w2)
      /\ ProfileDetailScreen.fetchProfileData profileId w2
         = (Ok (Some profile, logs'), w2)
      /\ ProfileDetailScreen.calculateVibeScore logs'
         = ProfileDetailScreen.calculateVibeScore logs
      /\ Sqlite.logs (file w2)
         = map (fun l =>
                  if LogEntry.id l =? LogEntry.id editingLog
                  then set_notes (if (editLogNotes =? "")%string then None
                                  else Some editLogNotes) l
                  else l)
               (Sqlite.logs (file w1)))
  /\ ProfileDetailScreen.handleSaveLogEdit None editLogNotes logs w1 = (Ok logs, w1).
Proof.
  rewrite fetchProfileData_run. intros H. split; [|reflexivity].
  injection H as Hres Hw. subst w1.
  destruct (getDatabase_run w) as [database [_ Hdb]].
  set (w1 := opened w) in *.
  set (notes := JS.or_null_string (Some editLogNotes)).
  set (id := LogEntry.id editingLog).
  unfold ProfileDetailScreen.handleSaveLogEdit, try_catch.
  rewrite (run_on_open _ w1 database Hdb).
  fold notes id.
  exists (map (with_notes notes id) logs),
         (set_file (update_log_notes notes id (file w1)) w1).
  split; [reflexivity|].
  assert (Hdb' : db (set_file (update_log_notes notes id (file w1)) w1) = Some database)
    by exact Hdb.
  split; [|split].
  - rewrite fetchProfileData_run, (opened_open _ _ Hdb'). cbn [file set_file].
    f_equal. f_equal.
    change (select_profiles_by_id profileId (update_log_notes notes id (file w1)))
      with (select_profiles_by_id profileId (file w1)).
    destruct (select_profiles_by_id profileId (file w1)) as [|p ps]; [discriminate|].
    injection Hres as Hp Hlogs. subst profile. f_equal.
    rewrite with_notes_select_by_profile_id, with_notes_select_by_person.
    destruct (select_logs_by_profile_id profileId (file w1)) as [|r rs] eqn:E;
      now subst logs.
  - apply calculateVibeScore_map. intros l. unfold with_notes.
    destruct (LogEntry.id l =? id); split; reflexivity.
  - cbn [file set_file update_log_notes Sqlite.logs]. apply map_ext. intros l.
    unfold notes. destruct editLogNotes; reflexivity.
Qed.

Lemma handleSaveLogEdit_in_sync_witness :
  exists logs logs' w2,
    ProfileDetailScreen.handleSaveLogEdit
      (Some (Example.legacy_row 2 "Alex")) "late again" logs Example.with_three_logs
    = (Ok logs', w2)
    /\ ProfileDetailScreen.fetchProfileData 1 w2
       = (Ok (Some (Profile.mk 1 "Alex" "Friend" "2025-03-01T09:00:00.000Z"), logs'), w2)
    /\ map LogEntry.notes logs' = [None; Some "late again"%string; None].
Proof.
  destruct (proj1 (handleSaveLogEdit_in_sync 1
                     Example.with_three_logs Example.with_three_logs
                     (Profile.mk 1 "Alex" "Friend" "2025-03-01T09:00:00.000Z")
                     (select_logs_by_profile_id 1 (file Example.with_three_logs))
                     (Example.legacy_row 2 "Alex") "late again" eq_refl))
    as [logs' [w2 [Hrun [Hsync _]]]].
  exists (select_logs_by_profile_id 1 (file Example.with_three_logs)), logs', w2.
  split; [exact Hrun|]. split; [exact Hsync|].
  injection Hrun as <- _. reflexivity.
Defined.

End DeletingLogs.


(** ** Keys and round trips *)

Section KeysAndRoundTrips.

Import Model.

(** X8. Whatever sequence of writes the application performs, and
    whether each one succeeds or throws, the stored tables keep the
    schema's invariants: profile ids, profile names and log ids stay
    unique, every id is positive and at most its table's AUTOINCREMENT
    counter, every severity is from 1 to 10; and the counters never go
    down. *)
Theorem operations_keep_well_formed (ops : list Operation) (w : World) :
  well_formed (file w) ->
  well_formed (file (perform_all ops w))
  /\ counters_le (file w) (file (perform_all ops w)).
Proof.
  intros H. split; [now apply perform_all_well_formed_file|].
  apply perform_all_counters.
Qed.

Lemma operations_keep_well_formed_witness :
  well_formed
    (file (perform_all
             [CreateProfile Example.alex;
              InsertLog (Example.flag (Some 1) "RED" 7);
              InsertLog (Example.flag (Some 1) "PURPLE" 7);
              UpdateProfile 1 (PartialNewProfile.mk (Some "Alexis"%string) None);
              DeleteProfile 1;
              CreateProfile Example.alex]
             Example.fresh)).
Proof.
  apply (operations_keep_well_formed _ Example.fresh).
  constructor; cbn; constructor.
Defined.

(** X9. A profile id is never handed out twice: a [createProfile] that
    succeeds after an earlier one, whatever was written or deleted in
    between, returns a strictly larger id. *)
Theorem createProfile_never_reuses_id (first later : NewProfile.t)
    (ops : list Operation) (w w1 w2 : World) (id1 id2 : Z) :
  Db.createProfile first w = (Ok id1, w1) ->
  Db.createProfile later (perform_all ops w1) = (Ok id2, w2) ->
  id1 < id2.
Proof.
  rewrite !createProfile_run.
  destruct (insert_profile _ _ _ (file (opened w))) as [[i1 t1]|e1] eqn:E1;
    [|discriminate].
  intros [= -> <-].
  set (w' := perform_all ops (set_file t1 (tick (opened w)))).
  destruct (insert_profile _ _ _ (file (opened w'))) as [[i2 t2]|e2] eqn:E2;
    [|discriminate].
  intros [= -> <-].
  apply insert_profile_counter in E1, E2.
  pose proof (perform_all_counters ops (set_file t1 (tick (opened w)))) as [H1 _].
  pose proof (opened_counters w') as [H2 _].
  fold w' in H1. cbn [file set_file] in H1. lia.
Qed.

Lemma createProfile_never_reuses_id_witness :
  exists w2,
    Db.createProfile Example.alex (perform_all [DeleteProfile 1] Example.with_alex)
    = (Ok 2, w2)
    /\ 1 < 2.
Proof.
  eexists. split; [reflexivity|].
  exact (createProfile_never_reuses_id Example.alex Example.alex [DeleteProfile 1]
           Example.fresh Example.with_alex _ 1 2 eq_refl eq_refl).
Defined.

(** X10. A log id is never handed out twice either. *)
Theorem insertLog_never_reuses_id (first later : NewLogEntry.t)
    (ops : list Operation) (w w1 w2 : World) (id1 id2 : Z) :
  Db.insertLog first w = (Ok id1, w1) ->
  Db.insertLog later (perform_all ops w1) = (Ok id2, w2) ->
  id1 < id2.
Proof.
  destruct (insertLog_run first w) as [d1 [_ ->]].
  destruct (insert_log _ _ _ _ _ _ _ _ (file (opened w))) as [[i1 t1]|e1] eqn:E1;
    [|discriminate].
  intros [= -> <-].
  set (w' := perform_all ops (set_file t1 (tick (opened w)))).
  destruct (insertLog_run later w') as [d2 [_ ->]].
  destruct (insert_log _ _ _ _ _ _ _ _ (file (opened w'))) as [[i2 t2]|e2] eqn:E2;
    [|discriminate].
  intros [= -> <-].
  apply insert_log_counter in E1, E2.
  pose proof (perform_all_counters ops (set_file t1 (tick (opened w)))) as [_ H1].
  pose proof (opened_counters w') as [_ H2].
  fold w' in H1. cbn [file set_file] in H1. lia.
Qed.

Lemma insertLog_never_reuses_id_witness :
  exists w1 w2,
    Db.insertLog (Example.flag (Some 1) "RED" 7) Example.with_alex = (Ok 1, w1)
    /\ Db.insertLog (Example.flag (Some 1) "GREEN" 3) (perform_all [DeleteLog 1] w1)
       = (Ok 2, w2)
    /\ 1 < 2.
Proof.
  eexists. eexists. split; [reflexivity|]. split; [reflexivity|].
  exact (insertLog_never_reuses_id
           (Example.flag (Some 1) "RED" 7) (Example.flag (Some 1) "GREEN" 3)
           [DeleteLog 1] Example.with_alex _ _ 1 2 eq_refl eq_refl).
Defined.

(** X11. After a successful [createProfile], [getProfileById] of the
    returned id gives the profile with the name and relationship
    passed in and the time read at the call; every profile stored
    before is still there, and no log was touched. *)
Theorem createProfile_then_getProfileById (profile : NewProfile.t)
    (w w1 : World) (id : Z) :
  Db.createProfile profile w = (Ok id, w1) ->
  Db.getProfileById id w1
  = (Ok (Some (Profile.mk id (NewProfile.name profile)
                          (NewProfile.relationship profile)
                          (clock (opened w) (reads (opened w))))),
     w1)
  /\ profiles (file w1)
     = profiles (file (opened w))
       ++ [Profile.mk id (NewProfile.name profile) (NewProfile.relationship profile)
                      (clock (opened w) (reads (opened w)))]
  /\ logs (file w1) = logs (file (opened w))
  /\ ~ In id (map Profile.id (profiles (file (opened w)))).
Proof.
  rewrite createProfile_run.
  destruct (insert_profile _ _ _ (file (opened w))) as [[i t]|e] eqn:E;
    [|discriminate].
  intros [= -> <-].
  apply insert_profile_counter in E.
  destruct E as [_ [_ [_ [Hfresh [Hprofiles Hlogs]]]]].
  destruct (getDatabase_run w) as [database [_ Hdb]].
  assert (Hdb' : db (set_file t (tick (opened w))) = Some database) by exact Hdb.
  split; [|repeat split; assumption].
  rewrite getProfileById_run, (opened_open _ _ Hdb'). cbn [file set_file].
  unfold select_profiles_by_id. rewrite Hprofiles, filter_app.
  rewrite (select_missing_key _ _ Hfresh). cbn [filter app Profile.id].
  now rewrite Z.eqb_refl.
Qed.

Lemma createProfile_then_getProfileById_witness :
  Db.getProfileById 1 Example.with_alex
  = (Ok (Some (Profile.mk 1 "Alex" "Friend" "2025-03-01T09:00:00.000Z")),
     Example.with_alex).
Proof.
  exact (proj1 (createProfile_then_getProfileById Example.alex Example.fresh
                  Example.with_alex 1 eq_refl)).
Defined.

(** X12. After a successful [insertLog] that names a profile,
    [getLogsByProfileId] of that profile returns the logs it returned
    before together with the new row, newest first; the new row
    carries the returned id, the entry's fields and the time read at
    the call; the lists of all other profiles are as before. *)
Theorem insertLog_then_getLogsByProfileId (entry : NewLogEntry.t)
    (w w1 : World) (id profileId : Z) :
  Db.insertLog entry w = (Ok id, w1) ->
  NewLogEntry.profile_id entry = Some profileId -> profileId <> 0 ->
  exists type rows,
    parse_type (NewLogEntry.type entry) = Some type
    /\ Db.getLogsByProfileId profileId w1 = (Ok rows, w1)
    /\ Permutation rows
         (LogEntry.mk id (clock (opened w) (reads (opened w)))
                      (NewLogEntry.person entry) (Some profileId) type
                      (NewLogEntry.severity entry) (NewLogEntry.category entry)
                      (JS.or_null_string (NewLogEntry.notes entry))
          :: select_logs_by_profile_id profileId (file (opened w)))
    /\ newest_first rows
    /\ (forall other,
           other <> profileId ->
           Db.getLogsByProfileId other w1
           = (Ok (select_logs_by_profile_id other (file (opened w))), w1)).
Proof.
  intros Hrun Hpid Hnz.
  destruct (insertLog_run entry w) as [database [Hdb Hrun']].
  rewrite Hrun' in Hrun. clear Hrun'.
  destruct (insert_log _ _ _ _ _ _ _ _ (file (opened w))) as [[i t]|e] eqn:E;
    [|discriminate].
  injection Hrun as -> <-.
  apply insert_log_counter in E.
  destruct E as [_ [_ [_ [_ [_ [type [Hty Hlogs]]]]]]].
  rewrite Hpid in Hlogs.
  replace (JS.or_null_Z (Some profileId)) with (Some profileId) in Hlogs
    by (destruct profileId; [contradiction | reflexivity | reflexivity]).
  assert (Hdb' : db (set_file t (tick (opened w))) = Some database) by exact Hdb.
  exists type. eexists. split; [exact Hty|].
  rewrite getLogsByProfileId_run, (opened_open _ _ Hdb'). cbn [file set_file].
  split; [reflexivity|]. split; [|split].
  - unfold select_logs_by_profile_id at 1. rewrite Hlogs, filter_app.
    cbn [filter LogEntry.profile_id id_eqb]. rewrite Z.eqb_refl.
    eapply perm_trans; [apply order_by_perm|].
    eapply perm_trans; [apply Permutation_app_comm|]. cbn [app].
    apply perm_skip, Permutation_sym, order_by_perm.
  - apply select_logs_by_profile_id_spec.
  - intros other Hother.
    rewrite getLogsByProfileId_run, (opened_open _ _ Hdb'). cbn [file set_file].
    f_equal. f_equal. unfold select_logs_by_profile_id. rewrite Hlogs, filter_app.
    cbn [filter LogEntry.profile_id id_eqb].
    destruct (Z.eqb_spec profileId other) as [Eq | _]; [congruence|].
    now rewrite app_nil_r.
Qed.

Lemma insertLog_then_getLogsByProfileId_witness :
  exists rows w1,
    Db.getLogsByProfileId 1 w1 = (Ok rows, w1)
    /\ map LogEntry.id rows = [1]
    /\ map LogEntry.severity rows = [7].
Proof.
  destruct (insertLog_then_getLogsByProfileId
              (Example.flag (Some 1) "RED" 7) Example.with_alex
              (Example.run (Db.insertLog (Example.flag (Some 1) "RED" 7))
                           Example.with_alex)
              1 1 eq_refl eq_refl ltac:(discriminate))
    as [type [rows [_ [Hrun _]]]].
  exists rows. eexists. split; [exact Hrun|].
  injection Hrun as <-. split; reflexivity.
Defined.

Lemma updated_nothing (updates : PartialNewProfile.t) (p : Profile.t) :
  fields_of updates = [] -> updated updates p = p.
Proof.
  unfold fields_of, updated.
  destruct (PartialNewProfile.name updates), (PartialNewProfile.relationship updates);
    try discriminate.
  intros _. now destruct p.
Qed.

Lemma update_profiles_missing (fields : list (ProfileColumn * string)) (id : Z)
    (t : Tables) :
  ~ In id (map Profile.id (profiles t)) -> update_profiles fields id t = Ok t.
Proof.
  intros Hnot. unfold update_profiles.
  assert (Hno : forall p, In p (profiles t) -> (Profile.id p =? id) = false).
  { intros p Hp. apply Z.eqb_neq. intros E. apply Hnot. rewrite <- E. now apply in_map. }
  replace (existsb _ (profiles t)) with false.
  - rewrite andb_false_r. f_equal.
    replace (map _ (profiles t)) with (profiles t); [now destruct t|].
    rewrite <- (map_id (profiles t)) at 1. apply map_ext_in.
    intros p Hp. now rewrite (Hno p Hp).
  - symmetry. apply existsb_false_filter, filter_none, Forall_forall.
    intros p Hp. now rewrite (Hno p Hp).
Qed.

(** X13. [updateProfile] does nothing, and does not throw, when
    neither field is given or when no profile has the id. *)
Theorem updateProfile_without_effect (id : Z) (updates : PartialNewProfile.t)
    (w : World) :
  (PartialNewProfile.name updates = None
   /\ PartialNewProfile.relationship updates = None)
  \/ ~ In id (map Profile.id (profiles (file (opened w)))) ->
  exists w', Db.updateProfile id updates w = (Ok tt, w') /\ file w' = file (opened w).
Proof.
  intros H. rewrite updateProfile_run.
  destruct (fields_of updates) as [|f fs] eqn:F; [eauto|].
  destruct H as [[Hn Hr] | Hnot].
  - unfold fields_of in F. rewrite Hn, Hr in F. discriminate.
  - rewrite update_profiles_missing by assumption. eexists. split; reflexivity.
Qed.

Lemma updateProfile_without_effect_witness :
  exists w',
    Db.updateProfile 7 (PartialNewProfile.mk (Some "Sam"%string) None) Example.with_alex
    = (Ok tt, w')
    /\ file w' = file Example.with_alex.
Proof.
  apply (updateProfile_without_effect 7 _ Example.with_alex).
  right. cbn. intros [H | []]. discriminate.
Defined.

(** X14. Renaming a profile to a name that another profile holds
    throws the UNIQUE constraint error and changes no row. *)
Theorem updateProfile_unique_name (id : Z) (name : string)
    (relationship : option string) (w : World) (p q : Profile.t) :
  In p (profiles (file (opened w))) -> Profile.id p = id ->
  In q (profiles (file (opened w))) -> Profile.id q <> id -> Profile.name q = name ->
  Db.updateProfile id (PartialNewProfile.mk (Some name) relationship) w
  = (Err CONSTRAINT_UNIQUE, opened w).
Proof.
  intros Hp Ep Hq Eq Hname. rewrite updateProfile_run.
  set (updates := PartialNewProfile.mk (Some name) relationship).
  assert (F : exists f fs, fields_of updates = f :: fs)
    by (unfold fields_of; cbn; eauto).
  destruct F as [f [fs F]]. rewrite F, <- F.
  unfold update_profiles. rewrite sets_name_fields. cbn [negb is_null andb
    PartialNewProfile.name updates].
  replace (existsb _ (profiles (file (opened w)))) with true; [reflexivity|].
  symmetry. apply existsb_exists. exists p. split; [assumption|].
  apply andb_true_intro. split; [now apply Z.eqb_eq|].
  apply existsb_exists. exists q. split; [assumption|].
  apply andb_true_intro. split; [now apply negb_true_iff, Z.eqb_neq|].
  rewrite fold_assign_fields. cbn [updated Profile.name PartialNewProfile.name updates].
  now apply String.eqb_eq.
Qed.

Lemma updateProfile_unique_name_witness :
  Db.updateProfile 2 (PartialNewProfile.mk (Some "Cy"%string) None) Example.five_profiles
  = (Err CONSTRAINT_UNIQUE, Example.five_profiles).
Proof.
  apply (updateProfile_unique_name 2 "Cy" None Example.five_profiles
           (Example.person_row 2 "Bob") (Example.person_row 3 "Cy")).
  - cbn. tauto.
  - reflexivity.
  - cbn. tauto.
  - cbn. lia.
  - reflexivity.
Defined.

(** X15. When no other profile holds the new name, [updateProfile]
    succeeds and [getProfileById] then returns the profile with the
    given fields replaced and its id and creation time kept (renaming
    a profile to its own name is such a case). The other profiles are
    as before and no log row changes, so the logs keep the old name in
    their [person] column. *)
Theorem updateProfile_then_getProfileById (id : Z) (updates : PartialNewProfile.t)
    (w : World) (p : Profile.t) :
  well_formed (file w) ->
  In p (profiles (file (opened w))) -> Profile.id p = id ->
  (forall q name,
      In q (profiles (file (opened w))) -> Profile.id q <> id ->
      PartialNewProfile.name updates = Some name -> Profile.name q <> name) ->
  exists w',
    Db.updateProfile id updates w = (Ok tt, w')
    /\ Db.getProfileById id w' = (Ok (Some (updated updates p)), w')
    /\ profiles (file w')
       = map (fun q => if Profile.id q =? id then updated updates q else q)
             (profiles (file (opened w)))
    /\ logs (file w') = logs (file (opened w)).
Proof.
  intros Hwf Hp Ep Hfree. apply opened_well_formed in Hwf.
  destruct (getDatabase_run w) as [database [_ Hdb]].
  set (g := fun q => if Profile.id q =? id then updated updates q else q).
  assert (Hsel : select_profiles_by_id id
                   {| profiles := map g (profiles (file (opened w)));
                      logs := logs (file (opened w));
                      profiles_seq := profiles_seq (file (opened w));
                      logs_seq := logs_seq (file (opened w)) |}
                 = [updated updates p]).
  { unfold select_profiles_by_id. cbn [profiles].
    rewrite filter_map_swap.
    erewrite filter_ext with (g := fun q => Profile.id q =? Profile.id p).
    - rewrite select_by_key; [|apply Hwf | assumption].
      cbn [map]. unfold g. rewrite Ep, Z.eqb_refl. reflexivity.
    - intros q. unfold g. rewrite Ep.
      destruct (Profile.id q =? id) eqn:Eq; cbn [updated Profile.id]; now rewrite Eq. }
  rewrite updateProfile_run.
  destruct (fields_of updates) as [|f fs] eqn:F.
  - assert (Hsame : map g (profiles (file (opened w))) = profiles (file (opened w))).
    { rewrite <- (map_id (profiles (file (opened w)))) at 2. apply map_ext.
      intros q. unfold g. destruct (Profile.id q =? id); [|reflexivity].
      now apply updated_nothing. }
    exists (opened w). split; [reflexivity|].
    split; [|split; [now rewrite Hsame | reflexivity]].
    rewrite getProfileById_run, opened_idempotent.
    rewrite Hsame in Hsel. unfold select_profiles_by_id in *. cbn [profiles] in Hsel.
    now rewrite Hsel.
  - rewrite <- F. unfold update_profiles. rewrite sets_name_fields.
    replace (negb (is_null (PartialNewProfile.name updates))
             && existsb _ (profiles (file (opened w)))) with false.
    + eexists. split; [reflexivity|].
      assert (Hmap : map (fun q => if Profile.id q =? id
                                   then fold_left assign (fields_of updates) q else q)
                         (profiles (file (opened w)))
                     = map g (profiles (file (opened w)))).
      { apply map_ext. intros q. unfold g. now rewrite fold_assign_fields. }
      rewrite Hmap.
      split; [|split; reflexivity].
      rewrite getProfileById_run.
      erewrite opened_open by exact Hdb. cbn [file set_file].
      now rewrite Hsel.
    + symmetry. destruct (PartialNewProfile.name updates) as [name|] eqn:En;
        [|reflexivity].
      cbn [is_null negb andb].
      apply existsb_false_filter, filter_none, Forall_forall.
      intros p' Hp'. apply andb_false_iff.
      destruct (Z.eqb_spec (Profile.id p') id) as [Ep' | _]; [right | now left].
      apply existsb_false_filter, filter_none, Forall_forall.
      intros q Hq. apply andb_false_iff.
      destruct (Z.eqb_spec (Profile.id q) id) as [Eq | Hne]; [now left | right].
      rewrite fold_assign_fields. unfold updated. rewrite En. cbn [Profile.name].
      apply String.eqb_neq. now apply (Hfree q name).
Qed.

Lemma updateProfile_then_getProfileById_witness :
  exists w',
    Db.updateProfile 1 (PartialNewProfile.mk (Some "Alexis"%string) None)
                     Example.with_three_logs
    = (Ok tt, w')
    /\ Db.getProfileById 1 w'
       = (Ok (Some (Profile.mk 1 "Alexis" "Friend" "2025-03-01T09:00:00.000Z")), w')
    /\ map LogEntry.person (logs (file w')) = ["Alex"; "Alex"; "Alex"]%string.
Proof.
  destruct (updateProfile_then_getProfileById 1
              (PartialNewProfile.mk (Some "Alexis"%string) None)
              Example.with_three_logs
              (Profile.mk 1 "Alex" "Friend" "2025-03-01T09:00:00.000Z"))
    as [w' [Hrun [Hget [_ Hlogs]]]].
  - constructor; cbn; repeat constructor; cbn; try lia; intuition discriminate.
  - cbn. tauto.
  - reflexivity.
  - cbn. intros q name [<- | []] H. now contradiction H.
  - exists w'. split; [exact Hrun|]. split; [exact Hget|].
    rewrite Hlogs. reflexivity.
Defined.

End KeysAndRoundTrips.


(** ** Statistics, the dashboard and the subscription limits *)

Section StatisticsResults.

Import Model JS Spec.

(** X16. [getProfileStats] returns null exactly when no profile has
    the id.  Otherwise it reports that profile with the logs that
    reference it: their number, which is the sum of the red, yellow
    and green counts, each the number of those logs of that type;
    the score of those logs taken newest first, and its label; and
    as last flag date the timestamp of one of those logs that none
    of them exceeds, null exactly when there is no such log. *)
Theorem getProfileStats_counts (profileId : Z) (w : World) :
  exists result,
    Db.getProfileStats profileId w = (Ok result, opened w)
    /\ (result = None <-> ~ In profileId (map Profile.id (profiles (file (opened w)))))
    /\ forall stats,
         result = Some stats ->
         let mine :=
           filter (fun l => match LogEntry.profile_id l with
                            | Some k => k =? profileId
                            | None => false
                            end)
                  (logs (file (opened w))) in
         let of_type (type : LogType) :=
           filter (fun l => match LogEntry.type l, type with
                            | GREEN, GREEN | YELLOW, YELLOW | RED, RED => true
                            | _, _ => false
                            end) mine in
         In (ProfileStats.profile stats) (profiles (file (opened w)))
         /\ Profile.id (ProfileStats.profile stats) = profileId
         /\ ProfileStats.totalLogs stats = List.length mine
         /\ ProfileStats.totalLogs stats
            = (ProfileStats.redCount stats + ProfileStats.yellowCount stats
               + ProfileStats.greenCount stats)%nat
         /\ ProfileStats.redCount stats = List.length (of_type RED)
         /\ ProfileStats.yellowCount stats = List.length (of_type YELLOW)
         /\ ProfileStats.greenCount stats = List.length (of_type GREEN)
         /\ (exists rows,
                Permutation rows mine /\ newest_first rows
                /\ ProfileStats.vibeScore stats = Db.calculateVibeScore rows)
         /\ ProfileStats.healthStatus stats
            = Db.getHealthStatus (ProfileStats.vibeScore stats)
         /\ (ProfileStats.lastFlagDate stats = None
             <-> ProfileStats.totalLogs stats = 0%nat)
         /\ (forall date,
                ProfileStats.lastFlagDate stats = Some date ->
                exists l, In l mine /\ LogEntry.timestamp l = date)
         /\ (forall l,
                In l (logs (file (opened w))) ->
                LogEntry.profile_id l = Some profileId ->
                exists date,
                  ProfileStats.lastFlagDate stats = Some date
                  /\ String.leb (LogEntry.timestamp l) date = true).
Proof.
  rewrite getProfileStats_run. eexists. split; [reflexivity|].
  set (t := file (opened w)).
  destruct (in_dec Z.eq_dec profileId (map Profile.id (profiles t))) as [Hin | Hnot].
  - destruct (select_found_key _ _ Hin) as [p [rest [Hsel [Hp Ep]]]].
    unfold select_profiles_by_id. rewrite Hsel.
    split; [split; [discriminate | intros H; contradiction]|].
    intros stats [= <-]. cbv zeta.
    set (mine := filter (fun l => match LogEntry.profile_id l with
                                  | Some k => k =? profileId
                                  | None => false
                                  end) (logs t)).
    set (of_type := fun type : LogType =>
                      filter (fun l => match LogEntry.type l, type with
                                       | GREEN, GREEN | YELLOW, YELLOW | RED, RED => true
                                       | _, _ => false
                                       end) mine).
    set (rows := select_logs_by_profile_id profileId t).
    assert (Hperm : Permutation rows mine) by apply order_by_perm.
    assert (Hlen : List.length rows = List.length mine) by apply order_by_length.
    assert (Htype : forall type,
               List.length (filter (Db.is_type type) rows)
               = List.length (of_type type)).
    { intros type. unfold rows, select_logs_by_profile_id.
      rewrite (order_by_filter newer_or_same newer_or_same_total newer_or_same_trans).
      apply order_by_length. }
    cbn [ProfileDetailScreen.reportStats ProfileStats.profile ProfileStats.totalLogs
         ProfileStats.redCount ProfileStats.yellowCount ProfileStats.greenCount
         ProfileStats.healthStatus ProfileStats.vibeScore ProfileStats.lastFlagDate].
    fold rows.
    split; [assumption|]. split; [assumption|]. split; [assumption|].
    split; [apply count_by_type|].
    split; [apply Htype|]. split; [apply Htype|]. split; [apply Htype|].
    split; [exists rows; split; [assumption|];
            split; [apply select_logs_by_profile_id_spec | reflexivity]|].
    split; [reflexivity|].
    split; [destruct rows; split; intros; try reflexivity; discriminate|].
    split.
    + intros date Hdate. destruct rows as [|r rs] eqn:Er; [discriminate|].
      injection Hdate as <-. exists r. split; [|reflexivity].
      apply (Permutation_in _ Hperm). now left.
    + intros l Hl Hid.
      assert (Hfl : In l mine)
        by (apply filter_In; split; [assumption | rewrite Hid; apply Z.eqb_refl]).
      destruct rows as [|r rs] eqn:Er.
      * apply (Permutation_in _ (Permutation_sym Hperm)) in Hfl. contradiction.
      * exists (LogEntry.timestamp r). split; [reflexivity|].
        exact (order_by_first newer_or_same newer_or_same_total newer_or_same_trans
                 _ r rs Er l Hfl).
  - unfold select_profiles_by_id. rewrite (select_missing_key _ _ Hnot).
    split; [split; [intros _; exact Hnot | reflexivity]|]. discriminate.
Qed.

(** X17. On a well-formed database the score [getProfileStats] reports
    is an integer from 0 to 100, the health status is the label the
    threshold table gives it, and a profile without logs scores 0 and
    is "Thriving". *)
Theorem getProfileStats_score (profileId : Z) (w w' : World) (stats : ProfileStats.t) :
  well_formed (file w) -> array (logs (file w)) ->
  Db.getProfileStats profileId w = (Ok (Some stats), w') ->
  exists score,
    ProfileStats.vibeScore stats = of_Z score
    /\ 0 <= score <= 100
    /\ ProfileStats.healthStatus stats = classifyHealth score
    /\ (ProfileStats.totalLogs stats = 0%nat ->
        score = 0 /\ ProfileStats.healthStatus stats = "Thriving"%string).
Proof.
  intros Hwf Harr. rewrite getProfileStats_run.
  destruct (select_profiles_by_id profileId (file (opened w))) as [|p ps];
    [discriminate|].
  intros [= <- _].
  apply opened_well_formed in Hwf.
  assert (Harr' : array (logs (file (opened w))))
    by (unfold array in *; now rewrite opened_logs_length).
  set (rows := select_logs_by_profile_id profileId (file (opened w))).
  destruct (selected_rows_scored (file (opened w)) rows Hwf Harr')
    as [score [Hscore [Hrange [Hlabel Hnil]]]].
  - intros l Hl.
    apply (Permutation_in _ (order_by_perm newer_or_same _)) in Hl.
    apply filter_In in Hl. tauto.
  - unfold rows, select_logs_by_profile_id. rewrite order_by_length.
    apply filter_length_le.
  - exists score.
    cbn [ProfileDetailScreen.reportStats ProfileStats.healthStatus
         ProfileStats.vibeScore ProfileStats.totalLogs].
    fold rows.
    change (ProfileDetailScreen.calculateVibeScore rows)
      with (Db.calculateVibeScore rows).
    change (ProfileDetailScreen.getHealthStatus (Db.calculateVibeScore rows))
      with (Db.getHealthStatus (Db.calculateVibeScore rows)).
    rewrite Hscore, Hlabel.
    split; [reflexivity|]. split; [exact Hrange|]. split; [reflexivity|].
    intros Hzero. apply length_zero_iff_nil in Hzero.
    rewrite (Hnil Hzero). split; reflexivity.
Qed.

Lemma getProfileStats_score_witness :
  exists stats score,
    Db.getProfileStats 1 Example.with_three_logs
    = (Ok (Some stats), Example.with_three_logs)
    /\ ProfileStats.vibeScore stats = of_Z score
    /\ 0 <= score <= 100
    /\ ProfileStats.healthStatus stats = classifyHealth score.
Proof.
  eexists.
  destruct (getProfileStats_score 1 Example.with_three_logs Example.with_three_logs
              _
              ltac:(constructor; cbn; repeat constructor; cbn; try lia;
                    intuition discriminate)
              ltac:(unfold array; cbn; lia)
              eq_refl)
    as [score [H1 [H2 [H3 _]]]].
  exists score. split; [reflexivity|]. auto.
Defined.

(** X18. On a well-formed database [getAllProfilesWithStats] returns
    one entry for every stored profile, none skipped, in alphabetical
    order of the names, each counting the logs that reference that
    profile. *)
Theorem getAllProfilesWithStats_complete (w : World) :
  well_formed (file w) ->
  exists stats,
    Db.getAllProfilesWithStats w = (Ok stats, opened w)
    /\ map ProfileStats.profile stats = select_all_profiles (file (opened w))
    /\ Permutation (map ProfileStats.profile stats) (profiles (file (opened w)))
    /\ Forall (fun s =>
                 ProfileStats.totalLogs s
                 = List.length (filter (on_profile_id (ProfileStats.profile s))
                                       (logs (file (opened w)))))
              stats.
Proof.
  intros Hwf. apply opened_well_formed in Hwf.
  destruct (getDatabase_run w) as [database [_ Hdb]].
  unfold Db.getAllProfilesWithStats, bind. rewrite getAllProfiles_run.
  rewrite (collect_stats_run _ _ _ database Hdb (profile_ids_unique _ Hwf)).
  - eexists. split; [reflexivity|]. cbn [app].
    split; [|split].
    + rewrite map_map. cbn [ProfileDetailScreen.reportStats ProfileStats.profile].
      apply map_id.
    + rewrite map_map. cbn [ProfileDetailScreen.reportStats ProfileStats.profile].
      rewrite map_id. apply order_by_perm.
    + apply Forall_map, Forall_forall. intros p _.
      cbn [ProfileDetailScreen.reportStats ProfileStats.profile ProfileStats.totalLogs].
      apply order_by_length.
  - intros p Hp. now apply (Permutation_in _ (order_by_perm name_before_or_same _)).
Qed.

Lemma getAllProfilesWithStats_complete_witness :
  exists stats,
    Db.getAllProfilesWithStats Example.legacy = (Ok stats, opened Example.legacy)
    /\ map (fun s => Profile.name (ProfileStats.profile s)) stats
       = ["Alex"; "Sam"]%string
    /\ map ProfileStats.totalLogs stats = [1; 2]%nat.
Proof.
  destruct (getAllProfilesWithStats_complete Example.legacy) as [stats [Hrun _]].
  - constructor; cbn; repeat constructor; cbn; try lia; intuition discriminate.
  - exists stats. split; [exact Hrun|].
    injection Hrun as <-. split; reflexivity.
Defined.

End StatisticsResults.


(** ** The screens and the subscription limits *)

Section Screens.

Import Model JS Spec RevenueCatService.

(** X19. [DashboardScreen.loadData] scores the ten newest logs (of all
    people together) and shows the watchlist of at most three
    profiles. The climate it shows is the health status of that score
    under other names: "CRITICAL: TOXIC" for "Critical", "Healthy" for
    "Stable" and "Angelic" for "Thriving"; the separate test for an
    empty list never changes the outcome. *)
Theorem loadData_climate (w : World) :
  exists state,
    DashboardScreen.loadData w = (Ok state, opened w)
    /\ DashboardScreen.recentLogs state = select_recent_logs 10 (file (opened w))
    /\ (List.length (DashboardScreen.recentLogs state) <= 10)%nat
    /\ (List.length (DashboardScreen.topProfiles state) <= 3)%nat
    /\ DashboardScreen.vibeScore state
       = Db.calculateVibeScore (DashboardScreen.recentLogs state)
    /\ let status := Db.getHealthStatus (DashboardScreen.vibeScore state) in
       let climate := DashboardScreen.climate state in
       (climate = "CRITICAL: TOXIC" <-> status = "Critical")%string
       /\ (climate = "Toxic" <-> status = "Toxic")%string
       /\ (climate = "Concerning" <-> status = "Concerning")%string
       /\ (climate = "Healthy" <-> status = "Stable")%string
       /\ (climate = "Angelic" <-> status = "Thriving")%string.
Proof.
  unfold DashboardScreen.loadData, bind.
  rewrite getRecentLogs_run, getTopProfilesByLogCount_run, opened_idempotent.
  eexists. split; [reflexivity|].
  cbn [DashboardScreen.recentLogs DashboardScreen.topProfiles
       DashboardScreen.vibeScore DashboardScreen.climate].
  set (rows := select_recent_logs 10 (file (opened w))).
  split; [reflexivity|]. split; [|split; [|split; [reflexivity|]]].
  - unfold rows, select_recent_logs.
    rewrite limit_rows_length by lia. apply Nat.le_min_l.
  - destruct (select_top_profiles on_profile_id 3 (file (opened w))) as [|r rs] eqn:E.
    + unfold select_top_profiles. rewrite length_firstn. apply Nat.le_min_l.
    + rewrite <- E. unfold select_top_profiles. rewrite length_firstn.
      apply Nat.le_min_l.
  - destruct rows as [|r rs].
    + cbn. repeat split; intros; try discriminate; reflexivity.
    + cbn [List.length Nat.eqb]. unfold Db.getHealthStatus.
      set (score := Db.calculateVibeScore (r :: rs)).
      destruct (gt score (of_Z 75)), (ge score (of_Z 50)), (ge score (of_Z 25)),
               (gt score (of_Z 0));
        repeat split; intros; try discriminate; reflexivity.
Qed.

(** The tier is "premium" exactly when the premium entitlement is
    active, whether or not the pro entitlement is active too; "pro"
    when only the pro entitlement is; and "free" otherwise, in
    particular when the customer information cannot be fetched. *)
Lemma getCurrentTier_precedence (customerInfo : option CustomerInfo) :
  (getCurrentTier customerInfo = premium
   <-> exists active, customerInfo = Some active /\ In "premium"%string active)
  /\ (getCurrentTier customerInfo = pro
      <-> exists active, customerInfo = Some active /\ In "pro"%string active
                         /\ ~ In "premium"%string active)
  /\ getCurrentTier None = free.
Proof.
  assert (Hex : forall key active,
             existsb (String.eqb key) active = true <-> In key active).
  { intros key active. rewrite existsb_exists. split.
    - intros [x [Hx E]]. apply String.eqb_eq in E. now subst.
    - intros H. exists key. split; [assumption | apply String.eqb_refl]. }
  split; [|split; [|reflexivity]].
  - destruct customerInfo as [active|]; cbn [getCurrentTier].
    + destruct (existsb (String.eqb "premium") active) eqn:E.
      * split; [|reflexivity]. intros _. exists active. split; [reflexivity|].
        now apply Hex.
      * split.
        -- destruct (existsb (String.eqb "pro") active); discriminate.
        -- intros [a [[= <-] Hin]]. apply Hex in Hin. congruence.
    + split; [discriminate|]. intros [a [H _]]. discriminate.
  - destruct customerInfo as [active|]; cbn [getCurrentTier].
    + destruct (existsb (String.eqb "premium") active) eqn:E.
      * split; [discriminate|]. intros [a [[= <-] [_ Hnot]]].
        exfalso. apply Hnot. now apply Hex.
      * destruct (existsb (String.eqb "pro") active) eqn:E'.
        -- split; [|reflexivity]. intros _. exists active.
           split; [reflexivity|]. split; [now apply Hex|].
           intros Hin. apply Hex in Hin. congruence.
        -- split; [discriminate|]. intros [a [[= <-] [Hin _]]].
           apply Hex in Hin. congruence.
    + split; [discriminate|]. intros [a [H _]]. discriminate.
Qed.

(** X20. What each tier may do. On the free tier a profile may be
    added while fewer than 2 exist and a log while fewer than 25
    exist, and neither the PDF export nor the AI features are allowed;
    pro and premium have no count limit and may export; only premium
    may use the AI features. An addition whose current count is not
    passed is refused on every tier, and so is an unknown action. *)
Theorem canPerformAction_by_tier (customerInfo : option CustomerInfo)
    (currentCount : Z) (count : option Z) (action : string) :
  Z.abs currentCount < 2 ^ 53 ->
  let tier := getCurrentTier customerInfo in
  (allowed (canPerformAction customerInfo "addProfile" (Some currentCount)) = true
   <-> tier <> free \/ currentCount < 2)
  /\ (allowed (canPerformAction customerInfo "addLog" (Some currentCount)) = true
      <-> tier <> free \/ currentCount < 25)
  /\ (allowed (canPerformAction customerInfo "exportPDF" count) = true
      <-> tier <> free)
  /\ (allowed (canPerformAction customerInfo "useAI" count) = true
      <-> tier = premium)
  /\ allowed (canPerformAction customerInfo "addProfile" None) = false
  /\ allowed (canPerformAction customerInfo "addLog" None) = false
  /\ (action <> "addProfile" -> action <> "addLog" -> action <> "exportPDF" ->
      action <> "useAI" ->
      canPerformAction customerInfo action count
      = mkCheck false (Some (Message "Unknown action")))%string.
Proof.
  intros Hc tier.
  rewrite allowed_addProfile, allowed_addLog by assumption.
  rewrite allowed_exportPDF, allowed_useAI. fold tier.
  split; [|split; [|split; [|split; [|split; [|split]]]]].
  - destruct tier; split; try reflexivity; try (intros _; left; discriminate).
    + intros H. right. now apply Z.ltb_lt.
    + intros [Ht | Hlt]; [now contradiction Ht | now apply Z.ltb_lt].
  - destruct tier; split; try reflexivity; try (intros _; left; discriminate).
    + intros H. right. now apply Z.ltb_lt.
    + intros [Ht | Hlt]; [now contradiction Ht | now apply Z.ltb_lt].
  - destruct tier; split; congruence.
  - destruct tier; split; congruence.
  - reflexivity.
  - reflexivity.
  - intros Hp Hl He Ha. unfold canPerformAction.
    apply String.eqb_neq in Hp, Hl, He, Ha. now rewrite Hp, Hl, He, Ha.
Qed.

Lemma canPerformAction_by_tier_witness :
  allowed (canPerformAction None "addLog" (Some 24)) = true
  /\ allowed (canPerformAction None "addLog" (Some 25)) = false
  /\ allowed (canPerformAction (Some ["pro"%string]) "addLog" (Some 25)) = true.
Proof.
  destruct (canPerformAction_by_tier None 24 None "addLog" ltac:(cbn; lia))
    as [_ [H24 _]].
  destruct (canPerformAction_by_tier None 25 None "addLog" ltac:(cbn; lia))
    as [_ [H25 _]].
  destruct (canPerformAction_by_tier (Some ["pro"%string]) 25 None "addLog"
              ltac:(cbn; lia)) as [_ [Hpro _]].
  split; [apply H24; right; lia|]. split.
  - destruct (allowed (canPerformAction None "addLog" (Some 25))) eqn:E;
      [|reflexivity].
    destruct (proj1 H25 eq_refl) as [H | H]; [now contradiction H | lia].
  - apply Hpro. left. discriminate.
Defined.

(** X21. How the screens apply the limits. Pressing a flag on the
    dashboard opens the logger exactly when the tier is not free or
    fewer than 25 logs are stored; the profiles screen opens its "add"
    form exactly when the tier is not free or it lists fewer than 2
    profiles; "Insights" asks for an upgrade exactly when the tier is
    not premium, and otherwise opens exactly when the screen lists at
    least 5 logs. *)
Theorem screens_apply_limits (customerInfo : option CustomerInfo) (type : LogType)
    (w : World) (shown : list Profile.t) (listed : list LogEntry.t) :
  array (logs (file w)) -> Z.of_nat (List.length shown) < 2 ^ 32 -> array listed ->
  let tier := getCurrentTier customerInfo in
  (exists opens,
      DashboardScreen.handleFlagPress customerInfo type w = (Ok opens, opened w)
      /\ (opens = true
          <-> tier <> free \/ (List.length (logs (file (opened w))) < 25)%nat))
  /\ (ProfilesScreen.handleAddProfilePress customerInfo shown = true
      <-> tier <> free \/ (List.length shown < 2)%nat)
  /\ (ProfileDetailScreen.onPressInsights customerInfo listed
      = ProfileDetailScreen.Upgrade_to_Premium
      <-> tier <> premium)
  /\ (ProfileDetailScreen.onPressInsights customerInfo listed
      = ProfileDetailScreen.navigate_AIInsights
      <-> tier = premium /\ (5 <= List.length listed)%nat).
Proof.
  intros Hlogs Hshown Hlisted tier. unfold array in *.
  change (2 ^ 32) with 4294967296 in *.
  split; [|split; [|split]].
  - unfold DashboardScreen.handleFlagPress, bind, SubscriptionStore.checkLimit.
    rewrite getAllLogs_run.
    unfold select_all_logs. rewrite order_by_length.
    pose proof (opened_logs_length w) as Hlen.
    rewrite allowed_addLog by (change (2 ^ 53) with 9007199254740992; lia).
    fold tier.
    exists (match tier with
            | free => Z.of_nat (List.length (logs (file (opened w)))) <? 25
            | _ => true
            end).
    split.
    + destruct tier; [destruct (_ <? 25)|..]; reflexivity.
    + destruct tier.
      * destruct (Z.ltb_spec (Z.of_nat (List.length (logs (file (opened w))))) 25);
          split; try discriminate; try reflexivity.
        -- intros _. right. lia.
        -- intros [Ht | Hlt]; [now contradiction Ht | lia].
      * split; [intros _; left; discriminate | reflexivity].
      * split; [intros _; left; discriminate | reflexivity].
  - unfold ProfilesScreen.handleAddProfilePress, SubscriptionStore.checkLimit.
    rewrite allowed_addProfile by (change (2 ^ 53) with 9007199254740992; lia).
    fold tier. destruct tier.
    + destruct (Z.ltb_spec (Z.of_nat (List.length shown)) 2); cbn [negb];
        split; try discriminate; try reflexivity.
      * intros _. right. lia.
      * intros [Ht | Hlt]; [now contradiction Ht | lia].
    + cbn [negb]. split; [intros _; left; discriminate | reflexivity].
    + cbn [negb]. split; [intros _; left; discriminate | reflexivity].
  - unfold ProfileDetailScreen.onPressInsights, SubscriptionStore.checkLimit.
    rewrite allowed_useAI. fold tier.
    destruct tier; cbn [negb]; try (split; [discriminate | reflexivity]);
      try (split; [congruence | reflexivity]).
    destruct (negb _); split; congruence.
  - unfold ProfileDetailScreen.onPressInsights, SubscriptionStore.checkLimit.
    rewrite allowed_useAI. fold tier.
    unfold AIInsightsService.canUseAIAnalysis, AIInsightsService.MIN_LOGS_FOR_AI.
    rewrite ge_of_Z
      by (try reflexivity; change (2 ^ JS.prec) with 9007199254740992; lia).
    destruct tier; cbn [negb];
      try (split; [discriminate | intros [Ht _]; discriminate]).
    destruct (Z.leb_spec 5 (Z.of_nat (List.length listed))); cbn [negb]; split;
      try discriminate; try reflexivity.
    + intros _. split; [reflexivity | lia].
    + intros [_ H5]. lia.
Qed.

Lemma screens_apply_limits_witness :
  exists opens,
    DashboardScreen.handleFlagPress None RED Example.with_three_logs
    = (Ok opens, Example.with_three_logs)
    /\ opens = true.
Proof.
  destruct (screens_apply_limits None RED Example.with_three_logs [] [])
    as [[opens [Hrun Hopens]] _]; try (unfold array; cbn; lia).
  exists opens. split; [exact Hrun|].
  apply Hopens. right. cbn. lia.
Defined.

(** X22. What [getProfileStats] and the profile screen report for the
    same profile. When some log references the profile, the statistics
    the screen builds from its loaded list are exactly those of
    [getProfileStats]. When none does, [getProfileStats] reports no
    logs, score 0 and "Thriving", while the screen goes on to list the
    logs filed under the profile's name. *)
Theorem reportStats_and_getProfileStats (profileId : Z) (w w1 : World)
    (profile : Profile.t) (listed : list LogEntry.t) :
  ProfileDetailScreen.fetchProfileData profileId w = (Ok (Some profile, listed), w1) ->
  (select_logs_by_profile_id profileId (file w1) <> [] ->
   Db.getProfileStats profileId w1
   = (Ok (Some (ProfileDetailScreen.reportStats profile listed)), w1))
  /\ (select_logs_by_profile_id profileId (file w1) = [] ->
      Db.getProfileStats profileId w1
      = (Ok (Some (ProfileStats.mk profile (of_Z 0) "Thriving" 0 0 0 0 None)), w1)
      /\ listed = select_logs_by_person (Profile.name profile) (file w1)).
Proof.
  rewrite fetchProfileData_run. intros H. injection H as Hres <-.
  rewrite getProfileStats_run, opened_idempotent.
  destruct (select_profiles_by_id profileId (file (opened w))) as [|p ps];
    [discriminate|].
  injection Hres as <- <-.
  destruct (select_logs_by_profile_id profileId (file (opened w))) as [|r rs].
  - split; [intros H; now contradiction H|]. intros _. split; reflexivity.
  - split; [reflexivity | discriminate].
Qed.

Lemma reportStats_and_getProfileStats_witness :
  exists listed,
    ProfileDetailScreen.fetchProfileData 1 Example.with_unlinked_log
    = (Ok (Some (Profile.mk 1 "Alex" "Friend" "2025-03-01T09:00:00.000Z"), listed),
       Example.with_unlinked_log)
    /\ List.length listed = 1%nat
    /\ Db.getProfileStats 1 Example.with_unlinked_log
       = (Ok (Some (ProfileStats.mk
                      (Profile.mk 1 "Alex" "Friend" "2025-03-01T09:00:00.000Z")
                      (of_Z 0) "Thriving" 0 0 0 0 None)),
          Example.with_unlinked_log).
Proof.
  eexists. split; [reflexivity|]. split; [reflexivity|].
  exact (proj1 (proj2 (reportStats_and_getProfileStats 1
                         Example.with_unlinked_log Example.with_unlinked_log
                         _ _ eq_refl)
                      eq_refl)).
Defined.

(** X23. The header of the profile screen. For logs as the database
    stores them the trust score is 100 minus the vibe score, an
    integer from 0 to 100, coloured green when the vibe score is at
    most 25, yellow when it is above 25 and at most 50, and red above;
    and the colour of the health status is never the fallback grey,
    for any score at all. *)
Theorem trustScore_complements (listed : list LogEntry.t) :
  Forall stored_severity listed -> array listed ->
  (exists score,
      ProfileDetailScreen.calculateVibeScore listed = of_Z score
      /\ ProfileDetailScreen.trustScore listed = of_Z (100 - score)
      /\ 0 <= 100 - score <= 100
      /\ ProfileDetailScreen.getTrustScoreColor (ProfileDetailScreen.trustScore listed)
         = (if score <=? 25 then "#00FF9C"%string
            else if score <=? 50 then "#FFD600"%string else "#FF0055"%string))
  /\ forall score : number,
       ProfileDetailScreen.getHealthColor (ProfileDetailScreen.getHealthStatus score)
       <> "#888"%string.
Proof.
  intros Hst Harr. split.
  - exists (computeToxicityScore listed).
    pose proof (computeToxicityScore_range listed) as Hr.
    assert (Hscore : ProfileDetailScreen.calculateVibeScore listed
                     = of_Z (computeToxicityScore listed)).
    { change (ProfileDetailScreen.calculateVibeScore listed)
        with (Db.calculateVibeScore listed).
      apply calculateVibeScore_computeToxicityScore;
        [now apply stored_is_bounded | assumption]. }
    set (score := computeToxicityScore listed) in *.
    assert (Htrust : ProfileDetailScreen.trustScore listed = of_Z (100 - score)).
    { unfold ProfileDetailScreen.trustScore. rewrite Hscore.
      rewrite !of_Z_canon by (change (2 ^ prec) with 9007199254740992; lia).
      apply sub_canon; try (change (2 ^ prec) with 9007199254740992; lia).
      unfold exp_ok. lia. }
    split; [exact Hscore|]. split; [exact Htrust|]. split; [lia|].
    rewrite Htrust. unfold ProfileDetailScreen.getTrustScoreColor.
    rewrite !ge_of_Z
      by (try reflexivity; change (2 ^ prec) with 9007199254740992; lia).
    destruct (Z.leb_spec 75 (100 - score)), (Z.leb_spec score 25); try lia;
      try reflexivity.
    destruct (Z.leb_spec 50 (100 - score)), (Z.leb_spec score 50); try lia;
      reflexivity.
  - intros score. unfold ProfileDetailScreen.getHealthStatus.
    destruct (gt score (of_Z 75)), (ge score (of_Z 50)), (ge score (of_Z 25)),
             (gt score (of_Z 0)); discriminate.
Qed.

Lemma trustScore_complements_witness :
  exists score,
    ProfileDetailScreen.trustScore
      [Example.log RED 7; Example.log YELLOW 4; Example.log GREEN 2]
    = of_Z (100 - score)
    /\ 0 <= 100 - score <= 100.
Proof.
  destruct (proj1 (trustScore_complements
                     [Example.log RED 7; Example.log YELLOW 4; Example.log GREEN 2]
                     ltac:(repeat constructor; unfold stored_severity; cbn; lia)
                     ltac:(unfold array; cbn; lia)))
    as [score [_ [Htrust [Hrange _]]]].
  exists score. split; assumption.
Defined.

End Screens.


(** ** Opening the database and migrating old rows *)

Section Migrating.

Import Model.

Lemma link_person_spec (person : string) (w : World) :
  exists p,
    In p (profiles (file (link_person person w)))
    /\ Profile.name p = person
    /\ logs (file (link_person person w))
       = map (fun l => if (LogEntry.person l =? person)%string
                          && is_null (LogEntry.profile_id l)
                       then set_profile_id (Some (Profile.id p)) l else l)
             (logs (file w))
    /\ (forall q, In q (profiles (file w)) ->
                  In q (profiles (file (link_person person w))))
    /\ (forall q, In q (profiles (file (link_person person w))) ->
                  In q (profiles (file w))
                  \/ (Profile.relationship q = "Unknown"%string
                      /\ Profile.name q = person)).
Proof.
  unfold link_person.
  destruct (select_profile_ids_by_name person (file w)) as [|profileId ids] eqn:E.
  - eexists. cbn [file link_logs profiles logs].
    split; [apply in_or_app; right; now left|].
    split; [reflexivity|]. split; [reflexivity|]. split.
    + intros q Hq. apply in_or_app. now left.
    + intros q Hq. apply in_app_or in Hq. destruct Hq as [Hq | [<- | []]];
        [now left | right; split; reflexivity].
  - unfold select_profile_ids_by_name in E.
    destruct (filter (fun p => (Profile.name p =? person)%string)
                     (profiles (file w))) as [|p ps] eqn:F; [discriminate|].
    injection E as <- _.
    assert (Hp : In p (filter (fun p => (Profile.name p =? person)%string)
                              (profiles (file w)))) by (rewrite F; now left).
    apply filter_In in Hp. destruct Hp as [Hp Ep]. apply String.eqb_eq in Ep.
    exists p. cbn [file set_file link_logs profiles logs].
    split; [assumption|]. split; [assumption|]. split; [reflexivity|].
    split; [auto | intros q Hq; now left].
Qed.

Lemma migrateExistingData_fold (database : SQLiteDatabase) (w : World) :
  Db.migrateExistingData database w
  = (Ok tt,
     fold_left (fun w person => link_person person w)
               (select_unlinked_people (file w)) w).
Proof.
  rewrite migrateExistingData_run.
  destruct (select_unlinked_people (file w)); reflexivity.
Qed.

Lemma Forall2_map_step {A : Type} (R S : A -> A -> Prop) (g : A -> A)
    (l1 l2 : list A) :
  (forall a b, R a b -> S a (g b)) -> Forall2 R l1 l2 -> Forall2 S l1 (map g l2).
Proof. intros H. induction 1; cbn [map]; constructor; auto. Qed.

Lemma Forall2_impl_in {A : Type} (R S : A -> A -> Prop) (l1 l2 : list A) :
  (forall a b, In a l1 -> R a b -> S a b) -> Forall2 R l1 l2 -> Forall2 S l1 l2.
Proof.
  intros H F. induction F as [|a b l1 l2 Hab F IH]; constructor.
  - apply H; [now left | assumption].
  - apply IH. intros x y Hx. apply H. now right.
Qed.

Lemma migrated_step (people : list string) (person : string) (w0 w : World) :
  Forall2 (migrated people (file w)) (logs (file w0)) (logs (file w)) ->
  Forall2 (migrated (people ++ [person]) (file (link_person person w)))
          (logs (file w0)) (logs (file (link_person person w))).
Proof.
  destruct (link_person_spec person w) as [p [Hp [Ename [-> [Hmono _]]]]].
  apply Forall2_map_step. intros l l' [HA [HB [HC HD]]].
  assert (Hperson : LogEntry.person l' = LogEntry.person l)
    by (apply (f_equal LogEntry.person) in HA; exact HA).
  unfold migrated.
  destruct (LogEntry.profile_id l) as [k|] eqn:El.
  - rewrite (HB ltac:(discriminate)), El. cbn [is_null]. rewrite andb_false_r.
    split; [reflexivity|]. split; [reflexivity|].
    split; intros H; discriminate.
  - specialize (HC eq_refl). specialize (HD eq_refl).
    split; [|split; [intros H; now contradiction H|]].
    { destruct ((LogEntry.person l' =? person)%string
                && is_null (LogEntry.profile_id l')); [|assumption].
      rewrite <- HA. now destruct l'. }
    destruct (in_dec string_dec (LogEntry.person l) people) as [Hin | Hnot].
    + destruct (HC Hin) as [q [Hq [Eq Hl']]].
      rewrite Hl'. cbn [is_null]. rewrite andb_false_r. split.
      * intros _ _. exists q. auto.
      * intros _ Hno. exfalso. apply Hno, in_or_app. now left.
    + rewrite (HD Hnot), Hperson. cbn [is_null]. rewrite andb_true_r.
      destruct (String.eqb_spec (LogEntry.person l) person) as [Ex | Hne].
      * split.
        -- intros _ _. exists p. split; [assumption|]. split; [congruence|].
           reflexivity.
        -- intros _ Hno. exfalso. apply Hno, in_or_app. right. now left.
      * split.
        -- intros _ Hin. apply in_app_or in Hin.
           destruct Hin as [Hin | [E | []]]; [contradiction | congruence].
        -- intros _ _. now apply HD.
Qed.

Lemma migrated_fold (rest people : list string) (w0 w : World) :
  Forall2 (migrated people (file w)) (logs (file w0)) (logs (file w)) ->
  Forall2 (migrated (people ++ rest)
                    (file (fold_left (fun w person => link_person person w) rest w)))
          (logs (file w0))
          (logs (file (fold_left (fun w person => link_person person w) rest w))).
Proof.
  revert people w. induction rest as [|person rest IH]; intros people w H.
  - now rewrite app_nil_r.
  - cbn [fold_left].
    replace (people ++ person :: rest) with ((people ++ [person]) ++ rest)
      by (rewrite <- app_assoc; reflexivity).
    apply IH. now apply migrated_step.
Qed.

Lemma migrated_start (w : World) :
  Forall2 (migrated [] (file w)) (logs (file w)) (logs (file w)).
Proof.
  rewrite <- (map_id (logs (file w))) at 2.
  apply Forall2_map_r. intros l.
  repeat split; auto. intros _ [].
Qed.

Lemma kept_or_created_fold (rest people : list string) (w0 w : World) :
  (forall q, In q (profiles (file w0)) -> In q (profiles (file w))) ->
  (forall q, In q (profiles (file w)) -> kept_or_created people (file w0) q) ->
  let w' := fold_left (fun w person => link_person person w) rest w in
  (forall q, In q (profiles (file w0)) -> In q (profiles (file w')))
  /\ (forall q, In q (profiles (file w')) ->
                kept_or_created (people ++ rest) (file w0) q).
Proof.
  revert people w. induction rest as [|person rest IH]; intros people w Hmono Hnew.
  - cbn [fold_left]. rewrite app_nil_r. split; assumption.
  - cbn [fold_left].
    destruct (link_person_spec person w) as [p [_ [_ [_ [Hkeep Horigin]]]]].
    replace (people ++ person :: rest) with ((people ++ [person]) ++ rest)
      by (rewrite <- app_assoc; reflexivity).
    apply IH.
    + intros q Hq. apply Hkeep, Hmono, Hq.
    + intros q Hq. destruct (Horigin q Hq) as [Hold | [Hrel Hname]].
      * destruct (Hnew q Hold) as [H | [H1 H2]]; [now left | right].
        split; [assumption | apply in_or_app; now left].
      * right. split; [assumption|]. apply in_or_app. right. now left.
Qed.

(** X24. What the migration does. It never throws. Every log keeps all
    its columns but the profile reference; a log that had a reference
    is untouched; a log that had none now refers to a profile that
    carries the name the log is filed under. Every profile stored
    before is kept, and every other profile was created with
    relationship "Unknown" for the name of some log without a
    reference. *)
Theorem migrateExistingData_links_by_name (database : SQLiteDatabase) (w : World) :
  exists w',
    Db.migrateExistingData database w = (Ok tt, w')
    /\ Forall2
         (fun l l' =>
            set_profile_id None l' = set_profile_id None l
            /\ (LogEntry.profile_id l <> None -> l' = l)
            /\ (LogEntry.profile_id l = None ->
                exists p,
                  In p (profiles (file w'))
                  /\ Profile.name p = LogEntry.person l
                  /\ LogEntry.profile_id l' = Some (Profile.id p)))
         (logs (file w)) (logs (file w'))
    /\ (forall q, In q (profiles (file w)) -> In q (profiles (file w')))
    /\ (forall q,
           In q (profiles (file w')) ->
           In q (profiles (file w))
           \/ (Profile.relationship q = "Unknown"%string
               /\ exists l, In l (logs (file w)) /\ LogEntry.profile_id l = None
                            /\ LogEntry.person l = Profile.name q)).
Proof.
  rewrite migrateExistingData_fold. eexists. split; [reflexivity|].
  set (people := select_unlinked_people (file w)).
  assert (Hpeople : forall name,
             In name people
             <-> exists l, In l (logs (file w)) /\ LogEntry.profile_id l = None
                           /\ LogEntry.person l = name).
  { intros name. unfold people, select_unlinked_people.
    rewrite In_distinct, in_map_iff. split.
    - intros [l [E Hl]]. apply filter_In in Hl. destruct Hl as [Hl Hnull].
      exists l. repeat split; try assumption.
      now destruct (LogEntry.profile_id l).
    - intros [l [Hl [Hnull E]]]. exists l. split; [assumption|].
      apply filter_In. split; [assumption|]. now rewrite Hnull. }
  pose proof (migrated_fold people [] w w (migrated_start w)) as Hlogs.
  destruct (kept_or_created_fold people [] w w (fun q H => H)
              (fun q H => or_introl H)) as [Hkeep Hnew].
  cbn [app] in Hlogs, Hnew.
  split; [|split; [exact Hkeep|]].
  - eapply Forall2_impl_in; [|exact Hlogs].
    intros l l' Hl [HA [HB [HC _]]]. split; [assumption|]. split; [assumption|].
    intros Hnull. apply HC; [assumption|].
    apply Hpeople. exists l. repeat split; assumption.
  - intros q Hq. destruct (Hnew q Hq) as [H | [Hrel Hname]]; [now left | right].
    split; [assumption|]. now apply Hpeople.
Qed.

Lemma no_unlinked_people (t : Tables) :
  select_unlinked_people t = [] ->
  Forall (fun l => LogEntry.profile_id l <> None) (logs t).
Proof.
  intros H. apply Forall_forall. intros l Hl Hnull.
  assert (Hin : In (LogEntry.person l) (select_unlinked_people t)).
  { unfold select_unlinked_people. apply In_distinct, in_map.
    apply filter_In. split; [assumption | now rewrite Hnull]. }
  now rewrite H in Hin.
Qed.

(** X25. [getDatabase] never throws. With a cached handle it returns
    it and does nothing else. Without one it opens a connection, on
    which foreign keys are not enforced, runs the migration, after
    which every log has a profile reference, and caches the handle, so
    that the next call does nothing. It never adds or removes a log. *)
Theorem getDatabase_opens_once (w : World) :
  exists database,
    Db.getDatabase w = (Ok database, opened w)
    /\ Db.getDatabase (opened w) = (Ok database, opened w)
    /\ (forall cached, db w = Some cached -> database = cached /\ opened w = w)
    /\ (db w = None ->
        database = openDatabase
        /\ foreign_keys database = false
        /\ Forall (fun l => LogEntry.profile_id l <> None) (logs (file (opened w))))
    /\ List.length (logs (file (opened w))) = List.length (logs (file w)).
Proof.
  destruct (getDatabase_run w) as [database [Hrun Hdb]].
  exists database. split; [exact Hrun|].
  split; [now apply getDatabase_open|].
  split; [|split; [|apply opened_logs_length]].
  - intros cached Hc. rewrite (getDatabase_open w cached Hc) in Hrun.
    injection Hrun as -> Hw. split; [reflexivity | now symmetry].
  - intros Hnone. revert Hrun. unfold opened, Db.getDatabase. rewrite Hnone.
    unfold bind, Db.initializeDatabase.
    set (w0 := {| db := Some openDatabase; file := file w;
                  clock := clock w; reads := reads w |}).
    pose proof (migrateExistingData_all_linked openDatabase w0) as Hall.
    destruct (Db.migrateExistingData openDatabase w0) as [[[]|e] w'] eqn:E;
      cbn [snd ret] in *.
    + intros [= <-]. split; [reflexivity|]. split; [reflexivity|].
      now apply no_unlinked_people.
    + rewrite migrateExistingData_fold in E. discriminate.
Qed.

End Migrating.
